(** * Synthetic telco data generator: a shallow embedding of [data_generator.py]

    The Python module builds eight tables (customers, plans, services, usage,
    billing, support tickets, NPS surveys, customer metrics) from three
    pseudo-random generators (Python's [random], NumPy's global generator used
    by [np.random.normal] and by [DataFrame.sample], and Faker's own) and from
    the wall clock ([datetime.now()], Faker's ['today']).

    The embedding threads an explicit [World] through every function.  A world
    holds one stream per generator and one stream of clock readings, each with
    the position reached so far.  The generators themselves are library code:
    a draw is whatever integer the stream holds at the current position,
    decoded into the range the library call documents.  Quantifying over all
    streams therefore quantifies over every behaviour the generators can have.

    Python floats are modelled by rationals ([Q]), so sums, means and
    roundings are those of the exact values; what is stated about them is
    stated as ranges and tolerances that the binary floats satisfy as well.
    A [DataFrame] built from a list of dicts is the list of its rows, and
    selecting a column of a frame built from an empty list raises
    [KeyError], as pandas does for a frame without columns.  The [print]
    calls of [generate_all_data] are not modelled. *)

From Stdlib Require Import ZArith QArith Qround List String Ascii Bool Lia Lqa.
From Stdlib Require Import DecimalString DecimalNat Finite.
Import ListNotations.

Local Open Scope string_scope.
Local Open Scope Z_scope.

(* ------------------------------------------------------------------ *)
(** ** Strings: formatting and searching *)

Module Str.

Fixpoint zeros (k : nat) : string :=
  match k with
  | O => EmptyString
  | S k' => String "0" (zeros k')
  end.

(** [f"{n:0wd}"] for a non-negative [n]: decimal digits, left-padded with
    zeros up to width [w] (longer numbers are not truncated). *)
Definition fmt_d0 (w n : nat) : string :=
  let s := NilEmpty.string_of_uint (Nat.to_uint n) in
  zeros (w - String.length s)%nat ++ s.

Definition parse_nat (s : string) : option nat :=
  option_map Nat.of_uint (NilEmpty.uint_of_string s).

(** [needle in hay]: substring search, as [str.contains] does for a pattern
    without metacharacters. *)
Fixpoint contains (needle hay : string) : bool :=
  if String.prefix needle hay then true
  else match hay with
       | EmptyString => false
       | String _ rest => contains needle rest
       end.

(** [str.contains('a|b|...')]: a regular expression that is an alternation
    of literals matches when one of the literals occurs. *)
Definition contains_any (needles : list string) (hay : string) : bool :=
  existsb (fun n => contains n hay) needles.

End Str.

(* ------------------------------------------------------------------ *)
(** ** Numbers: the float operations the script uses, on rationals *)

Module Num.

Definition Qltb (x y : Q) : bool := negb (Qle_bool y x).

(** Python's [max(a, b)] returns [a] unless [b] is strictly greater. *)
Definition py_max (a b : Q) : Q := if Qltb a b then b else a.
Definition py_maxZ (a b : Z) : Z := if a <? b then b else a.
Definition py_minZ (a b : Z) : Z := if b <? a then b else a.

(** [int(x)]: truncation towards zero. *)
Definition py_int (x : Q) : Z :=
  if Qltb x 0 then Qceiling x else Qfloor x.

(** Round to the nearest integer, ties to even. *)
Definition round_half_even (x : Q) : Z :=
  let f := Qfloor x in
  match Qcompare (x - inject_Z f) (1 # 2) with
  | Lt => f
  | Gt => f + 1
  | Eq => if Z.even f then f else f + 1
  end.

(** [round(x, nd)] on the exact value.  The script rounds binary floats, whose
    last bit can put a value on the other side of a rounding tie or of a
    threshold; the statements about rounded values and means are ranges
    and tolerances that hold either way. *)
Definition py_round (x : Q) (nd : nat) : Q :=
  let scale := inject_Z (10 ^ Z.of_nat nd) in
  (inject_Z (round_half_even (x * scale)) / scale)%Q.

Definition Qsum (l : list Q) : Q := fold_right Qplus 0%Q l.

(** Arithmetic mean of a non-empty series. *)
Definition avg (l : list Q) : Q :=
  (Qsum l / inject_Z (Z.of_nat (List.length l)))%Q.

(** [Series.mean()]: [NaN] (here [None]) on an empty series. *)
Definition mean (l : list Q) : option Q :=
  match l with
  | [] => None
  | _ :: _ => Some (avg l)
  end.

End Num.

(* ------------------------------------------------------------------ *)
(** ** Dates *)

Module Date.

(** A [datetime] is a number of microseconds since the epoch, a [date] a
    number of days since the epoch. *)
Definition day_us : Z := 86400000000.

Definition timedelta_days (d : Z) : Z := d * day_us.

(** [dt.date()] *)
Definition date_of (dt : Z) : Z := dt / day_us.

(** Year and month of a day number (proleptic Gregorian calendar). *)
Definition year_month (days : Z) : Z * Z :=
  let z := days + 719468 in
  let era := z / 146097 in
  let doe := z - era * 146097 in
  let yoe := (doe - doe / 1460 + doe / 36524 - doe / 146096) / 365 in
  let doy := doe - (365 * yoe + yoe / 4 - yoe / 100) in
  let mp := (5 * doy + 2) / 153 in
  let m := if mp <? 10 then mp + 3 else mp - 9 in
  let y := yoe + era * 400 + (if m <=? 2 then 1 else 0) in
  (y, m).

(** [dt.strftime('%Y-%m')], for the four-digit years the clock reads. *)
Definition strftime_Y_m (dt : Z) : string :=
  let (y, m) := year_month (date_of dt) in
  Str.fmt_d0 4 (Z.to_nat y) ++ "-" ++ Str.fmt_d0 2 (Z.to_nat m).

End Date.

(* ------------------------------------------------------------------ *)
(** ** The world: random streams and the clock *)

Record Src : Type := mkSrc { tape : nat -> Z; pos : nat }.

Definition draw (s : Src) : Z * Src :=
  (tape s (pos s), mkSrc (tape s) (S (pos s))).

Record World : Type := mkWorld {
  py_rng : Src;     (* random.seed(42) *)
  np_rng : Src;     (* np.random.seed(42) *)
  fk_rng : Src;     (* Faker.seed(42) *)
  clock  : Src      (* successive readings of the wall clock *)
}.

Inductive PyErr : Type :=
| KeyError (key : string)
| UnboundLocalError (name : string).

(** Computations that cannot raise. *)
Definition St (A : Type) : Type := World -> A * World.

(** Computations that may raise. *)
Definition Py (A : Type) : Type := World -> PyErr + (A * World).

Definition ret {A} (a : A) : St A := fun w => (a, w).
Definition bind {A B} (m : St A) (k : A -> St B) : St B :=
  fun w => let (a, w') := m w in k a w'.

Definition pret {A} (a : A) : Py A := fun w => inr (a, w).
Definition pbind {A B} (m : Py A) (k : A -> Py B) : Py B :=
  fun w => match m w with
           | inl e => inl e
           | inr (a, w') => k a w'
           end.
Definition raise {A} (e : PyErr) : Py A := fun _ => inl e.
Definition lift {A} (m : St A) : Py A := fun w => inr (m w).

(** An outcome that does not touch the world. *)
Definition result {A} (r : PyErr + A) : Py A :=
  fun w => match r with
           | inl e => inl e
           | inr a => inr (a, w)
           end.

Declare Scope st_scope.
Declare Scope py_scope.
Delimit Scope st_scope with st.
Delimit Scope py_scope with py.

Notation "x <- m ;; k" := (bind m (fun x => k))
  (at level 100, m at next level, right associativity) : st_scope.
Notation "' pat <- m ;; k" := (bind m (fun x => match x with pat => k end))
  (at level 100, pat pattern, m at next level, right associativity) : st_scope.
Notation "x <- m ;; k" := (pbind m (fun x => k))
  (at level 100, m at next level, right associativity) : py_scope.
Notation "' pat <- m ;; k" := (pbind m (fun x => match x with pat => k end))
  (at level 100, pat pattern, m at next level, right associativity) : py_scope.

(** [for x in xs: acc = body(acc, x)] *)
Fixpoint for_each {A B} (body : B -> A -> St B) (xs : list A) (acc : B) : St B :=
  match xs with
  | [] => ret acc
  | x :: xs' => bind (body acc x) (for_each body xs')
  end.

Fixpoint pfor_each {A B} (body : B -> A -> Py B) (xs : list A) (acc : B) : Py B :=
  match xs with
  | [] => pret acc
  | x :: xs' => pbind (body acc x) (pfor_each body xs')
  end.

(** [range(n)] *)
Definition range (n : Z) : list nat := seq 0 (Z.to_nat n).

(* ------------------------------------------------------------------ *)
(** ** Python's [random] module *)

Module Random.

Definition word : St Z :=
  fun w => let (z, s) := draw (py_rng w) in
           (z, mkWorld s (np_rng w) (fk_rng w) (clock w)).

(** [random.random()]: a float in [0, 1) with 53 bits. *)
Definition random : St Q :=
  (z <- word ;; ret (Qmake (z mod 2 ^ 53) (2 ^ 53)))%st.

(** [_randbelow(n)] for [n > 0]. *)
Definition randbelow (n : Z) : St Z :=
  (z <- word ;; ret (z mod n))%st.

(** [random.randint(a, b)]: an integer in [a, b]. *)
Definition randint (a b : Z) : St Z :=
  (k <- randbelow (b - a + 1) ;; ret (a + k))%st.

(** [random.uniform(a, b)] is [a + (b - a) * random()]. *)
Definition uniform (a b : Q) : St Q :=
  (r <- random ;; ret (a + (b - a) * r)%Q)%st.

(** [random.choice([x, xs...])]: the sequence is given by its first
    element and the rest, all call sites pass a non-empty literal. *)
Definition choice {A} (x : A) (xs : list A) : St A :=
  (i <- randbelow (Z.of_nat (S (List.length xs))) ;;
   ret (nth (Z.to_nat i) (x :: xs) x))%st.

(** [bisect(cum_weights, x, 0, len - 1)] over the running sums of the
    weights: the first entry whose cumulative weight exceeds [x], the last
    entry when there is none. *)
Fixpoint bisect {A} (x : Q) (acc : Z) (first : A * Z) (rest : list (A * Z)) : A :=
  match rest with
  | [] => fst first
  | nxt :: rest' =>
      let acc' := acc + snd first in
      if Num.Qltb x (inject_Z acc') then fst first
      else bisect x acc' nxt rest'
  end.

Definition total_weight {A} (l : list (A * Z)) : Z :=
  fold_right (fun p s => snd p + s) 0 l.

(** [random.choices(population, weights=...)[0]], population and weights
    zipped. *)
Definition choices {A} (first : A * Z) (rest : list (A * Z)) : St A :=
  (r <- random ;;
   ret (bisect (r * inject_Z (total_weight (first :: rest)))%Q 0 first rest))%st.

End Random.

(* ------------------------------------------------------------------ *)
(** ** NumPy's global generator and pandas sampling *)

Module Numpy.

Definition word : St Z :=
  fun w => let (z, s) := draw (np_rng w) in
           (z, mkWorld (py_rng w) s (fk_rng w) (clock w)).

(** [np.random.normal(mu, sigma)]: the standard deviate is read off the
    stream in thousandths. *)
Definition normal (mu sigma : Q) : St Q :=
  (z <- word ;; ret (mu + sigma * Qmake z 1000)%Q)%st.

(** Remove and return the [i]-th element. *)
Fixpoint take_nth {A} (i : nat) (l : list A) {struct l} : option (A * list A) :=
  match l, i with
  | [], _ => None
  | x :: xs, O => Some (x, xs)
  | x :: xs, S i' =>
      match take_nth i' xs with
      | Some (y, rest) => Some (y, x :: rest)
      | None => None
      end
  end.

(** [df.sample(n)] with the global generator: [n] rows without
    replacement, in the order drawn.  No call site asks for more rows than
    the frame has. *)
Fixpoint sample_n {A} (n : nat) (l : list A) : St (list A) :=
  match n with
  | O => ret []
  | S n' =>
      match l with
      | [] => ret []
      | _ :: _ =>
          (z <- word ;;
           match take_nth (Z.to_nat (z mod Z.of_nat (List.length l))) l with
           | Some (x, rest) => (picked <- sample_n n' rest ;; ret (x :: picked))
           | None => ret []
           end)%st
      end
  end.

(** [df.sample(frac=p/q)]: [round(frac * len(df))] rows. *)
Definition sample_frac {A} (frac : Q) (l : list A) : St (list A) :=
  sample_n (Z.to_nat (Num.round_half_even
                        (frac * inject_Z (Z.of_nat (List.length l)))%Q)) l.

End Numpy.

(* ------------------------------------------------------------------ *)
(** ** The clock and Faker *)

Module Clock.

(** [datetime.now()] *)
Definition now : St Z :=
  fun w => let (t, s) := draw (clock w) in
           (t, mkWorld (py_rng w) (np_rng w) (fk_rng w) s).

(** [date.today()] *)
Definition today : St Z := (t <- now ;; ret (Date.date_of t))%st.

End Clock.

Module Faker.

Definition word : St Z :=
  fun w => let (z, s) := draw (fk_rng w) in
           (z, mkWorld (py_rng w) (np_rng w) s (clock w)).

(** Generated text (names, addresses, sentences) is kept as the token the
    provider drew. *)
Definition text : St Z := word.

(** A date between two dates, both ends included.  Faker refuses a range
    whose start lies after its end; the script only asks for ranges that
    end today and start at today minus five years or at an account creation
    date, itself drawn no later than the day it was drawn on, so the ranges
    are in order as long as the clock does not step back to an earlier day
    between two readings.  An inverted range is given its start here. *)
Definition date_between_dates (d1 d2 : Z) : St Z :=
  (z <- word ;; ret (d1 + z mod (Z.max 1 (d2 - d1 + 1))))%st.

(** [fake.date_between(start_date='-5y', end_date='today')]: Faker counts a
    year as 365.24 days, so ['-5y'] is a timedelta of -1826.2 days, which
    moves a date 1827 days back. *)
Definition date_between_5y_today : St Z :=
  (t <- Clock.today ;; date_between_dates (t - 1827) t)%st.

(** [fake.date_between(start_date=d, end_date='today')] *)
Definition date_between_today (d : Z) : St Z :=
  (t <- Clock.today ;; date_between_dates d t)%st.

(** [fake.date_of_birth(minimum_age=18, maximum_age=80)]: a date between
    today shifted 81 calendar years back and today shifted 18 calendar
    years back.  Faker's arithmetic on calendar years is not modelled: the
    date is kept as the token the provider drew after reading the clock, and
    nothing is stated about its range. *)
Definition date_of_birth_18_80 : St Z :=
  (_ <- Clock.today ;; word)%st.

End Faker.

(* ------------------------------------------------------------------ *)
(** ** Rows of the eight tables *)

Module Customer.
Record t : Type := mk {
  customer_id : string;
  first_name : Z;
  last_name : Z;
  email : Z;
  phone_number : Z;
  date_of_birth : Z;
  gender : string;
  address : Z;
  city : Z;
  state : Z;
  zip_code : Z;
  country : string;
  account_creation_date : Z;
  customer_segment : string;
  account_status : string;
  preferred_contact_method : string;
  credit_score : Z;
  annual_income : Z
}.
End Customer.

(** A capacity attribute of a plan: a number or the string ['Unlimited']. *)
Inductive Cap : Type := Num (n : Z) | Unlimited.

Module Plan.
(** A key missing from a plan's dict is [None] here ([NaN] in the frame). *)
Record t : Type := mk {
  plan_id : string;
  plan_name : string;
  service_type : string;
  monthly_fee : Q;
  data_gb : option Cap;
  minutes : option Cap;
  texts : option Cap;
  speed_mbps : option Cap;
  data_limit : option Cap;
  channels : option Cap;
  hd_channels : option Cap
}.
End Plan.

Module Service.
Record t : Type := mk {
  customer_id : string;
  service_id : string;
  plan_id : string;
  plan_name : string;
  service_type : string;
  monthly_fee : Q;
  service_start_date : Z;
  service_status : string;
  auto_pay : bool;
  contract_length : Z;
  early_termination_fee : Q
}.
End Service.

Module Usage.
(** The three shapes of a usage dict, one per service type. *)
Inductive t : Type :=
| Mobile (customer_id service_id usage_month : string)
         (data_used_gb : Q) (minutes_used texts_sent : Z) (overage_charges : Q)
| Internet (customer_id service_id usage_month : string)
           (data_used_gb peak_speed_mbps uptime_percentage : Q)
| TV (customer_id service_id usage_month : string)
     (hours_watched channels_watched : Z) (ppv_purchases : Q).

Definition customer_id (u : t) : string :=
  match u with
  | Mobile c _ _ _ _ _ _ | Internet c _ _ _ _ _ | TV c _ _ _ _ _ => c
  end.
Definition service_id (u : t) : string :=
  match u with
  | Mobile _ s _ _ _ _ _ | Internet _ s _ _ _ _ | TV _ s _ _ _ _ => s
  end.
Definition usage_month (u : t) : string :=
  match u with
  | Mobile _ _ m _ _ _ _ | Internet _ _ m _ _ _ | TV _ _ m _ _ _ => m
  end.
End Usage.

Module Billing.
Record t : Type := mk {
  customer_id : string;
  service_id : string;
  bill_date : Z;
  due_date : Z;
  amount_due : Q;
  amount_paid : Q;
  payment_date : option Z;
  payment_method : string;
  payment_status : string;
  late_fee : Q
}.
End Billing.

Module Ticket.
Record t : Type := mk {
  customer_id : string;
  ticket_id : string;
  creation_date : Z;
  issue_type : string;
  priority : string;
  status : string;
  resolution_time_hours : Q;
  satisfaction_rating : Z;
  channel : string;
  agent_id : string
}.
End Ticket.

Module Survey.
Record t : Type := mk {
  customer_id : string;
  survey_id : string;
  survey_date : Z;
  nps_score : Z;
  category : string;
  feedback : option Z
}.
End Survey.

Module Metric.
Record t : Type := mk {
  customer_id : string;
  total_services : nat;
  active_services : nat;
  monthly_revenue : Q;
  total_lifetime_value : Q;
  tenure_months : Z;
  support_tickets_count : nat;
  avg_resolution_time_hours : Q;
  avg_satisfaction_rating : Q;
  latest_nps_score : option Z;
  churn_risk_score : Z;
  upsell_score : Z;
  last_interaction_date : option Z
}.
End Metric.

Record Tables : Type := mkTables {
  customers : list Customer.t;
  plans : list Plan.t;
  services : list Service.t;
  usage : list Usage.t;
  billing : list Billing.t;
  support_tickets : list Ticket.t;
  nps_surveys : list Survey.t;
  customer_metrics : list Metric.t
}.

(* ------------------------------------------------------------------ *)
(** ** TelcoDataGenerator *)

Record TelcoDataGenerator : Type := mkGen { num_customers : Z }.

(** [__init__(self, num_customers=5000)] stores the count as given. *)
Definition init (n : option Z) : TelcoDataGenerator :=
  mkGen (match n with Some k => k | None => 5000 end).

Local Open Scope st_scope.

Definition new_customer (i : nat) : St Customer.t :=
  first_name <- Faker.text ;;
  last_name <- Faker.text ;;
  email <- Faker.text ;;
  phone_number <- Faker.text ;;
  date_of_birth <- Faker.date_of_birth_18_80 ;;
  gender <- Random.choice "Male" ["Female"; "Other"] ;;
  address <- Faker.text ;;
  city <- Faker.text ;;
  state <- Faker.text ;;
  zip_code <- Faker.text ;;
  account_creation_date <- Faker.date_between_5y_today ;;
  customer_segment <- Random.choice "Individual" ["Small Business"; "Enterprise"] ;;
  account_status <- Random.choices ("Active", 85) [("Suspended", 10); ("Cancelled", 5)] ;;
  preferred_contact_method <- Random.choice "Email" ["Phone"; "SMS"; "App"] ;;
  credit_score <- Random.randint 300 850 ;;
  annual_income <- Random.randint 25000 200000 ;;
  ret (Customer.mk ("CUST_" ++ Str.fmt_d0 6 (i + 1)) first_name last_name email
         phone_number date_of_birth gender address city state zip_code "USA"
         account_creation_date customer_segment account_status
         preferred_contact_method credit_score annual_income).

Definition generate_customer_demographics (self : TelcoDataGenerator)
  : St (list Customer.t) :=
  for_each (fun customers i => customer <- new_customer i ;;
                               ret (customers ++ [customer])%list)
           (range (num_customers self)) [].

Definition generate_service_plans : list Plan.t :=
  let U := Some Unlimited in
  let N := fun n => Some (Num n) in
  [ Plan.mk "PLAN_001" "Basic Mobile" "Mobile" 35.99 (N 5) (N 500) U None None None None;
    Plan.mk "PLAN_002" "Premium Mobile" "Mobile" 55.99 (N 25) U U None None None None;
    Plan.mk "PLAN_003" "Ultimate Mobile" "Mobile" 85.99 U U U None None None None;
    Plan.mk "PLAN_004" "Home Internet Basic" "Internet" 49.99 None None None (N 100) U None None;
    Plan.mk "PLAN_005" "Home Internet Pro" "Internet" 69.99 None None None (N 300) U None None;
    Plan.mk "PLAN_006" "Home Internet Gigabit" "Internet" 99.99 None None None (N 1000) U None None;
    Plan.mk "PLAN_007" "Basic TV" "TV" 39.99 None None None None None (N 100) (N 50);
    Plan.mk "PLAN_008" "Premium TV" "TV" 79.99 None None None None None (N 250) (N 150);
    Plan.mk "PLAN_009" "Business Mobile" "Mobile" 45.99 (N 20) U U None None None None;
    Plan.mk "PLAN_010" "Business Internet" "Internet" 129.99 None None None (N 500) U None None ].

(** [plans_df[mask(plans_df['plan_name'])]]: selecting the column of a frame
    built from an empty list raises. *)
Definition where_plan_name (plans_df : list Plan.t) (mask : string -> bool)
  : PyErr + list Plan.t :=
  match plans_df with
  | [] => inl (KeyError "plan_name")
  | _ :: _ => inr (filter (fun p => mask (Plan.plan_name p)) plans_df)
  end.

(** The segment-filtered candidate pool. *)
Definition available_plans (customer : Customer.t) (plans_df : list Plan.t)
  : PyErr + list Plan.t :=
  if (Customer.customer_segment customer =? "Enterprise")%string then
    where_plan_name plans_df
      (Str.contains_any ["Business"; "Premium"; "Ultimate"; "Pro"; "Gigabit"])
  else if (Customer.customer_segment customer =? "Small Business")%string then
    where_plan_name plans_df (fun name => negb (Str.contains "Basic" name))
  else inr plans_df.

Definition new_service (customer : Customer.t) (services : list Service.t)
  (plan : Plan.t) : St Service.t :=
  service_start <- Faker.date_between_today (Customer.account_creation_date customer) ;;
  service_status <- Random.choices ("Active", 85) [("Suspended", 8); ("Cancelled", 7)] ;;
  auto_pay <- Random.choice true [false] ;;
  contract_length <- Random.choice 12 [24; 0] ;;
  r <- Random.random ;;
  early_termination_fee <- (if Num.Qltb r 0.3 then Random.uniform 0 200 else ret 0%Q) ;;
  ret (Service.mk (Customer.customer_id customer)
         ("SVC_" ++ Str.fmt_d0 8 (List.length services + 1))
         (Plan.plan_id plan) (Plan.plan_name plan) (Plan.service_type plan)
         (Plan.monthly_fee plan) service_start service_status auto_pay
         contract_length early_termination_fee).

(** The body of the loop over customers. *)
Definition customer_services (plans_df : list Plan.t)
  (services : list Service.t) (customer : Customer.t) : Py (list Service.t) :=
  (num_services <- lift (Random.choices (1, 30) [(2, 40); (3, 20); (4, 10)]) ;;
   available <- result (available_plans customer plans_df) ;;
   selected_plans <- lift (Numpy.sample_n
                             (Z.to_nat (Num.py_minZ num_services
                                          (Z.of_nat (List.length available))))
                             available) ;;
   lift (for_each (fun services plan =>
                     (service <- new_service customer services plan ;;
                      ret (services ++ [service])%list)%st)
                  selected_plans services))%py.

Definition generate_customer_services (customers_df : list Customer.t)
  (plans_df : list Plan.t) : Py (list Service.t) :=
  pfor_each (customer_services plans_df) customers_df [].

(** The [if]/[elif]/[elif] chain on the service type: the usage dict built
    by the branch taken, [None] when no branch is taken. *)
Definition usage_dispatch (service : Service.t) (usage_date : Z)
  : St (option Usage.t) :=
  let customer_id := Service.customer_id service in
  let service_id := Service.service_id service in
  let usage_month := Date.strftime_Y_m usage_date in
  if (Service.service_type service =? "Mobile")%string then
    x <- Numpy.normal 15 8 ;;
    let data_used := Num.py_max 0 x in
    y <- Numpy.normal 800 400 ;;
    let minutes_used := Num.py_maxZ 0 (Num.py_int y) in
    z <- Numpy.normal 1500 800 ;;
    let texts_sent := Num.py_maxZ 0 (Num.py_int z) in
    ret (Some (Usage.Mobile customer_id service_id usage_month
                 (Num.py_round data_used 2) minutes_used texts_sent
                 (if Num.Qltb 25 data_used
                  then Num.py_max 0 ((data_used - 25) * 10)
                  else 0)%Q))
  else if (Service.service_type service =? "Internet")%string then
    x <- Numpy.normal 400 200 ;;
    let data_used := Num.py_max 0 x in
    s <- Numpy.normal 0.8 0.1 ;;
    u <- Numpy.normal 99.2 1.5 ;;
    ret (Some (Usage.Internet customer_id service_id usage_month
                 (Num.py_round data_used 2)
                 (s * Service.monthly_fee service * 10)%Q
                 (Num.py_max 95 u)))
  else if (Service.service_type service =? "TV")%string then
    h <- Numpy.normal 120 60 ;;
    c <- Numpy.normal 15 8 ;;
    p <- Random.choices (0, 70) [(1, 20); (2, 7); (3, 3)] ;;
    ret (Some (Usage.TV customer_id service_id usage_month
                 (Num.py_maxZ 0 (Num.py_int h))
                 (Num.py_maxZ 1 (Num.py_int c))
                 (inject_Z p * 4.99)%Q))
  else ret None.

(** One iteration of the loop over the twelve months.  The local variable
    [usage] keeps its value from one iteration to the next (and from one
    service to the next); it is unbound until a branch has assigned it. *)
Definition usage_month_step (service : Service.t)
  (st : list Usage.t * option Usage.t) (month_offset : nat)
  : Py (list Usage.t * option Usage.t) :=
  (now <- lift Clock.now ;;
   let usage_date := now - Date.timedelta_days (30 * Z.of_nat month_offset) in
   built <- lift (usage_dispatch service usage_date) ;;
   let usage := match built with Some u => Some u | None => snd st end in
   match usage with
   | Some u => pret ((fst st ++ [u])%list, usage)
   | None => raise (UnboundLocalError "usage")
   end)%py.

Definition usage_service_step (st : list Usage.t * option Usage.t)
  (service : Service.t) : Py (list Usage.t * option Usage.t) :=
  if (Service.service_status service =? "Active")%string
  then pfor_each (usage_month_step service) (range 12) st
  else pret st.

Definition generate_usage_data (services_df : list Service.t)
  : Py (list Usage.t) :=
  (st <- pfor_each usage_service_step services_df ([], None) ;;
   pret (fst st))%py.

Definition new_bill (service : Service.t) (month_offset : nat) : St Billing.t :=
  now <- Clock.now ;;
  let bill_date := now - Date.timedelta_days (30 * Z.of_nat month_offset) in
  let due_date := bill_date + Date.timedelta_days 15 in
  let base_amount := Service.monthly_fee service in
  let taxes := (base_amount * 0.08)%Q in
  fees <- Random.uniform 2 8 ;;
  let total_amount := (base_amount + taxes + fees)%Q in
  r <- Random.random ;;
  total_amount <- (if Num.Qltb r 0.15
                   then (extra <- Random.uniform 10 50 ;;
                         ret (total_amount + extra)%Q)
                   else ret total_amount) ;;
  payment_status <- Random.choices ("Paid", 85) [("Late", 10); ("Unpaid", 5)] ;;
  payment_date <-
    (if (payment_status =? "Paid")%string then
       d <- Random.randint (-5) 5 ;; ret (Some (due_date + Date.timedelta_days d))
     else if (payment_status =? "Late")%string then
       d <- Random.randint 1 15 ;; ret (Some (due_date + Date.timedelta_days d))
     else ret None) ;;
  payment_method <- Random.choice "Credit Card" ["Bank Transfer"; "Check"; "Auto Pay"] ;;
  ret (Billing.mk (Service.customer_id service) (Service.service_id service)
         bill_date due_date
         (Num.py_round total_amount 2)
         (if existsb (String.eqb payment_status) ["Paid"; "Late"]
          then Num.py_round total_amount 2 else 0%Q)
         payment_date payment_method payment_status
         (if (payment_status =? "Late")%string then 25.0 else 0.0)%Q).

Definition service_bills (billing_data : list Billing.t) (service : Service.t)
  : St (list Billing.t) :=
  for_each (fun billing_data month_offset =>
              billing <- new_bill service month_offset ;;
              ret (billing_data ++ [billing])%list)
           (range 12) billing_data.

Definition generate_billing_data (services_df : list Service.t)
  : St (list Billing.t) :=
  for_each service_bills services_df [].

(** [d[key]] for a dict literal whose keys include [key]. *)
Fixpoint lookup {A} (key : string) (first : string * A) (rest : list (string * A)) : A :=
  if (fst first =? key)%string then snd first
  else match rest with
       | [] => snd first
       | nxt :: rest' => lookup key nxt rest'
       end.

Definition new_ticket (customer : Customer.t) (tickets : list Ticket.t)
  : St Ticket.t :=
  ticket_date <- Faker.date_between_today (Customer.account_creation_date customer) ;;
  issue_type <- Random.choice "Billing"
                  ["Technical Support"; "Service Change"; "Complaint"; "Sales Inquiry"] ;;
  h1 <- Random.uniform 1 24 ;;
  h2 <- Random.uniform 2 72 ;;
  h3 <- Random.uniform 0.5 8 ;;
  h4 <- Random.uniform 4 48 ;;
  h5 <- Random.uniform 0.5 4 ;;
  let resolution_hours :=
    lookup issue_type ("Billing", h1)
      [("Technical Support", h2); ("Service Change", h3);
       ("Complaint", h4); ("Sales Inquiry", h5)] in
  priority <- Random.choices ("Low", 40) [("Medium", 35); ("High", 20); ("Critical", 5)] ;;
  status <- Random.choices ("Closed", 80) [("Open", 10); ("In Progress", 10)] ;;
  satisfaction_rating <- Random.choices (1, 5) [(2, 10); (3, 20); (4, 35); (5, 30)] ;;
  channel <- Random.choice "Phone" ["Email"; "Chat"; "In Store"; "App"] ;;
  agent <- Random.randint 1 50 ;;
  ret (Ticket.mk (Customer.customer_id customer)
         ("TKT_" ++ Str.fmt_d0 8 (List.length tickets + 1))
         ticket_date issue_type priority status resolution_hours
         satisfaction_rating channel
         ("AGT_" ++ Str.fmt_d0 3 (Z.to_nat agent))).

Definition customer_tickets (tickets : list Ticket.t) (customer : Customer.t)
  : St (list Ticket.t) :=
  num_tickets <- Random.choices (1, 50) [(2, 30); (3, 15); (4, 4); (5, 1)] ;;
  for_each (fun tickets _ => ticket <- new_ticket customer tickets ;;
                             ret (tickets ++ [ticket])%list)
           (range num_tickets) tickets.

Definition generate_support_tickets (customers_df : list Customer.t)
  : St (list Ticket.t) :=
  customers_with_tickets <- Numpy.sample_frac 0.4 customers_df ;;
  for_each customer_tickets customers_with_tickets [].

Definition nps_category (nps_score : Z) : string :=
  if 9 <=? nps_score then "Promoter"
  else if 7 <=? nps_score then "Passive"
  else "Detractor".

Definition new_survey (customer : Customer.t) (surveys : list Survey.t)
  : St Survey.t :=
  survey_date <- Faker.date_between_today (Customer.account_creation_date customer) ;;
  nps_score <- Random.choices (0, 3) [(1, 2); (2, 3); (3, 4); (4, 5); (5, 8);
                                       (6, 12); (7, 15); (8, 18); (9, 20); (10, 10)] ;;
  r <- Random.random ;;
  feedback <- (if Num.Qltb r 0.6
               then (_ <- Random.randint 10 30 ;; s <- Faker.text ;; ret (Some s))
               else ret None) ;;
  ret (Survey.mk (Customer.customer_id customer)
         ("NPS_" ++ Str.fmt_d0 8 (List.length surveys + 1))
         survey_date nps_score (nps_category nps_score) feedback).

Definition customer_surveys (surveys : list Survey.t) (customer : Customer.t)
  : St (list Survey.t) :=
  num_surveys <- Random.choices (1, 60) [(2, 30); (3, 10)] ;;
  for_each (fun surveys _ => survey <- new_survey customer surveys ;;
                             ret (surveys ++ [survey])%list)
           (range num_surveys) surveys.

Definition generate_nps_surveys (customers_df : list Customer.t)
  : St (list Survey.t) :=
  surveyed_customers <- Numpy.sample_frac 0.3 customers_df ;;
  for_each customer_surveys surveyed_customers [].

(* ------------------------------------------------------------------ *)
(** ** calculate_customer_metrics *)

(** [df[df['customer_id'] == customer_id]]: a frame built from an empty list
    has no column to select. *)
Definition where_customer {R} (df : list R) (customer_id_of : R -> string)
  (customer_id : string) : Py (list R) :=
  match df with
  | [] => raise (KeyError "customer_id")
  | _ :: _ => pret (filter (fun r => (customer_id_of r =? customer_id)%string) df)
  end.

(** [groupby(key)[val].sum()]: one entry per distinct key, keys ascending. *)
Fixpoint group_add (k : Z) (v : Q) (groups : list (Z * Q)) : list (Z * Q) :=
  match groups with
  | [] => [(k, v)]
  | (k', s) :: rest =>
      if k =? k' then (k', (s + v)%Q) :: rest
      else if k <? k' then (k, v) :: groups
      else (k', s) :: group_add k v rest
  end.

Definition groupby_sum {R} (key : R -> Z) (val : R -> Q) (rows : list R)
  : list (Z * Q) :=
  fold_left (fun groups r => group_add (key r) (val r) groups) rows [].

(** [s.mean() if len(s) > 0 else default] *)
Definition mean_or (default : Q) (s : list Q) : Q :=
  if (0 <? List.length s)%nat then Num.avg s else default.

(** [df.loc[df['survey_date'].idxmax()]]: the first row holding the largest
    date (the column is taken to compare as dates do). *)
Fixpoint idxmax (best : Survey.t) (rest : list Survey.t) : Survey.t :=
  match rest with
  | [] => best
  | s :: rest' =>
      idxmax (if Survey.survey_date best <? Survey.survey_date s then s else best) rest'
  end.

Definition latest (customer_nps : list Survey.t) : option Z :=
  match customer_nps with
  | [] => None
  | s :: rest => Some (Survey.nps_score (idxmax s rest))
  end.

(** Truth value of [latest_nps]: [None] and [0] are false. *)
Definition truthy (v : option Z) : bool :=
  match v with
  | None => false
  | Some n => negb (n =? 0)
  end.

(** [latest_nps and latest_nps <= bound] and its [>=] twin, as tests. *)
Definition nps_at_most (latest_nps : option Z) (bound : Z) : bool :=
  truthy latest_nps && match latest_nps with Some n => n <=? bound | None => false end.
Definition nps_at_least (latest_nps : option Z) (bound : Z) : bool :=
  truthy latest_nps && match latest_nps with Some n => bound <=? n | None => false end.

(** [x < bound] for a float that may be [NaN]: comparisons with [NaN] are
    false. *)
Definition nan_lt (x : option Q) (bound : Q) : bool :=
  match x with
  | Some v => Num.Qltb v bound
  | None => false
  end.

Definition max_date (first : Z) (rest : list Z) : Z := fold_left Z.max rest first.

Definition late_or_unpaid (customer_billing : list Billing.t) : nat :=
  List.length (filter (fun b => Str.contains_any ["Late"; "Unpaid"]
                                  (Billing.payment_status b)) customer_billing).

Definition churn_risk (tickets : nat) (avg_satisfaction : Q)
  (latest_nps : option Z) (late_bills : nat) : Z :=
  let risk_factors := 0 in
  let risk_factors := if (3 <? tickets)%nat then risk_factors + 20 else risk_factors in
  let risk_factors := if Num.Qltb avg_satisfaction 3 then risk_factors + 25 else risk_factors in
  let risk_factors := if nps_at_most latest_nps 6 then risk_factors + 30 else risk_factors in
  let risk_factors := if (2 <? late_bills)%nat then risk_factors + 25 else risk_factors in
  Num.py_minZ 100 risk_factors.

Definition upsell (active : nat) (monthly_revenue : option Q)
  (avg_satisfaction : Q) (latest_nps : option Z) : Z :=
  let upsell_score := 0 in
  let upsell_score := if (active <? 3)%nat then upsell_score + 30 else upsell_score in
  let upsell_score := if nan_lt monthly_revenue 100 then upsell_score + 20 else upsell_score in
  let upsell_score := if Qle_bool 4 avg_satisfaction then upsell_score + 25 else upsell_score in
  let upsell_score := if nps_at_least latest_nps 8 then upsell_score + 25 else upsell_score in
  upsell_score.

Local Open Scope py_scope.

(** The body of the loop over customers. *)
Definition customer_metric (services_df : list Service.t)
  (billing_df : list Billing.t) (tickets_df : list Ticket.t)
  (nps_df : list Survey.t) (customer : Customer.t) : Py Metric.t :=
  let customer_id := Customer.customer_id customer in
  customer_services <- where_customer services_df Service.customer_id customer_id ;;
  let active_services :=
    filter (fun s => (Service.service_status s =? "Active")%string) customer_services in
  customer_billing <- where_customer billing_df Billing.customer_id customer_id ;;
  let monthly_revenue :=
    Num.mean (map snd (groupby_sum Billing.bill_date Billing.amount_due customer_billing)) in
  let total_revenue := Num.Qsum (map Billing.amount_paid customer_billing) in
  customer_tickets <- where_customer tickets_df Ticket.customer_id customer_id ;;
  let avg_resolution_time :=
    mean_or 0 (map Ticket.resolution_time_hours customer_tickets) in
  let avg_satisfaction :=
    mean_or 5 (map (fun t => inject_Z (Ticket.satisfaction_rating t)) customer_tickets) in
  customer_nps <- where_customer nps_df Survey.customer_id customer_id ;;
  let latest_nps := latest customer_nps in
  let churn_risk :=
    churn_risk (List.length customer_tickets) avg_satisfaction latest_nps
      (late_or_unpaid customer_billing) in
  let upsell_score :=
    upsell (List.length active_services) monthly_revenue avg_satisfaction latest_nps in
  now <- lift Clock.now ;;
  pret (Metric.mk customer_id
          (List.length customer_services)
          (List.length active_services)
          (match monthly_revenue with Some m => Num.py_round m 2 | None => 0%Q end)
          (Num.py_round total_revenue 2)
          ((Date.date_of now - Customer.account_creation_date customer) / 30)
          (List.length customer_tickets)
          (Num.py_round avg_resolution_time 1)
          (Num.py_round avg_satisfaction 1)
          latest_nps
          churn_risk
          (Num.py_minZ 100 upsell_score)
          (match map Ticket.creation_date customer_tickets with
           | [] => None
           | d :: ds => Some (max_date d ds)
           end)).

Definition calculate_customer_metrics (customers_df : list Customer.t)
  (services_df : list Service.t) (billing_df : list Billing.t)
  (tickets_df : list Ticket.t) (nps_df : list Survey.t) : Py (list Metric.t) :=
  pfor_each (fun metrics customer =>
               customer_metric <- customer_metric services_df billing_df
                                    tickets_df nps_df customer ;;
               pret (metrics ++ [customer_metric])%list)
            customers_df [].

Definition generate_all_data (self : TelcoDataGenerator) : Py Tables :=
  customers_df <- lift (generate_customer_demographics self) ;;
  let plans_df := generate_service_plans in
  services_df <- generate_customer_services customers_df plans_df ;;
  usage_df <- generate_usage_data services_df ;;
  billing_df <- lift (generate_billing_data services_df) ;;
  tickets_df <- lift (generate_support_tickets customers_df) ;;
  nps_df <- lift (generate_nps_surveys customers_df) ;;
  metrics_df <- calculate_customer_metrics customers_df services_df billing_df
                  tickets_df nps_df ;;
  pret (mkTables customers_df plans_df services_df usage_df billing_df
          tickets_df nps_df metrics_df).

Local Close Scope py_scope.

(** The tables of a run, or the exception that ended it. *)
Definition run {A} (m : Py A) (w : World) : PyErr + A :=
  match m w with
  | inl e => inl e
  | inr (a, _) => inr a
  end.

(** A sample world: every stream is an affine sequence. *)
Definition affine (a b : Z) : Src := mkSrc (fun n => a * Z.of_nat n + b) 0.
Definition world0 (t0 : Z) : World :=
  mkWorld (affine 7919 13) (affine 104729 7) (affine 31 5)
          (mkSrc (fun n => t0 + Z.of_nat n) 0).

(* ------------------------------------------------------------------ *)
(** ** Vocabulary for the statements *)

(** What a computation returns satisfies [P], whatever the world. *)
Definition returns {A} (m : St A) (P : A -> Prop) : Prop :=
  forall w, P (fst (m w)).

(** A computation that may raise returns normally, with a value in [P]. *)
Definition succeeds {A} (m : Py A) (P : A -> Prop) : Prop :=
  forall w, exists a w', m w = inr (a, w') /\ P a.

(** Whenever it returns normally, its value is in [P]. *)
Definition ensures {A} (m : Py A) (P : A -> Prop) : Prop :=
  forall w a w', m w = inr (a, w') -> P a.

(** Number of rows of a frame whose key column holds [k]. *)
Definition rows_with {R} (key : R -> string) (k : string) (df : list R) : nat :=
  List.length (filter (fun r => (key r =? k)%string) df).

(** Two sources yield the same draws from now on. *)
Definition src_eq (s1 s2 : Src) : Prop :=
  pos s1 = pos s2 /\ forall n, tape s1 n = tape s2 n.

(** Same seeds and same clock readings. *)
Definition world_eq (w1 w2 : World) : Prop :=
  src_eq (py_rng w1) (py_rng w2) /\ src_eq (np_rng w1) (np_rng w2) /\
  src_eq (fk_rng w1) (fk_rng w2) /\ src_eq (clock w1) (clock w2).

Definition det {A} (m : St A) : Prop :=
  forall w1 w2, world_eq w1 w2 ->
    fst (m w1) = fst (m w2) /\ world_eq (snd (m w1)) (snd (m w2)).

Definition pdet {A} (m : Py A) : Prop :=
  forall w1 w2, world_eq w1 w2 ->
    match m w1, m w2 with
    | inr (a1, w1'), inr (a2, w2') => a1 = a2 /\ world_eq w1' w2'
    | inl e1, inl e2 => e1 = e2
    | _, _ => False
    end.

Definition service_types : list string := ["Mobile"; "Internet"; "TV"].

Definition is_active (s : Service.t) : bool :=
  (Service.service_status s =? "Active")%string.

(** The statuses a generated bill can carry, with what each entails. *)
Definition bill_ok (b : Billing.t) : Prop :=
  (Billing.payment_status b = "Paid" /\
   (exists d, -5 <= d <= 5 /\
      Billing.payment_date b = Some (Billing.due_date b + Date.timedelta_days d)) /\
   Billing.amount_paid b = Billing.amount_due b /\ Billing.late_fee b = 0.0%Q)
  \/
  (Billing.payment_status b = "Late" /\
   (exists d, 1 <= d <= 15 /\
      Billing.payment_date b = Some (Billing.due_date b + Date.timedelta_days d)) /\
   Billing.amount_paid b = Billing.amount_due b /\ Billing.late_fee b = 25.0%Q)
  \/
  (Billing.payment_status b = "Unpaid" /\
   Billing.payment_date b = None /\
   Billing.amount_paid b = 0%Q /\ Billing.late_fee b = 0.0%Q).

Definition bit (b : bool) : Z := if b then 1 else 0.

(** Identifiers as the loops format them: the counter is the number of rows
    already built. *)
Definition customer_ref (i : nat) : string := "CUST_" ++ Str.fmt_d0 6 (i + 1).
Definition service_ref (i : nat) : string := "SVC_" ++ Str.fmt_d0 8 (i + 1).

(** A subscription of customer [c] to plan [p]. *)
Definition svc_of (c : Customer.t) (p : Plan.t) (s : Service.t) : Prop :=
  Service.customer_id s = Customer.customer_id c /\
  Service.plan_id s = Plan.plan_id p /\
  Service.plan_name s = Plan.plan_name p /\
  Service.service_type s = Plan.service_type p /\
  Service.monthly_fee s = Plan.monthly_fee p.

(** Bounds on the subscriptions one customer receives, for counting rows:
    at most four, at most the size of the candidate pool, at least one
    unless the pool is empty, each to a plan of the pool.  (The exact
    number is the drawn count capped at the pool size.) *)
Definition cust_block (plans_df : list Plan.t) (c : Customer.t)
  (blk : list Service.t) : Prop :=
  exists available,
    available_plans c plans_df = inr available /\
    (List.length blk <= 4)%nat /\
    (List.length blk <= List.length available)%nat /\
    (available <> [] -> (1 <= List.length blk)%nat) /\
    Forall (fun s => exists p, In p available /\ svc_of c p s) blk.

(** The usage rows one subscription contributes: twelve when it is Active,
    none otherwise, all carrying its ids. *)
Definition usage_block (service : Service.t) (blk : list Usage.t) : Prop :=
  List.length blk = (if is_active service then 12 else 0)%nat /\
  Forall (fun u => Usage.service_id u = Service.service_id service /\
                   Usage.customer_id u = Service.customer_id service) blk.

(** The fields of a customer's metrics row, as functions of the customer's
    rows in the four source frames. *)
Definition metric_spec (services_df : list Service.t) (billing_df : list Billing.t)
  (tickets_df : list Ticket.t) (nps_df : list Survey.t)
  (c : Customer.t) (m : Metric.t) : Prop :=
  let cid := Customer.customer_id c in
  let own {R} (key : R -> string) := filter (fun r => (key r =? cid)%string) in
  let customer_services := own Service.customer_id services_df in
  let customer_billing := own Billing.customer_id billing_df in
  let customer_tickets := own Ticket.customer_id tickets_df in
  let customer_nps := own Survey.customer_id nps_df in
  let revenue :=
    Num.mean (map snd (groupby_sum Billing.bill_date Billing.amount_due customer_billing)) in
  let satisfaction :=
    mean_or 5 (map (fun t => inject_Z (Ticket.satisfaction_rating t)) customer_tickets) in
  Metric.customer_id m = cid /\
  Metric.support_tickets_count m = List.length customer_tickets /\
  Metric.monthly_revenue m
    = match revenue with Some r => Num.py_round r 2 | None => 0%Q end /\
  Metric.total_lifetime_value m
    = Num.py_round (Num.Qsum (map Billing.amount_paid customer_billing)) 2 /\
  Metric.avg_resolution_time_hours m
    = Num.py_round (mean_or 0 (map Ticket.resolution_time_hours customer_tickets)) 1 /\
  Metric.avg_satisfaction_rating m = Num.py_round satisfaction 1 /\
  Metric.latest_nps_score m = latest customer_nps /\
  Metric.churn_risk_score m
    = churn_risk (List.length customer_tickets) satisfaction (latest customer_nps)
        (late_or_unpaid customer_billing) /\
  Metric.upsell_score m
    = Num.py_minZ 100
        (upsell (List.length (filter is_active customer_services)) revenue
           satisfaction (latest customer_nps)).

(** Some frame the metrics loop selects a column of has no columns. *)
Definition some_frame_empty (services_df : list Service.t)
  (billing_df : list Billing.t) (tickets_df : list Ticket.t)
  (nps_df : list Survey.t) : Prop :=
  services_df = [] \/ billing_df = [] \/ tickets_df = [] \/ nps_df = [].

(** A bill that was paid, on time or late. *)
Definition settled (b : Billing.t) : bool :=
  existsb (String.eqb (Billing.payment_status b)) ["Paid"; "Late"].

(** The rows of a frame that belong to a customer. *)
Definition own {R} (customer_id_of : R -> string) (c : Customer.t) (df : list R)
  : list R :=
  filter (fun r => (customer_id_of r =? Customer.customer_id c)%string) df.

(** A small hand-built database: one customer whose only survey scored 0,
    with a paid bill, and a ticket that belongs to somebody else. *)
Module Sample.
Definition customer : Customer.t :=
  Customer.mk "CUST_000001" 1 2 3 4 7000 "Other" 5 6 7 8 "USA" 19000
    "Individual" "Active" "Email" 700 50000.
Definition service : Service.t :=
  Service.mk "CUST_000001" "SVC_00000001" "PLAN_001" "Basic Mobile" "Mobile"
    35.99 19100 "Active" true 12 0.
Definition bill : Billing.t :=
  Billing.mk "CUST_000001" "SVC_00000001" 0 (Date.timedelta_days 15) 41.5 41.5
    (Some (Date.timedelta_days 14)) "Check" "Paid" 0.0.
Definition other_ticket : Ticket.t :=
  Ticket.mk "CUST_000002" "TKT_00000001" 19200 "Billing" "Low" "Closed" 3.5 4
    "Chat" "AGT_007".
Definition survey (nps_score : Z) : Survey.t :=
  Survey.mk "CUST_000001" "NPS_00000001" 19300 nps_score (nps_category nps_score) None.
End Sample.

(** What every generated customer row satisfies. *)
Definition customer_fields (c : Customer.t) : Prop :=
  Customer.country c = "USA" /\
  In (Customer.gender c) ["Male"; "Female"; "Other"] /\
  In (Customer.customer_segment c) ["Individual"; "Small Business"; "Enterprise"] /\
  In (Customer.account_status c) ["Active"; "Suspended"; "Cancelled"] /\
  In (Customer.preferred_contact_method c) ["Email"; "Phone"; "SMS"; "App"] /\
  300 <= Customer.credit_score c <= 850 /\
  25000 <= Customer.annual_income c <= 200000.

(** What every generated subscription row satisfies besides its plan. *)
Definition service_fields (s : Service.t) : Prop :=
  In (Service.service_status s) ["Active"; "Suspended"; "Cancelled"] /\
  In (Service.contract_length s) [12; 24; 0] /\
  (0 <= Service.early_termination_fee s /\ Service.early_termination_fee s <= 200)%Q.

Definition svc_row (c : Customer.t) (p : Plan.t) (s : Service.t) : Prop :=
  svc_of c p s /\ service_fields s /\
  Customer.account_creation_date c <= Service.service_start_date s.

(** One customer's subscriptions, row by row against the plans sampled for
    them. *)
Definition cust_rows (plans_df : list Plan.t) (c : Customer.t)
  (blk : list Service.t) : Prop :=
  exists available selected,
    available_plans c plans_df = inr available /\
    incl selected available /\
    (NoDup (map Plan.plan_id available) -> NoDup (map Plan.plan_id selected)) /\
    Forall2 (svc_row c) selected blk.

Definition enterprise_words : list string :=
  ["Business"; "Premium"; "Ultimate"; "Pro"; "Gigabit"].

(** The service type a usage row was built for, and the bounds its fields
    keep. *)
Definition usage_kind (u : Usage.t) : string :=
  match u with
  | Usage.Mobile _ _ _ _ _ _ _ => "Mobile"
  | Usage.Internet _ _ _ _ _ _ => "Internet"
  | Usage.TV _ _ _ _ _ _ => "TV"
  end.

Definition usage_values (u : Usage.t) : Prop :=
  match u with
  | Usage.Mobile _ _ _ data_used_gb minutes_used texts_sent overage_charges =>
      (0 <= data_used_gb)%Q /\ 0 <= minutes_used /\ 0 <= texts_sent /\
      (0 <= overage_charges)%Q
  | Usage.Internet _ _ _ data_used_gb _ uptime_percentage =>
      (0 <= data_used_gb)%Q /\ (95 <= uptime_percentage)%Q
  | Usage.TV _ _ _ hours_watched channels_watched ppv_purchases =>
      0 <= hours_watched /\ 1 <= channels_watched /\
      exists k, 0 <= k <= 3 /\ ppv_purchases = (inject_Z k * 4.99)%Q
  end.

Definition usage_row (service : Service.t) (u : Usage.t) : Prop :=
  Usage.service_id u = Service.service_id service /\
  Usage.customer_id u = Service.customer_id service /\
  usage_kind u = Service.service_type service /\
  usage_values u.

(** What a bill of subscription [s] carries besides its dates and status:
    the owner, a payment method of the list, and an amount due that is the
    fee plus 8% tax plus between 2 and 58 of fees and overage, rounded to
    cents. *)
Definition bill_amounts (s : Service.t) (b : Billing.t) : Prop :=
  Billing.customer_id b = Service.customer_id s /\
  In (Billing.payment_method b) ["Credit Card"; "Bank Transfer"; "Check"; "Auto Pay"] /\
  (Service.monthly_fee s + Service.monthly_fee s * 0.08 + 2 - (1 # 200)
   <= Billing.amount_due b)%Q /\
  (Billing.amount_due b
   <= Service.monthly_fee s + Service.monthly_fee s * 0.08 + 58 + (1 # 200))%Q.

Definition ticket_ref (i : nat) : string := "TKT_" ++ Str.fmt_d0 8 (i + 1).
Definition survey_ref (i : nat) : string := "NPS_" ++ Str.fmt_d0 8 (i + 1).

(** The range each issue type draws its resolution time from. *)
Definition resolution_ranges : list (string * (Q * Q)) :=
  [("Billing", (1, 24)); ("Technical Support", (2, 72));
   ("Service Change", (0.5, 8)); ("Complaint", (4, 48));
   ("Sales Inquiry", (0.5, 4))]%Q.

(** What every generated ticket satisfies, whoever it belongs to. *)
Definition ticket_fields (t : Ticket.t) : Prop :=
  (exists lo hi, In (Ticket.issue_type t, (lo, hi)) resolution_ranges /\
     (lo <= Ticket.resolution_time_hours t /\ Ticket.resolution_time_hours t <= hi)%Q) /\
  In (Ticket.priority t) ["Low"; "Medium"; "High"; "Critical"] /\
  In (Ticket.status t) ["Closed"; "Open"; "In Progress"] /\
  1 <= Ticket.satisfaction_rating t <= 5 /\
  In (Ticket.channel t) ["Phone"; "Email"; "Chat"; "In Store"; "App"] /\
  exists k, 1 <= k <= 50 /\ Ticket.agent_id t = "AGT_" ++ Str.fmt_d0 3 (Z.to_nat k).

(** A ticket of customer [c]. *)
Definition ticket_row (c : Customer.t) (t : Ticket.t) : Prop :=
  Ticket.customer_id t = Customer.customer_id c /\
  Customer.account_creation_date c <= Ticket.creation_date t /\
  ticket_fields t.

(** What every generated survey satisfies: the score is between 0 and 10
    and the category follows from it. *)
Definition survey_fields (s : Survey.t) : Prop :=
  0 <= Survey.nps_score s <= 10 /\
  (Survey.category s = "Promoter" <-> 9 <= Survey.nps_score s) /\
  (Survey.category s = "Passive" <-> 7 <= Survey.nps_score s <= 8) /\
  (Survey.category s = "Detractor" <-> Survey.nps_score s <= 6).

(** A survey of customer [c]. *)
Definition survey_row (c : Customer.t) (s : Survey.t) : Prop :=
  Survey.customer_id s = Customer.customer_id c /\
  Customer.account_creation_date c <= Survey.survey_date s /\
  survey_fields s.

(** [round(frac * len(df))], the number of rows [df.sample(frac=frac)]
    takes. *)
Definition sample_size {A} (frac : Q) (df : list A) : nat :=
  Z.to_nat (Num.round_half_even (frac * inject_Z (Z.of_nat (List.length df)))%Q).

(** The customers that have at least one row in a frame. *)
Definition customers_in {R} (customer_id_of : R -> string) (df : list R)
  (customers_df : list Customer.t) : list Customer.t :=
  filter (fun c => (0 <? rows_with customer_id_of (Customer.customer_id c) df)%nat)
         customers_df.

(** The [i]-th reading of the clock from world [w] on. *)
Definition reading (w : World) (i : nat) : Z := tape (clock w) (pos (clock w) + i).

(** The counts and the last interaction date of a customer's metrics row. *)
Definition metric_counts (services_df : list Service.t) (tickets_df : list Ticket.t)
  (c : Customer.t) (m : Metric.t) : Prop :=
  let customer_services := own Service.customer_id c services_df in
  let customer_tickets := own Ticket.customer_id c tickets_df in
  Metric.customer_id m = Customer.customer_id c /\
  Metric.total_services m = List.length customer_services /\
  Metric.active_services m = List.length (filter is_active customer_services) /\
  (Metric.active_services m <= Metric.total_services m)%nat /\
  Metric.support_tickets_count m = List.length customer_tickets /\
  match Metric.last_interaction_date m with
  | None => customer_tickets = []
  | Some d => In d (map Ticket.creation_date customer_tickets) /\
              Forall (fun t => Ticket.creation_date t <= d) customer_tickets
  end.

(** Strictly increasing keys, as [groupby] orders its groups. *)
Fixpoint ascending (l : list Z) : Prop :=
  match l with
  | [] => True
  | x :: rest => Forall (fun y => x < y) rest /\ ascending rest
  end.

(** Every reference from one table of a run to another resolves. *)
Definition linked (t : Tables) : Prop :=
  let customer_ids := map Customer.customer_id (customers t) in
  Forall (fun s => In (Service.customer_id s) customer_ids /\
                   In (Service.plan_id s) (map Plan.plan_id (plans t)))
         (services t) /\
  Forall (fun u => exists s, In s (services t) /\ is_active s = true /\
                     Usage.service_id u = Service.service_id s /\
                     Usage.customer_id u = Service.customer_id s)
         (usage t) /\
  Forall (fun b => exists s, In s (services t) /\
                     Billing.service_id b = Service.service_id s /\
                     Billing.customer_id b = Service.customer_id s)
         (billing t) /\
  Forall (fun x => In (Ticket.customer_id x) customer_ids) (support_tickets t) /\
  Forall (fun x => In (Survey.customer_id x) customer_ids) (nps_surveys t) /\
  map Metric.customer_id (customer_metrics t) = customer_ids.

(** The row counts of the eight tables of a run for [n] customers. *)
Definition sized (n : nat) (t : Tables) : Prop :=
  let with_tickets := sample_size 0.4 (customers t) in
  let surveyed := sample_size 0.3 (customers t) in
  List.length (customers t) = n /\
  List.length (plans t) = 10%nat /\
  (n <= List.length (services t) <= 4 * n)%nat /\
  List.length (usage t) = (12 * List.length (filter is_active (services t)))%nat /\
  List.length (billing t) = (12 * List.length (services t))%nat /\
  (with_tickets <= List.length (support_tickets t) <= 5 * with_tickets)%nat /\
  (surveyed <= List.length (nps_surveys t) <= 3 * surveyed)%nat /\
  List.length (customer_metrics t) = n.

(** The ranges the fields of a metrics row keep on generated data. *)
Definition metric_ranges (m : Metric.t) : Prop :=
  (1 <= Metric.total_services m <= 4)%nat /\
  (Metric.active_services m <= Metric.total_services m)%nat /\
  (Metric.support_tickets_count m <= 5)%nat /\
  (0 < Metric.monthly_revenue m)%Q /\
  (0 <= Metric.total_lifetime_value m)%Q /\
  (0 <= Metric.avg_resolution_time_hours m /\
   Metric.avg_resolution_time_hours m <= 72)%Q /\
  (1 <= Metric.avg_satisfaction_rating m /\ Metric.avg_satisfaction_rating m <= 5)%Q /\
  match Metric.latest_nps_score m with
  | Some n => 0 <= n <= 10
  | None => True
  end.



(** The plans a customer of a segment may be given: for an Enterprise
    customer those whose name contains Business, Premium, Ultimate, Pro or
    Gigabit, for a Small Business customer those whose name does not
    contain Basic, for anybody else every plan. *)
Definition segment_pool (c : Customer.t) (plans_df : list Plan.t) : list Plan.t :=
  filter (fun p =>
            let name := Plan.plan_name p in
            if (Customer.customer_segment c =? "Enterprise")%string
            then Str.contains_any enterprise_words name
            else if (Customer.customer_segment c =? "Small Business")%string
                 then negb (Str.contains "Basic" name)
                 else true)
         plans_df.

(** The clock never reads a day before the account of one of the customers
    was created: the condition under which Faker accepts the range of every
    [date_between(start_date=account_creation_date, end_date='today')]. *)
Definition accounts_in_the_past (customers_df : list Customer.t) (w : World) : Prop :=
  forall c i, In c customers_df ->
    Customer.account_creation_date c <= Date.date_of (reading w i).

(** The streams of [random] and of numpy agree in two worlds; nothing is
    asked of their clocks, nor of what Faker draws: the date ranges Faker is
    asked for move with the clock, and whether its generator stays in step
    then is a matter of the library. *)
Definition seeds_eq (w1 w2 : World) : Prop :=
  src_eq (py_rng w1) (py_rng w2) /\ src_eq (np_rng w1) (np_rng w2).

(** The rows with every column blanked that holds a date, is computed from
    dates, or holds a text drawn by Faker: what is left of a table is what
    neither the clock nor Faker can reach.  A payment date, a feedback text
    and a last interaction date keep whether they are present. *)
Module Stable.

Definition blank (d : option Z) : option Z := option_map (fun _ => 0) d.

Definition of_customer (c : Customer.t) : Customer.t :=
  Customer.mk (Customer.customer_id c) 0 0 0 0
    0 (Customer.gender c) 0 0 0 0 (Customer.country c)
    0 (Customer.customer_segment c) (Customer.account_status c)
    (Customer.preferred_contact_method c) (Customer.credit_score c)
    (Customer.annual_income c).

Definition of_service (s : Service.t) : Service.t :=
  Service.mk (Service.customer_id s) (Service.service_id s) (Service.plan_id s)
    (Service.plan_name s) (Service.service_type s) (Service.monthly_fee s)
    0 (Service.service_status s) (Service.auto_pay s)
    (Service.contract_length s) (Service.early_termination_fee s).

Definition of_usage (u : Usage.t) : Usage.t :=
  match u with
  | Usage.Mobile c s _ d m t o => Usage.Mobile c s "" d m t o
  | Usage.Internet c s _ d p u => Usage.Internet c s "" d p u
  | Usage.TV c s _ h n p => Usage.TV c s "" h n p
  end.

Definition of_bill (b : Billing.t) : Billing.t :=
  Billing.mk (Billing.customer_id b) (Billing.service_id b) 0 0
    (Billing.amount_due b) (Billing.amount_paid b)
    (blank (Billing.payment_date b)) (Billing.payment_method b)
    (Billing.payment_status b) (Billing.late_fee b).

Definition of_ticket (t : Ticket.t) : Ticket.t :=
  Ticket.mk (Ticket.customer_id t) (Ticket.ticket_id t) 0 (Ticket.issue_type t)
    (Ticket.priority t) (Ticket.status t) (Ticket.resolution_time_hours t)
    (Ticket.satisfaction_rating t) (Ticket.channel t) (Ticket.agent_id t).

Definition of_survey (s : Survey.t) : Survey.t :=
  Survey.mk (Survey.customer_id s) (Survey.survey_id s) 0 (Survey.nps_score s)
    (Survey.category s) (blank (Survey.feedback s)).

(** Of a metrics row the clock reaches the tenure and the last interaction
    date, and through the dates of bills and surveys the monthly revenue
    (a mean over bill dates), the latest NPS score (the survey with the
    largest date) and the two scores computed from them. *)
Definition of_metric (m : Metric.t) : Metric.t :=
  Metric.mk (Metric.customer_id m) (Metric.total_services m)
    (Metric.active_services m) 0 (Metric.total_lifetime_value m) 0
    (Metric.support_tickets_count m) (Metric.avg_resolution_time_hours m)
    (Metric.avg_satisfaction_rating m) None 0 0
    (blank (Metric.last_interaction_date m)).

Definition of_tables (t : Tables) : Tables :=
  mkTables (map of_customer (customers t)) (plans t)
    (map of_service (services t)) (map of_usage (usage t))
    (map of_bill (billing t)) (map of_ticket (support_tickets t))
    (map of_survey (nps_surveys t)) (map of_metric (customer_metrics t)).

End Stable.

(** Two values with the same image under [f]. *)
Definition alike {A B} (f : A -> B) (x y : A) : Prop := f x = f y.

Definition alike_option {A B} (f : A -> B) (x y : option A) : Prop :=
  option_map f x = option_map f y.

(** Two computations that, run with the same seeds, return related values
    and leave the two seeded streams in step, whatever their clocks read
    and whatever Faker draws. *)
Definition sim {A B} (R : A -> B -> Prop) (m1 : St A) (m2 : St B) : Prop :=
  forall w1 w2, seeds_eq w1 w2 ->
    R (fst (m1 w1)) (fst (m2 w2)) /\ seeds_eq (snd (m1 w1)) (snd (m2 w2)).

Definition psim {A B} (R : A -> B -> Prop) (m1 : Py A) (m2 : Py B) : Prop :=
  forall w1 w2, seeds_eq w1 w2 ->
    match m1 w1, m2 w2 with
    | inr (a1, w1'), inr (a2, w2') => R a1 a2 /\ seeds_eq w1' w2'
    | inl e1, inl e2 => e1 = e2
    | _, _ => False
    end.

(** What two runs with the same seeds have in common. *)
Definition same_stable_part (r1 r2 : PyErr + Tables) : Prop :=
  match r1, r2 with
  | inr t1, inr t2 => Stable.of_tables t1 = Stable.of_tables t2
  | inl e1, inl e2 => e1 = e2
  | _, _ => False
  end.

(** The state of the usage loop on two sides: the rows built so far and the
    row the local variable [usage] holds. *)
Definition usage_state_alike (st1 st2 : list Usage.t * option Usage.t) : Prop :=
  Forall2 (alike Stable.of_usage) (fst st1) (fst st2) /\
  alike_option Stable.of_usage (snd st1) (snd st2).

(* ------------------------------------------------------------------ *)
(** ** Strings *)

Lemma uint_of_zeros k s :
  NilEmpty.uint_of_string (Str.zeros k ++ s) =
  option_map (Nat.iter k Decimal.D0) (NilEmpty.uint_of_string s).
Proof.
  induction k as [|k IH]; simpl.
  - now destruct (NilEmpty.uint_of_string s).
  - rewrite IH. now destruct (NilEmpty.uint_of_string s).
Qed.

Lemma of_uint_zeros k d : Nat.of_uint (Nat.iter k Decimal.D0 d) = Nat.of_uint d.
Proof.
  induction k as [|k IH]; simpl; [reflexivity|].
  rewrite <- IH. reflexivity.
Qed.

Lemma parse_fmt_d0 w n : Str.parse_nat (Str.fmt_d0 w n) = Some n.
Proof.
  unfold Str.parse_nat, Str.fmt_d0.
  rewrite uint_of_zeros, NilEmpty.usu. simpl.
  now rewrite of_uint_zeros, DecimalNat.Unsigned.of_to.
Qed.

Lemma fmt_d0_inj w n m : Str.fmt_d0 w n = Str.fmt_d0 w m -> n = m.
Proof.
  intros H. apply (f_equal Str.parse_nat) in H.
  rewrite !parse_fmt_d0 in H. congruence.
Qed.

Lemma prefixed_id_inj (p : string) w :
  forall n m, p ++ Str.fmt_d0 w (n + 1) = p ++ Str.fmt_d0 w (m + 1) -> n = m.
Proof.
  induction p as [|c p IH]; simpl; intros n m H.
  - apply fmt_d0_inj in H. lia.
  - injection H as H. now apply IH.
Qed.

Lemma ids_NoDup (p : string) w k :
  NoDup (map (fun i => p ++ Str.fmt_d0 w (i + 1)) (seq 0 k)).
Proof.
  apply Injective_map_NoDup; [|apply seq_NoDup].
  intros n m. apply prefixed_id_inj.
Qed.

(* ------------------------------------------------------------------ *)
(** ** Rules for computations that cannot raise *)

Lemma returns_ret {A} (a : A) (P : A -> Prop) : P a -> returns (ret a) P.
Proof. intros H w. exact H. Qed.

Lemma returns_bind {A B} (m : St A) (k : A -> St B) (P : A -> Prop) (Q : B -> Prop) :
  returns m P -> (forall a, P a -> returns (k a) Q) -> returns (bind m k) Q.
Proof.
  intros Hm Hk w. unfold bind. specialize (Hm w).
  destruct (m w) as [a w']. apply Hk, Hm.
Qed.

Lemma returns_bind_any {A B} (m : St A) (k : A -> St B) (Q : B -> Prop) :
  (forall a, returns (k a) Q) -> returns (bind m k) Q.
Proof.
  intros Hk. apply returns_bind with (P := fun _ => True); [easy|auto].
Qed.

Lemma returns_weaken {A} (m : St A) (P Q : A -> Prop) :
  returns m P -> (forall a, P a -> Q a) -> returns m Q.
Proof. intros H HPQ w. apply HPQ, H. Qed.

(** Loop invariant. *)
Lemma for_each_invariant {A B} (body : B -> A -> St B) (I : B -> Prop) xs :
  (forall acc x, In x xs -> I acc -> returns (body acc x) I) ->
  forall acc, I acc -> returns (for_each body xs acc) I.
Proof.
  induction xs as [|x xs IH]; intros Hbody acc Hacc; simpl.
  - now apply returns_ret.
  - apply returns_bind with (P := I).
    + apply Hbody; [now left|exact Hacc].
    + intros acc' Hacc'. apply IH; [|exact Hacc'].
      intros acc'' y Hy. apply Hbody. now right.
Qed.

(** A loop whose body appends a block of rows to the accumulator appends the
    blocks of its iterations in order. *)
Lemma for_each_blocks {A R} (body : list R -> A -> St (list R))
  (Q : A -> list R -> Prop) xs :
  (forall acc x, In x xs ->
     returns (body acc x) (fun out => exists blk, out = acc ++ blk /\ Q x blk)%list) ->
  forall acc,
    returns (for_each body xs acc)
      (fun out => exists blks, out = acc ++ List.concat blks /\ Forall2 Q xs blks)%list.
Proof.
  induction xs as [|x xs IH]; intros Hbody acc; simpl.
  - apply returns_ret. exists []. simpl. now rewrite app_nil_r.
  - eapply returns_bind.
    + apply Hbody. now left.
    + intros out (blk & -> & HQ). eapply returns_weaken.
      * apply IH. intros acc' y Hy. apply Hbody. now right.
      * intros out' (blks & -> & HF). exists (blk :: blks). split.
        -- simpl. now rewrite app_assoc.
        -- now constructor.
Qed.

(* ------------------------------------------------------------------ *)
(** ** Rules for computations that may raise *)

Lemma succeeds_pret {A} (a : A) (P : A -> Prop) : P a -> succeeds (pret a) P.
Proof. intros H w. exists a, w. auto. Qed.

Lemma succeeds_lift {A} (m : St A) (P : A -> Prop) :
  returns m P -> succeeds (lift m) P.
Proof.
  intros H w. unfold lift. specialize (H w). destruct (m w) as [a w']. eauto.
Qed.

Lemma succeeds_result {A} (r : PyErr + A) (a : A) (P : A -> Prop) :
  r = inr a -> P a -> succeeds (result r) P.
Proof. intros -> H w. exists a, w. auto. Qed.

Lemma succeeds_pbind {A B} (m : Py A) (k : A -> Py B) (P : A -> Prop)
  (Q : B -> Prop) :
  succeeds m P -> (forall a, P a -> succeeds (k a) Q) -> succeeds (pbind m k) Q.
Proof.
  intros Hm Hk w. unfold pbind. destruct (Hm w) as (a & w' & -> & Ha).
  now apply Hk.
Qed.

Lemma succeeds_weaken {A} (m : Py A) (P Q : A -> Prop) :
  succeeds m P -> (forall a, P a -> Q a) -> succeeds m Q.
Proof.
  intros H HPQ w. destruct (H w) as (a & w' & E & Ha). exists a, w'. auto.
Qed.

Lemma succeeds_ensures {A} (m : Py A) (P : A -> Prop) :
  succeeds m P -> ensures m P.
Proof.
  intros H w a w' E. destruct (H w) as (a0 & w0 & E0 & Ha). congruence.
Qed.

Lemma ensures_pret {A} (a : A) (P : A -> Prop) : P a -> ensures (pret a) P.
Proof. intros H w a' w' [= <- _]. exact H. Qed.

Lemma ensures_lift {A} (m : St A) (P : A -> Prop) :
  returns m P -> ensures (lift m) P.
Proof. intros H. apply succeeds_ensures. now apply succeeds_lift. Qed.

Lemma ensures_pbind {A B} (m : Py A) (k : A -> Py B) (P : A -> Prop)
  (Q : B -> Prop) :
  ensures m P -> (forall a, P a -> ensures (k a) Q) -> ensures (pbind m k) Q.
Proof.
  intros Hm Hk w b w'. unfold pbind.
  destruct (m w) as [e|[a w1]] eqn:E; [discriminate|].
  intros Hb. exact (Hk a (Hm _ _ _ E) _ _ _ Hb).
Qed.

Lemma ensures_pbind_any {A B} (m : Py A) (k : A -> Py B) (Q : B -> Prop) :
  (forall a, ensures (k a) Q) -> ensures (pbind m k) Q.
Proof.
  intros Hk. apply ensures_pbind with (P := fun _ => True); [easy|auto].
Qed.

Lemma pfor_each_invariant {A B} (body : B -> A -> Py B) (I : B -> Prop) xs :
  (forall acc x, In x xs -> I acc -> ensures (body acc x) I) ->
  forall acc, I acc -> ensures (pfor_each body xs acc) I.
Proof.
  induction xs as [|x xs IH]; intros Hbody acc Hacc; simpl.
  - now apply ensures_pret.
  - apply ensures_pbind with (P := I).
    + apply Hbody; [now left|exact Hacc].
    + intros acc' Hacc'. apply IH; [|exact Hacc'].
      intros acc'' y Hy. apply Hbody. now right.
Qed.

Lemma pfor_each_appends {A R} (body : list R -> A -> Py (list R))
  (Q : A -> list R -> Prop) xs :
  (forall acc x, In x xs ->
     succeeds (body acc x) (fun out => exists blk, out = acc ++ blk /\ Q x blk)%list) ->
  forall acc,
    succeeds (pfor_each body xs acc)
      (fun out => exists blks, out = acc ++ List.concat blks /\ Forall2 Q xs blks)%list.
Proof.
  induction xs as [|x xs IH]; intros Hbody acc; simpl.
  - apply succeeds_pret. exists []. simpl. now rewrite app_nil_r.
  - eapply succeeds_pbind.
    + apply Hbody. now left.
    + intros out (blk & -> & HQ). eapply succeeds_weaken.
      * apply IH. intros acc' y Hy. apply Hbody. now right.
      * intros out' (blks & -> & HF). exists (blk :: blks). split.
        -- simpl. now rewrite app_assoc.
        -- now constructor.
Qed.

(* ------------------------------------------------------------------ *)
(** ** Ranges of the random primitives *)

Lemma bisect_in {A} (x : Q) acc (first : A * Z) rest :
  In (Random.bisect x acc first rest) (map fst (first :: rest)).
Proof.
  revert acc first. induction rest as [|nxt rest IH]; intros acc first; simpl.
  - now left.
  - destruct (Num.Qltb x (inject_Z (acc + snd first))); [now left|].
    right. apply IH.
Qed.

Lemma choices_in {A} (first : A * Z) rest :
  returns (Random.choices first rest) (fun a => In a (map fst (first :: rest))).
Proof. intros w. unfold Random.choices, Random.random, bind, ret. simpl. apply bisect_in. Qed.

Lemma randint_range a b :
  a <= b -> returns (Random.randint a b) (fun k => a <= k <= b).
Proof.
  intros Hab w. unfold Random.randint, Random.randbelow, bind, ret. simpl.
  pose proof (Z.mod_pos_bound (tape (py_rng w) (pos (py_rng w))) (b - a + 1)).
  lia.
Qed.

Lemma choice_in {A} (x : A) xs :
  returns (Random.choice x xs) (fun a => In a (x :: xs)).
Proof.
  intros w. unfold Random.choice, Random.randbelow, bind, ret.
  cbn [fst Random.word draw].
  match goal with
  | |- In (nth ?i _ _) _ =>
      destruct (nth_in_or_default i (x :: xs) x) as [H|H]; [exact H|]
  end.
  rewrite H. now left.
Qed.

Lemma take_nth_some {A} i (l : list A) :
  (i < List.length l)%nat -> exists x rest, Numpy.take_nth i l = Some (x, rest).
Proof.
  revert i. induction l as [|y l IH]; intros i Hi; simpl in *; [lia|].
  destruct i as [|i]; simpl; [eauto|].
  destruct (IH i ltac:(lia)) as (x & rest & ->). eauto.
Qed.

Lemma take_nth_spec {A} i (l : list A) x rest :
  Numpy.take_nth i l = Some (x, rest) ->
  In x l /\ incl rest l /\ List.length l = S (List.length rest).
Proof.
  revert i x rest. induction l as [|y l IH]; intros i x rest; simpl; [discriminate|].
  destruct i as [|i]; simpl.
  - intros [= -> ->]. repeat split; [now left|apply incl_tl, incl_refl].
  - destruct (Numpy.take_nth i l) as [[z r]|] eqn:E; [|discriminate].
    intros [= -> <-]. destruct (IH _ _ _ E) as (Hin & Hincl & Hlen).
    repeat split.
    + now right.
    + intros a [->|Ha]; [now left|right; now apply Hincl].
    + simpl. now rewrite Hlen.
Qed.

(** [sample(n)] returns [min n (len df)] rows, each a row of the frame. *)
Lemma sample_n_spec {A} n (l : list A) :
  returns (Numpy.sample_n n l)
    (fun picked => List.length picked = Nat.min n (List.length l) /\ incl picked l).
Proof.
  revert l. induction n as [|n IH]; intros l; simpl.
  - apply returns_ret. split; [reflexivity|easy].
  - destruct l as [|y l].
    + apply returns_ret. split; [reflexivity|easy].
    + apply returns_bind_any. intros z.
      set (i := Z.to_nat _).
      assert (Hi : (i < List.length (y :: l))%nat).
      { subst i. pose proof (Z.mod_pos_bound z (Z.of_nat (List.length (y :: l)))).
        simpl List.length in *. lia. }
      destruct (take_nth_some i (y :: l) Hi) as (x & rest & E).
      rewrite E. destruct (take_nth_spec _ _ _ _ E) as (Hin & Hincl & Hlen).
      eapply returns_bind; [apply IH|].
      intros picked [Hl Hp]. apply returns_ret. split.
      * simpl in *. rewrite Hl. lia.
      * intros a [<-|Ha]; [exact Hin|]. apply Hincl, Hp, Ha.
Qed.

(* ------------------------------------------------------------------ *)
(** ** Frames assembled from per-key blocks *)

Section Blocks.
Context {A R : Type} (key : R -> string) (keyx : A -> string).

Lemma rows_with_app k (a b : list R) :
  rows_with key k (a ++ b) = (rows_with key k a + rows_with key k b)%nat.
Proof. unfold rows_with. now rewrite filter_app, length_app. Qed.

Lemma rows_with_all k (blk : list R) :
  Forall (fun r => key r = k) blk -> rows_with key k blk = List.length blk.
Proof.
  unfold rows_with. induction 1 as [|r blk Hr _ IH]; simpl; [reflexivity|].
  rewrite Hr, String.eqb_refl. simpl. now rewrite IH.
Qed.

Lemma rows_with_none k k' (blk : list R) :
  k <> k' -> Forall (fun r => key r = k') blk -> rows_with key k blk = 0%nat.
Proof.
  unfold rows_with. intros Hk. induction 1 as [|r blk Hr _ IH]; simpl; [reflexivity|].
  rewrite Hr. destruct (String.eqb_spec k' k) as [E|_]; [congruence|exact IH].
Qed.

Lemma rows_with_absent k xs (blks : list (list R)) :
  Forall2 (fun x blk => Forall (fun r => key r = keyx x) blk) xs blks ->
  ~ In k (map keyx xs) -> rows_with key k (List.concat blks) = 0%nat.
Proof.
  induction 1 as [|x blk xs blks Hx _ IH]; simpl; intros Hk; [reflexivity|].
  rewrite rows_with_app, IH by tauto.
  rewrite (rows_with_none k (keyx x)); [reflexivity| |exact Hx].
  intros ->. tauto.
Qed.

(** With distinct keys, the rows of a key are exactly its block. *)
Lemma rows_with_block xs (blks : list (list R)) :
  Forall2 (fun x blk => Forall (fun r => key r = keyx x) blk) xs blks ->
  NoDup (map keyx xs) ->
  forall pre,
    Forall (fun r => ~ In (key r) (map keyx xs)) pre ->
    Forall2 (fun x blk => rows_with key (keyx x) (pre ++ List.concat blks) = List.length blk)
            xs blks.
Proof.
  induction 1 as [|x blk xs blks Hx HF IH]; simpl; intros Hnd pre Hpre;
    [constructor|].
  inversion Hnd as [|? ? Hnotin Hnd']; subst. constructor.
  - rewrite !rows_with_app, (rows_with_all _ _ Hx),
      (rows_with_absent _ _ _ HF Hnotin).
    assert (rows_with key (keyx x) pre = 0%nat) as ->; [|lia].
    unfold rows_with. clear -Hpre. induction Hpre as [|r pre Hr _ IH']; simpl;
      [reflexivity|].
    destruct (String.eqb_spec (key r) (keyx x)) as [E|_]; [|exact IH'].
    exfalso. apply Hr. left. now symmetry.
  - specialize (IH Hnd' (pre ++ blk)%list).
    rewrite <- app_assoc in IH. apply IH.
    apply Forall_app. split.
    + eapply Forall_impl; [|exact Hpre]. simpl. tauto.
    + eapply Forall_impl; [|exact Hx]. simpl. intros r -> Hin. tauto.
Qed.

Lemma concat_length_bounds (lo hi : nat) xs (blks : list (list R)) :
  Forall2 (fun (_ : A) blk => (lo <= List.length blk <= hi)%nat) xs blks ->
  (lo * List.length xs <= List.length (List.concat blks) <= hi * List.length xs)%nat.
Proof.
  induction 1 as [|x blk xs blks Hx _ IH]; simpl; [lia|].
  rewrite length_app. lia.
Qed.

Lemma concat_Forall (P : R -> Prop) xs (blks : list (list R)) :
  Forall2 (fun (_ : A) blk => Forall P blk) xs blks -> Forall P (List.concat blks).
Proof.
  induction 1 as [|x blk xs blks Hx _ IH]; simpl; [constructor|].
  apply Forall_app. now split.
Qed.

Lemma concat_singletons (f : A -> string) xs (blks : list (list R)) :
  Forall2 (fun x blk => exists r, blk = [r] /\ key r = f x) xs blks ->
  map key (List.concat blks) = map f xs.
Proof.
  induction 1 as [|x blk xs blks (r & -> & Hr) _ IH]; simpl; [reflexivity|].
  now rewrite Hr, IH.
Qed.

(** The key column of the assembled frame, block by block. *)
Lemma concat_keys (n : A -> nat) xs (blks : list (list R)) :
  Forall2 (fun x blk => List.length blk = n x /\ Forall (fun r => key r = keyx x) blk)
          xs blks ->
  map key (List.concat blks) = flat_map (fun x => repeat (keyx x) (n x)) xs.
Proof.
  induction 1 as [|x blk xs blks [Hn Hx] _ IH]; simpl; [reflexivity|].
  rewrite map_app, IH. f_equal. rewrite <- Hn. clear -Hx.
  induction Hx as [|r blk Hr _ IH]; simpl; [reflexivity|]. now rewrite Hr, IH.
Qed.

End Blocks.

Lemma Forall2_impl {A B} (P Q : A -> B -> Prop) xs ys :
  (forall x y, P x y -> Q x y) -> Forall2 P xs ys -> Forall2 Q xs ys.
Proof. intros H. induction 1; constructor; auto. Qed.

Lemma Forall2_conj {A B} (P Q : A -> B -> Prop) xs ys :
  Forall2 P xs ys -> Forall2 Q xs ys -> Forall2 (fun x y => P x y /\ Q x y) xs ys.
Proof.
  induction 1; intros HQ; inversion HQ; subst; constructor; auto.
Qed.

Lemma Forall2_left {A B} (P : A -> Prop) xs (ys : list B) :
  Forall2 (fun x _ => P x) xs ys -> Forall P xs.
Proof. induction 1; constructor; auto. Qed.

(** The rows of one key, with distinct keys, are exactly its block. *)
Lemma filter_absent {A R} (key : R -> string) (keyx : A -> string) k xs
  (blks : list (list R)) :
  Forall2 (fun x blk => Forall (fun r => key r = keyx x) blk) xs blks ->
  ~ In k (map keyx xs) ->
  filter (fun r => (key r =? k)%string) (List.concat blks) = [].
Proof.
  induction 1 as [|x blk xs blks Hx _ IH]; simpl; intros Hk; [reflexivity|].
  rewrite filter_app, IH by tauto. rewrite app_nil_r.
  clear -Hx Hk. induction Hx as [|r blk Hr _ IH]; simpl; [reflexivity|].
  rewrite Hr. destruct (String.eqb_spec (keyx x) k) as [E|_]; [|exact IH].
  exfalso. apply Hk. now left.
Qed.

Lemma filter_all {R} (key : R -> string) k (blk : list R) :
  Forall (fun r => key r = k) blk ->
  filter (fun r => (key r =? k)%string) blk = blk.
Proof.
  induction 1 as [|r blk Hr _ IH]; simpl; [reflexivity|].
  now rewrite Hr, String.eqb_refl, IH.
Qed.

Lemma filter_none {R} (key : R -> string) k (pre : list R) :
  Forall (fun r => key r <> k) pre ->
  filter (fun r => (key r =? k)%string) pre = [].
Proof.
  induction 1 as [|r pre Hr _ IH]; simpl; [reflexivity|].
  destruct (String.eqb_spec (key r) k); [contradiction|exact IH].
Qed.

Lemma filter_block_after {A R} (key : R -> string) (keyx : A -> string) xs
  (blks : list (list R)) :
  Forall2 (fun x blk => Forall (fun r => key r = keyx x) blk) xs blks ->
  NoDup (map keyx xs) ->
  forall pre,
    Forall (fun r => ~ In (key r) (map keyx xs)) pre ->
    Forall2 (fun x blk =>
               filter (fun r => (key r =? keyx x)%string) (pre ++ List.concat blks) = blk)
            xs blks.
Proof.
  induction 1 as [|x blk xs blks Hx HF IH]; simpl; intros Hnd pre Hpre;
    [constructor|].
  inversion Hnd as [|? ? Hnotin Hnd']; subst. constructor.
  - rewrite !filter_app, (filter_absent key keyx _ _ _ HF Hnotin), app_nil_r,
      (filter_all _ _ _ Hx), filter_none; [reflexivity|].
    eapply Forall_impl; [|exact Hpre]. cbv beta. intros r Hr E. apply Hr. now left.
  - specialize (IH Hnd' (pre ++ blk)%list).
    rewrite <- app_assoc in IH. apply IH.
    apply Forall_app. split.
    + eapply Forall_impl; [|exact Hpre]. simpl. tauto.
    + eapply Forall_impl; [|exact Hx]. simpl. intros r -> Hin. tauto.
Qed.

Lemma filter_block {A R} (key : R -> string) (keyx : A -> string) xs
  (blks : list (list R)) :
  Forall2 (fun x blk => Forall (fun r => key r = keyx x) blk) xs blks ->
  NoDup (map keyx xs) ->
  Forall2 (fun x blk =>
             filter (fun r => (key r =? keyx x)%string) (List.concat blks) = blk)
          xs blks.
Proof.
  intros HF Hnd. exact (filter_block_after key keyx xs blks HF Hnd [] (Forall_nil _)).
Qed.

(* ------------------------------------------------------------------ *)
(** ** Customers and subscriptions *)

Lemma new_customer_id i :
  returns (new_customer i) (fun c => Customer.customer_id c = customer_ref i).
Proof.
  unfold new_customer. repeat (apply returns_bind_any; intros ?).
  now apply returns_ret.
Qed.

Lemma customers_ids self :
  returns (generate_customer_demographics self)
    (fun customers =>
       map Customer.customer_id customers =
       map customer_ref (range (num_customers self))).
Proof.
  unfold generate_customer_demographics. eapply returns_weaken.
  - apply for_each_blocks
      with (Q := fun i blk => exists c, blk = [c] /\ Customer.customer_id c = customer_ref i).
    intros acc i _. eapply returns_bind; [apply new_customer_id|].
    intros c Hc. apply returns_ret. eauto.
  - simpl. intros out (blks & -> & HF).
    now apply concat_singletons with (key := Customer.customer_id) in HF.
Qed.

Lemma customers_count self :
  returns (generate_customer_demographics self)
    (fun customers => List.length customers = Z.to_nat (num_customers self)).
Proof.
  eapply returns_weaken; [apply customers_ids|]. simpl. intros cs H.
  apply (f_equal (@List.length _)) in H. unfold range in H.
  now rewrite !length_map, length_seq in H.
Qed.

Lemma customers_NoDup self :
  returns (generate_customer_demographics self)
    (fun customers => NoDup (map Customer.customer_id customers)).
Proof.
  eapply returns_weaken; [apply customers_ids|]. simpl. intros cs ->.
  apply ids_NoDup.
Qed.

Lemma new_service_spec c services p :
  returns (new_service c services p)
    (fun s => svc_of c p s /\
              Service.service_id s = service_ref (List.length services)).
Proof.
  unfold new_service. repeat (apply returns_bind_any; intros ?).
  apply returns_ret. unfold svc_of. simpl. auto 10.
Qed.

Lemma choices_1_4 :
  returns (Random.choices (1, 30) [(2, 40); (3, 20); (4, 10)]) (fun n => 1 <= n <= 4).
Proof.
  eapply returns_weaken; [apply choices_in|]. simpl. intros n H.
  repeat (destruct H as [<-|H]; [lia|]). contradiction.
Qed.

Lemma available_plans_columns c plans_df :
  plans_df <> [] -> exists available, available_plans c plans_df = inr available.
Proof.
  intros Hne. unfold available_plans, where_plan_name.
  destruct plans_df as [|p ps]; [contradiction|].
  destruct (_ =? _)%string; [eauto|]. destruct (_ =? _)%string; eauto.
Qed.

Lemma where_plan_name_incl plans_df mask available :
  where_plan_name plans_df mask = inr available -> incl available plans_df.
Proof.
  unfold where_plan_name. destruct plans_df as [|p ps] eqn:E; [discriminate|].
  rewrite <- E. intros [= <-]. apply incl_filter.
Qed.

Lemma available_plans_incl c plans_df available :
  available_plans c plans_df = inr available -> incl available plans_df.
Proof.
  unfold available_plans.
  destruct (_ =? _)%string; [apply where_plan_name_incl|].
  destruct (_ =? _)%string; [apply where_plan_name_incl|].
  intros [= <-]. apply incl_refl.
Qed.

(** Every pool drawn from the catalog holds at least four plans, so the
    cap at the pool size never bites. *)
Lemma catalog_pool_size c available :
  available_plans c generate_service_plans = inr available ->
  (4 <= List.length available)%nat.
Proof.
  unfold available_plans.
  destruct (Customer.customer_segment c =? "Enterprise")%string;
    [intros [= <-]; vm_compute; lia|].
  destruct (Customer.customer_segment c =? "Small Business")%string;
    intros [= <-]; vm_compute; lia.
Qed.

Lemma customer_services_block plans_df services c :
  plans_df <> [] ->
  succeeds (customer_services plans_df services c)
    (fun out => exists blk, out = (services ++ blk)%list /\ cust_block plans_df c blk).
Proof.
  intros Hne. unfold customer_services.
  eapply succeeds_pbind; [apply succeeds_lift, choices_1_4|]. intros n Hn.
  destruct (available_plans_columns c plans_df Hne) as (available & Hav).
  eapply succeeds_pbind;
    [apply (succeeds_result _ available (fun a => a = available) Hav eq_refl)|].
  intros ? ->.
  eapply succeeds_pbind; [apply succeeds_lift, sample_n_spec|].
  intros selected [Hlen Hincl]. apply succeeds_lift.
  eapply returns_weaken.
  - apply for_each_blocks
      with (Q := fun p blk => exists s, blk = [s] /\
                   In p available /\ svc_of c p s).
    intros acc p Hp. eapply returns_bind; [apply new_service_spec|].
    intros s [Hs _]. apply returns_ret. exists [s]. split; [reflexivity|].
    exists s. auto.
  - cbv beta. intros out (blks & -> & HF). exists (List.concat blks).
    split; [reflexivity|]. exists available. split; [exact Hav|].
    assert (Hblk : List.length (List.concat blks) = List.length selected).
    { clear -HF. induction HF as [|p blk ps blks (s & -> & _) _ IH]; simpl; auto. }
    rewrite Hblk, Hlen. unfold Num.py_minZ. cbv beta in Hn.
    split; [|split; [|split]].
    + destruct (Z.ltb_spec (Z.of_nat (List.length available)) n); lia.
    + destruct (Z.ltb_spec (Z.of_nat (List.length available)) n); lia.
    + intros Hpool.
      assert ((1 <= List.length available)%nat)
        by (destruct available; [contradiction|simpl; lia]).
      destruct (Z.ltb_spec (Z.of_nat (List.length available)) n); lia.
    + apply concat_Forall with (xs := selected).
      eapply Forall2_impl; [|exact HF]. cbv beta.
      intros p blk (s & -> & Hin & Hs). constructor; [eauto|constructor].
Qed.

Lemma services_blocks customers_df plans_df :
  plans_df <> [] ->
  succeeds (generate_customer_services customers_df plans_df)
    (fun services => exists blks,
       services = List.concat blks /\ Forall2 (cust_block plans_df) customers_df blks).
Proof.
  intros Hne. unfold generate_customer_services. eapply succeeds_weaken.
  - apply pfor_each_appends with (Q := cust_block plans_df).
    intros acc c _. now apply customer_services_block.
  - cbv beta. intros out (blks & -> & HF). exists blks.
    split; [reflexivity|exact HF].
Qed.

(** Subscription ids number the rows of the frame from 1. *)
Lemma services_ids customers_df plans_df :
  ensures (generate_customer_services customers_df plans_df)
    (fun services =>
       map Service.service_id services = map service_ref (seq 0 (List.length services))).
Proof.
  unfold generate_customer_services.
  apply pfor_each_invariant; [|reflexivity].
  intros acc c _ Hacc. unfold customer_services.
  do 3 (apply ensures_pbind_any; intros ?). apply ensures_lift.
  apply for_each_invariant; [|exact Hacc].
  intros acc' p _ Hacc'.
  eapply returns_bind; [apply new_service_spec|]. intros s [_ Hs].
  apply returns_ret.
  rewrite length_app, map_app, seq_app, map_app, Hacc'. simpl. now rewrite Hs.
Qed.

Lemma services_NoDup customers_df plans_df :
  ensures (generate_customer_services customers_df plans_df)
    (fun services => NoDup (map Service.service_id services)).
Proof.
  intros w services w' E. rewrite (services_ids _ _ _ _ _ E). apply ids_NoDup.
Qed.

Lemma catalog_columns : generate_service_plans <> [].
Proof. discriminate. Qed.

Lemma catalog_types p :
  In p generate_service_plans -> In (Plan.service_type p) service_types.
Proof.
  intros H. repeat (destruct H as [<-|H]; [vm_compute; tauto|]). contradiction.
Qed.

Lemma catalog_fees p :
  In p generate_service_plans -> (0 < Plan.monthly_fee p)%Q.
Proof.
  intros H. repeat (destruct H as [<-|H]; [reflexivity|]). contradiction.
Qed.

Lemma cust_block_size c blk :
  cust_block generate_service_plans c blk -> (1 <= List.length blk <= 4)%nat.
Proof.
  intros (available & Hav & H4 & _ & H1 & _).
  pose proof (catalog_pool_size c available Hav) as Hpool.
  split; [|exact H4]. apply H1. intros ->. simpl in Hpool. lia.
Qed.

Lemma cust_block_owner plans_df c blk :
  cust_block plans_df c blk ->
  Forall (fun s => Service.customer_id s = Customer.customer_id c) blk.
Proof.
  intros (available & _ & _ & _ & _ & H). eapply Forall_impl; [|exact H]. cbv beta.
  intros s (p & _ & Hs & _). exact Hs.
Qed.

Lemma cust_block_plan plans_df c blk :
  cust_block plans_df c blk ->
  Forall (fun s => exists p, In p plans_df /\ svc_of c p s) blk.
Proof.
  intros (available & Hav & _ & _ & _ & H). eapply Forall_impl; [|exact H]. cbv beta.
  intros s (p & Hp & Hs). exists p. split; [|exact Hs].
  now apply (available_plans_incl c plans_df available Hav).
Qed.

(** What the subscriptions built from the catalog have in common. *)
Lemma catalog_services customers_df :
  succeeds (generate_customer_services customers_df generate_service_plans)
    (fun services =>
       (exists blks, services = List.concat blks /\
          Forall2 (cust_block generate_service_plans) customers_df blks /\
          Forall2 (fun (_ : Customer.t) blk => (1 <= List.length blk <= 4)%nat)
                  customers_df blks) /\
       NoDup (map Service.service_id services) /\
       Forall (fun s => exists p, In p generate_service_plans /\
                 Service.plan_id s = Plan.plan_id p /\
                 Service.service_type s = Plan.service_type p /\
                 Service.monthly_fee s = Plan.monthly_fee p) services /\
       (customers_df <> [] -> services <> [])).
Proof.
  intros w.
  destruct (services_blocks customers_df generate_service_plans catalog_columns w)
    as (services & w' & E & blks & -> & HF).
  exists (List.concat blks), w'. split; [exact E|].
  assert (Hsize : Forall2 (fun (_ : Customer.t) blk =>
                             (1 <= List.length blk <= 4)%nat) customers_df blks).
  { eapply Forall2_impl; [|exact HF]. intros c blk. apply cust_block_size. }
  split; [eauto|]. split; [exact (services_NoDup _ _ _ _ _ E)|]. split.
  - apply concat_Forall with (xs := customers_df).
    eapply Forall2_impl; [|exact HF]. intros c blk Hb.
    eapply Forall_impl; [|exact (cust_block_plan _ _ _ Hb)]. cbv beta.
    intros s (p & Hp & _ & Hid & _ & Hty & Hfee). eauto 10.
  - intros Hne Hnil.
    pose proof (concat_length_bounds 1 4 _ _ Hsize) as Hb. rewrite Hnil in Hb.
    destruct customers_df; [congruence|simpl in Hb; lia].
Qed.

(* ------------------------------------------------------------------ *)
(** ** Billing *)

Lemma payment_date_offset lo hi due :
  lo <= hi ->
  returns (bind (Random.randint lo hi)
                (fun d => ret (Some (due + Date.timedelta_days d))))
    (fun paid => exists d, lo <= d <= hi /\ paid = Some (due + Date.timedelta_days d)).
Proof.
  intros H. eapply returns_bind; [apply randint_range, H|].
  intros d Hd. apply returns_ret. exists d. split; [exact Hd|reflexivity].
Qed.

Lemma new_bill_spec service month_offset :
  returns (new_bill service month_offset)
    (fun b => bill_ok b /\
              Billing.service_id b = Service.service_id service /\
              Billing.customer_id b = Service.customer_id service).
Proof.
  unfold new_bill.
  do 4 (apply returns_bind_any; intros ?).
  eapply returns_bind; [apply choices_in|]. intros status Hst.
  cbn [map fst] in Hst. destruct Hst as [<-|[<-|[<-|[]]]];
    cbn [String.eqb Ascii.eqb Bool.eqb existsb orb].
  - eapply returns_bind; [apply payment_date_offset; lia|].
    intros paid (d & Hd & ->).
    apply returns_bind_any; intros ?. apply returns_ret.
    split; [|split; reflexivity]. left. cbn. eauto 10.
  - eapply returns_bind; [apply payment_date_offset; lia|].
    intros paid (d & Hd & ->).
    apply returns_bind_any; intros ?. apply returns_ret.
    split; [|split; reflexivity]. right; left. cbn. eauto 10.
  - eapply returns_bind;
      [apply (returns_ret None (fun paid => paid = None)); reflexivity|].
    intros paid ->.
    apply returns_bind_any; intros ?. apply returns_ret.
    split; [|split; reflexivity]. right; right. cbn. auto.
Qed.

Lemma service_bills_block acc service :
  returns (service_bills acc service)
    (fun out => exists blk, out = (acc ++ blk)%list /\
       List.length blk = 12%nat /\
       Forall (fun b => bill_ok b /\
                        Billing.service_id b = Service.service_id service /\
                        Billing.customer_id b = Service.customer_id service) blk).
Proof.
  unfold service_bills. eapply returns_weaken.
  - apply for_each_blocks
      with (Q := fun (_ : nat) blk => exists b, blk = [b] /\ bill_ok b /\
                   Billing.service_id b = Service.service_id service /\
                   Billing.customer_id b = Service.customer_id service).
    intros acc' k _. eapply returns_bind; [apply new_bill_spec|].
    intros b Hb. cbv beta in Hb. apply returns_ret.
    exists [b]. split; [reflexivity|]. exists b. tauto.
  - cbv beta. intros out (blks & -> & HF). exists (List.concat blks).
    split; [reflexivity|]. split.
    + change 12%nat with (List.length (range 12)).
      clear -HF. induction HF as [|k blk ks blks (b & -> & _) _ IH]; simpl; auto.
    + apply concat_Forall with (xs := range 12).
      eapply Forall2_impl; [|exact HF]. cbv beta.
      intros k blk (b & -> & Hb). constructor; [exact Hb|constructor].
Qed.

Lemma billing_blocks services_df :
  returns (generate_billing_data services_df)
    (fun billing => exists blks, billing = List.concat blks /\
       Forall2 (fun service blk =>
                  List.length blk = 12%nat /\
                  Forall (fun b => bill_ok b /\
                            Billing.service_id b = Service.service_id service /\
                            Billing.customer_id b = Service.customer_id service) blk)
               services_df blks).
Proof.
  unfold generate_billing_data. eapply returns_weaken.
  - apply for_each_blocks. intros acc s _. apply service_bills_block.
  - cbv beta. intros out (blks & -> & HF). exists blks.
    split; [reflexivity|exact HF].
Qed.

Lemma billing_all_ok services_df :
  returns (generate_billing_data services_df) (Forall bill_ok).
Proof.
  eapply returns_weaken; [apply billing_blocks|]. cbv beta.
  intros billing (blks & -> & HF). apply concat_Forall with (xs := services_df).
  eapply Forall2_impl; [|exact HF]. cbv beta. intros s blk [_ H].
  eapply Forall_impl; [|exact H]. cbv beta. tauto.
Qed.

(** C6: in every generated billing row a Paid bill is paid within five days
    of the due date on either side, a Late bill one to fifteen days after
    it, an Unpaid bill has no payment date, and the late fee is 25.0 exactly
    for Late bills and 0.0 otherwise. *)
Theorem billing_payment_rules (services_df : list Service.t) (w : World) :
  Forall (fun b =>
    let due := Billing.due_date b in
    In (Billing.payment_status b) ["Paid"; "Late"; "Unpaid"] /\
    (Billing.payment_status b = "Paid" ->
       exists paid, Billing.payment_date b = Some paid /\
         due - Date.timedelta_days 5 <= paid <= due + Date.timedelta_days 5) /\
    (Billing.payment_status b = "Late" ->
       exists paid, Billing.payment_date b = Some paid /\
         due < paid /\
         due + Date.timedelta_days 1 <= paid <= due + Date.timedelta_days 15) /\
    (Billing.payment_status b = "Unpaid" -> Billing.payment_date b = None) /\
    (Billing.late_fee b == 25.0 <-> Billing.payment_status b = "Late")%Q /\
    (Billing.payment_status b <> "Late" -> Billing.late_fee b == 0.0)%Q)
  (fst (generate_billing_data services_df w)).
Proof.
  eapply Forall_impl; [|apply billing_all_ok]. cbv beta zeta.
  intros b [(Hs & (d & Hd & Hp) & _ & Hf)|[(Hs & (d & Hd & Hp) & _ & Hf)|(Hs & Hp & _ & Hf)]];
    unfold Date.timedelta_days, Date.day_us in *;
    rewrite Hs, Hf, Hp; (split; [simpl; tauto|]);
    repeat split; try discriminate; try congruence; try reflexivity;
    try (intros _; eexists; split; [reflexivity|lia]);
    try (intros _; eexists; split; [reflexivity|split; lia]).
Qed.

(* ------------------------------------------------------------------ *)
(** ** Usage *)

Lemma pfor_each_blocks {A R S} (body : S -> A -> Py S) (proj : S -> list R)
  (Q : A -> list R -> Prop) xs :
  (forall st x w, In x xs ->
     exists st' w' blk, body st x w = inr (st', w') /\
                        proj st' = (proj st ++ blk)%list /\ Q x blk) ->
  forall st w,
    exists st' w' blks, pfor_each body xs st w = inr (st', w') /\
                        proj st' = (proj st ++ List.concat blks)%list /\
                        Forall2 Q xs blks.
Proof.
  induction xs as [|x xs IH]; intros Hbody st w; simpl.
  - exists st, w, []. simpl. rewrite app_nil_r. repeat split. constructor.
  - unfold pbind.
    destruct (Hbody st x w (or_introl eq_refl)) as (st1 & w1 & blk & -> & Hp & HQ).
    destruct (IH (fun st x w H => Hbody st x w (or_intror H)) st1 w1)
      as (st2 & w2 & blks & -> & Hp2 & HF).
    exists st2, w2, (blk :: blks). repeat split.
    + rewrite Hp2, Hp. simpl. now rewrite app_assoc.
    + now constructor.
Qed.

Lemma usage_dispatch_fresh service usage_date :
  In (Service.service_type service) service_types ->
  returns (usage_dispatch service usage_date)
    (fun built => exists u, built = Some u /\
       Usage.service_id u = Service.service_id service /\
       Usage.customer_id u = Service.customer_id service /\
       Usage.usage_month u = Date.strftime_Y_m usage_date).
Proof.
  unfold service_types, usage_dispatch.
  intros [H|[H|[H|[]]]]; rewrite <- H;
    cbn [String.eqb Ascii.eqb Bool.eqb];
    repeat (apply returns_bind_any; intros ?);
    apply returns_ret; eexists; repeat split.
Qed.

(** One month of an Active subscription of a known type appends exactly the
    row built in that iteration, whatever [usage] held before. *)
Lemma usage_month_step_fresh service st month_offset w :
  In (Service.service_type service) service_types ->
  exists u w',
    usage_month_step service st month_offset w = inr ((fst st ++ [u])%list, Some u, w') /\
    fst (usage_dispatch service
           (fst (Clock.now w) - Date.timedelta_days (30 * Z.of_nat month_offset))
           (snd (Clock.now w))) = Some u /\
    Usage.service_id u = Service.service_id service /\
    Usage.customer_id u = Service.customer_id service /\
    Usage.usage_month u =
    Date.strftime_Y_m
      (fst (Clock.now w) - Date.timedelta_days (30 * Z.of_nat month_offset)).
Proof.
  intros Hty. unfold usage_month_step, pbind, lift.
  destruct (Clock.now w) as [now w1]. cbn [fst snd].
  match goal with
  | |- context [usage_dispatch service ?d w1] =>
      destruct (usage_dispatch_fresh service d Hty w1) as (u & Hu & Hs & Hc & Hm);
      destruct (usage_dispatch service d w1) as [built w2]
  end.
  simpl in Hu. subst built. exists u, w2. simpl. unfold pret. auto.
Qed.

Lemma usage_service_step_block service st w :
  In (Service.service_type service) service_types ->
  exists st' w' blk,
    usage_service_step st service w = inr (st', w') /\
    fst st' = (fst st ++ blk)%list /\ usage_block service blk.
Proof.
  intros Hty. unfold usage_service_step, usage_block, is_active.
  destruct (Service.service_status service =? "Active")%string.
  - destruct (pfor_each_blocks (usage_month_step service) fst
                (fun (k : nat) blk => exists u now, blk = [u] /\
                   (Usage.service_id u = Service.service_id service /\
                    Usage.customer_id u = Service.customer_id service) /\
                   Usage.usage_month u =
                   Date.strftime_Y_m (now - Date.timedelta_days (30 * Z.of_nat k)))
                (range 12)) with (st := st) (w := w)
      as (st' & w' & blks & Hrun & Hp & HF).
    { intros st0 k w0 _.
      destruct (usage_month_step_fresh service st0 k w0 Hty)
        as (u & w1 & -> & _ & Hs & Hc & Hm).
      exists ((fst st0 ++ [u])%list, Some u), w1, [u]. simpl. eauto 10. }
    exists st', w', (List.concat blks). split; [exact Hrun|]. split; [exact Hp|].
    split.
    + change 12%nat with (List.length (range 12)).
      clear -HF. induction HF as [|k blk ks blks (u & now & -> & _) _ IH]; simpl; auto.
    + apply concat_Forall with (xs := range 12).
      eapply Forall2_impl; [|exact HF]. cbv beta.
      intros k blk (u & now & -> & Hu & _). constructor; [exact Hu|constructor].
  - exists st, w, []. rewrite app_nil_r. repeat split. constructor.
Qed.

Lemma usage_blocks services_df w :
  Forall (fun s => In (Service.service_type s) service_types) services_df ->
  exists usage_df w' blks,
    generate_usage_data services_df w = inr (usage_df, w') /\
    usage_df = List.concat blks /\ Forall2 usage_block services_df blks.
Proof.
  intros Hty. unfold generate_usage_data, pbind.
  destruct (pfor_each_blocks usage_service_step fst usage_block services_df)
    with (st := (@nil Usage.t, @None Usage.t)) (w := w)
    as (st' & w' & blks & -> & Hp & HF).
  { intros st s w0 Hs. apply usage_service_step_block.
    rewrite Forall_forall in Hty. now apply Hty. }
  exists (fst st'), w', blks. repeat split; [exact Hp|exact HF].
Qed.

(** The fall-through exists in the code: an Active subscription of a type
    outside the three leaves [usage] unassigned. *)
Example usage_fallthrough_unbound :
  run (generate_usage_data
         [Service.mk "CUST_000001" "SVC_00000001" "PLAN_X" "Fax" "Fax" 9.99
            0 "Active" true 0 0])
      (world0 0)
  = inl (UnboundLocalError "usage").
Proof. reflexivity. Qed.

Lemma catalog_services_types customers_df w services w' :
  generate_customer_services customers_df generate_service_plans w
  = inr (services, w') ->
  Forall (fun s => In (Service.service_type s) service_types) services.
Proof.
  intros E. destruct (catalog_services customers_df w)
    as (services0 & w0 & E0 & _ & _ & Hplans & _).
  assert (services0 = services) as -> by congruence.
  eapply Forall_impl; [|exact Hplans]. cbv beta.
  intros s (p & Hp & _ & Hty & _). rewrite Hty. now apply catalog_types.
Qed.

Lemma usage_block_keys services_df blks :
  Forall2 usage_block services_df blks ->
  Forall2 (fun s blk =>
             List.length blk = (if is_active s then 12 else 0)%nat /\
             Forall (fun u => Usage.service_id u = Service.service_id s) blk)
          services_df blks.
Proof.
  apply Forall2_impl. intros s blk (Hn & H). split; [exact Hn|].
  eapply Forall_impl; [|exact H]. cbv beta. tauto.
Qed.


(** C10: every subscription built by [generate_customer_services] from the
    catalog has service type Mobile, Internet or TV; on such a subscription
    each monthly iteration appends exactly the one row its own branch has
    just built, and the whole of [generate_usage_data] returns without ever
    reaching the fall-through: the service_id column of the usage frame is
    twelve copies of each Active subscription's id, in order. *)
Theorem usage_dispatch_exhaustive (customers_df : list Customer.t) (w w' : World) :
  exists services w1,
    generate_customer_services customers_df generate_service_plans w
    = inr (services, w1) /\
    Forall (fun s => In (Service.service_type s) ["Mobile"; "Internet"; "TV"])
           services /\
    Forall (fun s => forall st month_offset w0,
              exists u w2,
                usage_month_step s st month_offset w0
                = inr ((fst st ++ [u])%list, Some u, w2) /\
                fst (usage_dispatch s
                       (fst (Clock.now w0)
                        - Date.timedelta_days (30 * Z.of_nat month_offset))
                       (snd (Clock.now w0))) = Some u /\
                Usage.service_id u = Service.service_id s /\
                Usage.customer_id u = Service.customer_id s) services /\
    exists usage_df wf,
      generate_usage_data services w' = inr (usage_df, wf) /\
      map Usage.service_id usage_df =
      flat_map (fun s => repeat (Service.service_id s) (if is_active s then 12 else 0))
               services.
Proof.
  destruct (catalog_services customers_df w) as (services & w1 & E & _).
  pose proof (catalog_services_types _ _ _ _ E) as Hty.
  exists services, w1. split; [exact E|]. split; [exact Hty|]. split.
  - eapply Forall_impl; [|exact Hty]. cbv beta.
    intros s Hs st k w0.
    destruct (usage_month_step_fresh s st k w0 Hs) as (u & w2 & H1 & H2 & H3 & H4 & _).
    exists u, w2. auto.
  - destruct (usage_blocks services w' Hty) as (usage_df & wf & blks & Hrun & -> & HF).
    exists (List.concat blks), wf. split; [exact Hrun|].
    apply (concat_keys Usage.service_id Service.service_id
             (fun s => if is_active s then 12 else 0)%nat).
    now apply usage_block_keys.
Qed.

(* ------------------------------------------------------------------ *)
(** ** Customer metrics *)

Lemma classic_frames (services_df : list Service.t) (billing_df : list Billing.t)
  (tickets_df : list Ticket.t) (nps_df : list Survey.t) :
  some_frame_empty services_df billing_df tickets_df nps_df \/
  ~ some_frame_empty services_df billing_df tickets_df nps_df.
Proof.
  unfold some_frame_empty.
  destruct services_df, billing_df, tickets_df, nps_df; auto;
    right; intros [H|[H|[H|H]]]; discriminate.
Qed.

Lemma customer_metric_spec services_df billing_df tickets_df nps_df c :
  ensures (customer_metric services_df billing_df tickets_df nps_df c)
          (metric_spec services_df billing_df tickets_df nps_df c).
Proof.
  intros w m w'. unfold customer_metric, where_customer, pbind.
  destruct services_df as [|s0 ss]; [discriminate|].
  destruct billing_df as [|b0 bs]; [discriminate|].
  destruct tickets_df as [|t0 ts]; [discriminate|].
  destruct nps_df as [|n0 ns]; [discriminate|].
  unfold pret, lift. destruct (Clock.now _) as [now w1].
  intros [= <- _]. unfold metric_spec. cbn [Metric.customer_id
    Metric.support_tickets_count Metric.monthly_revenue
    Metric.total_lifetime_value Metric.avg_resolution_time_hours
    Metric.avg_satisfaction_rating Metric.latest_nps_score
    Metric.churn_risk_score Metric.upsell_score].
  repeat split; reflexivity.
Qed.

Lemma customer_metric_raises services_df billing_df tickets_df nps_df c w :
  some_frame_empty services_df billing_df tickets_df nps_df ->
  customer_metric services_df billing_df tickets_df nps_df c w
  = inl (KeyError "customer_id").
Proof.
  unfold customer_metric, where_customer, pbind, some_frame_empty.
  destruct services_df as [|s0 ss]; [reflexivity|].
  destruct billing_df as [|b0 bs]; [reflexivity|].
  destruct tickets_df as [|t0 ts]; [reflexivity|].
  destruct nps_df as [|n0 ns]; [reflexivity|].
  intros [H|[H|[H|H]]]; discriminate.
Qed.

Lemma customer_metric_returns services_df billing_df tickets_df nps_df c w :
  ~ some_frame_empty services_df billing_df tickets_df nps_df ->
  exists m w', customer_metric services_df billing_df tickets_df nps_df c w = inr (m, w').
Proof.
  unfold customer_metric, where_customer, pbind, some_frame_empty.
  destruct services_df as [|s0 ss]; [tauto|].
  destruct billing_df as [|b0 bs]; [tauto|].
  destruct tickets_df as [|t0 ts]; [tauto|].
  destruct nps_df as [|n0 ns]; [tauto|].
  intros _. unfold pret, lift. destruct (Clock.now _) as [now w1]. eauto.
Qed.

(** The metrics frame: one row per customer, in order, unless there are
    customers and a source frame has no columns. *)
Lemma metrics_rows customers_df services_df billing_df tickets_df nps_df w :
  match calculate_customer_metrics customers_df services_df billing_df
          tickets_df nps_df w with
  | inr (rows, _) =>
      Forall2 (metric_spec services_df billing_df tickets_df nps_df) customers_df rows
  | inl e =>
      e = KeyError "customer_id" /\ customers_df <> [] /\
      some_frame_empty services_df billing_df tickets_df nps_df
  end.
Proof.
  unfold calculate_customer_metrics.
  assert (G : forall acc,
    match pfor_each
            (fun metrics customer =>
               pbind (customer_metric services_df billing_df tickets_df nps_df customer)
                     (fun r => pret (metrics ++ [r])%list))
            customers_df acc w with
    | inr (rows, _) =>
        exists new, rows = (acc ++ new)%list /\
          Forall2 (metric_spec services_df billing_df tickets_df nps_df) customers_df new
    | inl e =>
        e = KeyError "customer_id" /\ customers_df <> [] /\
        some_frame_empty services_df billing_df tickets_df nps_df
    end).
  { revert w. induction customers_df as [|c cs IH]; intros w acc; simpl.
    - exists []. rewrite app_nil_r. split; [reflexivity|constructor].
    - unfold pbind at 1 2.
      destruct (customer_metric services_df billing_df tickets_df nps_df c w)
        as [e|[m w1]] eqn:E.
      + destruct (classic_frames services_df billing_df tickets_df nps_df) as [He|Hne].
        * rewrite (customer_metric_raises _ _ _ _ c w He) in E.
          injection E as <-. repeat split; [discriminate|exact He].
        * destruct (customer_metric_returns _ _ _ _ c w Hne) as (m & w1 & E').
          congruence.
      + unfold pret at 1. specialize (IH w1 (acc ++ [m])%list).
        destruct (pfor_each _ cs _ w1) as [e|[rows w2]].
        * destruct IH as (-> & _ & He). repeat split; [discriminate|exact He].
        * destruct IH as (new & -> & HF). exists (m :: new). split.
          -- now rewrite <- app_assoc.
          -- constructor; [|exact HF]. now apply (customer_metric_spec _ _ _ _ c w m w1).
  }
  specialize (G []).
  destruct (pfor_each _ customers_df [] w) as [e|[rows w']]; [exact G|].
  destruct G as (new & -> & HF). exact HF.
Qed.

(* ------------------------------------------------------------------ *)
(** ** Rounding and ranges on rationals *)

Local Open Scope Q_scope.

Lemma round_half_even_comp x y : x == y -> Num.round_half_even x = Num.round_half_even y.
Proof.
  intros H. unfold Num.round_half_even.
  rewrite (Qfloor_comp _ _ H).
  assert (E : x - inject_Z (Qfloor y) == y - inject_Z (Qfloor y)) by now rewrite H.
  now rewrite (Qcompare_comp _ _ E _ _ (Qeq_refl (1 # 2))).
Qed.

Lemma py_round_comp x y nd : x == y -> Num.py_round x nd = Num.py_round y nd.
Proof.
  intros H. unfold Num.py_round.
  set (scale := inject_Z (10 ^ Z.of_nat nd)).
  rewrite (round_half_even_comp (x * scale) (y * scale)); [reflexivity|].
  now rewrite H.
Qed.

Lemma round_half_even_floor x : (Qfloor x <= Num.round_half_even x)%Z.
Proof.
  unfold Num.round_half_even.
  destruct (Qcompare _ _); [destruct (Z.even _)| |]; lia.
Qed.

Lemma py_round_positive x : 2 <= x -> 0 < Num.py_round x 2.
Proof.
  intros H. unfold Num.py_round. apply Qlt_shift_div_l; [reflexivity|].
  rewrite Qmult_0_l. change 0 with (inject_Z 0). rewrite <- Zlt_Qlt.
  pose proof (round_half_even_floor (x * inject_Z (10 ^ Z.of_nat 2))) as Hf.
  assert (200 <= Qfloor (x * inject_Z (10 ^ Z.of_nat 2)))%Z; [|lia].
  change 200%Z with (Qfloor (inject_Z 200)) at 1.
  apply Qfloor_resp_le.
  change (inject_Z (10 ^ Z.of_nat 2)) with (inject_Z 100).
  change (inject_Z 200) with (2 * inject_Z 100). 
  apply Qmult_le_compat_r; [exact H|discriminate].
Qed.

Lemma random_range :
  returns Random.random (fun r => 0 <= r /\ r < 1).
Proof.
  intros w. unfold Random.random, bind, ret. cbn [fst Random.word draw].
  pose proof (Z.mod_pos_bound (tape (py_rng w) (pos (py_rng w))) (2 ^ 53) eq_refl)
    as [H0 H1].
  split.
  - unfold Qle. cbn [Qnum Qden]. lia.
  - unfold Qlt. cbn [Qnum Qden]. rewrite Z.mul_1_r, Z.mul_1_l. exact H1.
Qed.

Lemma uniform_range a b :
  a <= b -> returns (Random.uniform a b) (fun u => a <= u /\ u <= b).
Proof.
  intros Hab. unfold Random.uniform.
  eapply returns_bind; [apply random_range|]. cbv beta.
  intros r [H0 H1]. apply returns_ret. split; nra.
Qed.

(** A bill for a non-negative fee is for a positive amount. *)
Lemma new_bill_amount service month_offset :
  0 <= Service.monthly_fee service ->
  returns (new_bill service month_offset) (fun b => 0 < Billing.amount_due b).
Proof.
  intros Hfee. unfold new_bill.
  apply returns_bind_any; intros now.
  eapply returns_bind; [apply (uniform_range 2 8); discriminate|].
  cbv beta. intros fees [Hf _].
  apply returns_bind_any; intros r.
  apply returns_bind with (P := fun total => 2 <= total).
  - destruct (Num.Qltb r 0.15).
    + eapply returns_bind; [apply (uniform_range 10 50); discriminate|].
      cbv beta. intros extra [He _]. apply returns_ret. nra.
    + apply returns_ret. nra.
  - intros total Ht. do 3 (apply returns_bind_any; intros ?).
    apply returns_ret. cbn [Billing.amount_due]. now apply py_round_positive.
Qed.

Lemma billing_amounts services_df :
  Forall (fun s => 0 <= Service.monthly_fee s) services_df ->
  returns (generate_billing_data services_df)
          (Forall (fun b => 0 < Billing.amount_due b)).
Proof.
  intros Hfees. unfold generate_billing_data.
  apply for_each_invariant; [|constructor].
  intros acc s Hs Hacc. unfold service_bills.
  apply for_each_invariant; [|exact Hacc].
  intros acc' k _ Hacc'.
  eapply returns_bind; [apply new_bill_amount|].
  - rewrite Forall_forall in Hfees. now apply Hfees.
  - intros b Hb. apply returns_ret. apply Forall_app. split; [exact Hacc'|].
    constructor; [exact Hb|constructor].
Qed.

Lemma catalog_services_fees customers_df w services w' :
  generate_customer_services customers_df generate_service_plans w
  = inr (services, w') ->
  Forall (fun s => 0 <= Service.monthly_fee s) services.
Proof.
  intros E. destruct (catalog_services customers_df w)
    as (services0 & w0 & E0 & _ & _ & Hplans & _).
  assert (services0 = services) as -> by congruence.
  eapply Forall_impl; [|exact Hplans]. cbv beta.
  intros s (p & Hp & _ & _ & Hfee). rewrite Hfee.
  apply Qlt_le_weak. now apply catalog_fees.
Qed.

(** Paid and Late bills enter the sum of payments at the amount due. *)
Lemma paid_sum_settled rows :
  Forall bill_ok rows ->
  Num.Qsum (map Billing.amount_paid rows)
  == Num.Qsum (map Billing.amount_due (filter settled rows)).
Proof.
  induction 1 as [|b rows Hb _ IH]; [reflexivity|].
  cbn [map filter Num.Qsum fold_right]. unfold settled at 1.
  fold (Num.Qsum (map Billing.amount_paid rows)).
  destruct Hb as [(Hs & _ & Hp & _)|[(Hs & _ & Hp & _)|(Hs & _ & Hp & _)]];
    rewrite Hs, Hp; cbn [existsb String.eqb Ascii.eqb Bool.eqb orb];
    cbn [map Num.Qsum fold_right];
    fold (Num.Qsum (map Billing.amount_due (filter settled rows)));
    rewrite IH; ring.
Qed.

Local Close Scope Q_scope.

(* ------------------------------------------------------------------ *)
(** ** Scores and defaults *)

Lemma churn_risk_range tickets avg latest_nps late :
  0 <= churn_risk tickets avg latest_nps late <= 100.
Proof.
  unfold churn_risk.
  destruct (3 <? tickets)%nat, (Num.Qltb avg 3), (nps_at_most latest_nps 6),
    (2 <? late)%nat; cbn; lia.
Qed.

Lemma upsell_range active revenue avg latest_nps :
  0 <= Num.py_minZ 100 (upsell active revenue avg latest_nps) <= 100.
Proof.
  unfold upsell.
  destruct (active <? 3)%nat, (nan_lt revenue 100), (Qle_bool 4 avg),
    (nps_at_least latest_nps 8); cbn; lia.
Qed.

(** The risk score is the capped sum of four flags; the NPS flag is raised
    by a latest score that is non-zero and at most 6. *)
Lemma churn_risk_formula tickets avg latest_nps late :
  churn_risk tickets avg latest_nps late =
  Z.min 100
    (20 * bit (3 <? tickets)%nat + 25 * bit (Num.Qltb avg 3)
     + 30 * bit (match latest_nps with
                 | Some n => negb (n =? 0) && (n <=? 6)
                 | None => false
                 end)
     + 25 * bit (2 <? late)%nat).
Proof.
  unfold churn_risk, nps_at_most, truthy.
  destruct (3 <? tickets)%nat, (Num.Qltb avg 3), (2 <? late)%nat,
    latest_nps as [n|]; try reflexivity;
    destruct (n =? 0), (n <=? 6); reflexivity.
Qed.

Lemma metrics_returns customers_df services_df billing_df tickets_df nps_df w :
  ~ some_frame_empty services_df billing_df tickets_df nps_df ->
  exists rows w',
    calculate_customer_metrics customers_df services_df billing_df tickets_df nps_df w
    = inr (rows, w') /\
    Forall2 (metric_spec services_df billing_df tickets_df nps_df) customers_df rows.
Proof.
  intros Hne.
  pose proof (metrics_rows customers_df services_df billing_df tickets_df nps_df w) as H.
  destruct (calculate_customer_metrics _ _ _ _ _ w) as [e|[rows w']].
  - destruct H as (_ & _ & He). contradiction.
  - eauto.
Qed.

Lemma metrics_raises c customers_df services_df billing_df tickets_df nps_df w :
  some_frame_empty services_df billing_df tickets_df nps_df ->
  calculate_customer_metrics (c :: customers_df) services_df billing_df tickets_df
    nps_df w
  = inl (KeyError "customer_id").
Proof.
  intros He. unfold calculate_customer_metrics. simpl. unfold pbind at 1 2.
  now rewrite customer_metric_raises.
Qed.

(** When the metrics frame is built, a customer without tickets gets the
    defaults 5 and 0, and a customer without bills gets revenue 0. *)
Lemma empty_group_defaults services_df billing_df tickets_df nps_df c m :
  metric_spec services_df billing_df tickets_df nps_df c m ->
  (own Ticket.customer_id c tickets_df = [] ->
   (Metric.avg_satisfaction_rating m == 5)%Q /\
   (Metric.avg_resolution_time_hours m == 0)%Q) /\
  (own Billing.customer_id c billing_df = [] -> Metric.monthly_revenue m = 0%Q).
Proof.
  unfold metric_spec, own. intros (_ & _ & Hrev & _ & Hres & Hsat & _). split.
  - intros E. rewrite Hres, Hsat, E. split; reflexivity.
  - intros E. rewrite Hrev, E. reflexivity.
Qed.

(** C8: every row [calculate_customer_metrics] produces has churn_risk_score
    and upsell_score between 0 and 100; it produces one row per customer,
    and raises only when there are customers and a source frame was built
    from an empty list. *)
Theorem scores_in_range (customers_df : list Customer.t)
  (services_df : list Service.t) (billing_df : list Billing.t)
  (tickets_df : list Ticket.t) (nps_df : list Survey.t) (w : World) :
  match calculate_customer_metrics customers_df services_df billing_df
          tickets_df nps_df w with
  | inr (rows, _) =>
      List.length rows = List.length customers_df /\
      Forall (fun m => 0 <= Metric.churn_risk_score m <= 100 /\
                       0 <= Metric.upsell_score m <= 100) rows
  | inl _ =>
      customers_df <> [] /\ some_frame_empty services_df billing_df tickets_df nps_df
  end.
Proof.
  pose proof (metrics_rows customers_df services_df billing_df tickets_df nps_df w) as H.
  destruct (calculate_customer_metrics _ _ _ _ _ w) as [e|[rows w']]; [tauto|].
  split; [symmetry; exact (Forall2_length H)|].
  induction H as [|c m cs rows Hm _ IH]; constructor; [|exact IH].
  destruct Hm as (_ & _ & _ & _ & _ & _ & _ & -> & ->).
  split; [apply churn_risk_range|apply upsell_range].
Qed.

(** C2 (what the code does): a latest NPS score of 0 raises no flag.  The
    score is computed as if the customer had never been surveyed, and the
    metrics row of a customer whose only survey scored 0, with no tickets
    and no late bill, has churn_risk_score 0 where the four-flag rule
    gives 30. *)
Theorem churn_risk_skips_nps_zero :
  (forall tickets avg late,
     churn_risk tickets avg (Some 0) late = churn_risk tickets avg None late) /\
  churn_risk 0 5 (Some 0) 0 = 0 /\
  churn_risk 0 5 (Some 1) 0 = 30 /\
  exists m w',
    calculate_customer_metrics [Sample.customer] [Sample.service] [Sample.bill]
      [Sample.other_ticket] [Sample.survey 0] (world0 0) = inr ([m], w') /\
    Metric.support_tickets_count m = 0%nat /\
    Metric.latest_nps_score m = Some 0 /\
    Metric.churn_risk_score m = 0.
Proof.
  split; [reflexivity|]. split; [reflexivity|]. split; [reflexivity|].
  eexists. eexists. split; [vm_compute; reflexivity|].
  repeat split.
Qed.

(* ------------------------------------------------------------------ *)
(** ** Payments and lifetime value *)

Lemma own_Forall {R} (P : R -> Prop) key c (df : list R) :
  Forall P df -> Forall P (own key c df).
Proof.
  intros H. apply Forall_forall. intros r Hr.
  apply filter_In in Hr. rewrite Forall_forall in H. now apply H.
Qed.

(** C9: in every generated billing row amount_paid is the amount due when
    the status is Paid or Late and 0 when it is Unpaid (and, the amount due
    being positive, it equals the amount due only for Paid and Late); so
    total_lifetime_value, the rounded sum of amount_paid over the customer's
    bills, is the rounded sum of the amounts due of the customer's Paid and
    Late bills alike. *)
Theorem late_bills_count_in_full (customers_df : list Customer.t)
  (tickets_df : list Ticket.t) (nps_df : list Survey.t) (w w' w'' : World) :
  exists services w1,
    generate_customer_services customers_df generate_service_plans w
    = inr (services, w1) /\
    let billing_df := fst (generate_billing_data services w') in
    Forall (fun b =>
              In (Billing.payment_status b) ["Paid"; "Late"; "Unpaid"] /\
              (In (Billing.payment_status b) ["Paid"; "Late"] ->
               Billing.amount_paid b = Billing.amount_due b) /\
              (Billing.payment_status b = "Unpaid" -> Billing.amount_paid b = 0%Q) /\
              ((Billing.amount_paid b == Billing.amount_due b)%Q <->
               In (Billing.payment_status b) ["Paid"; "Late"]))
           billing_df /\
    match calculate_customer_metrics customers_df services billing_df tickets_df
            nps_df w'' with
    | inr (rows, _) =>
        Forall2 (fun c m =>
                   let bills := own Billing.customer_id c billing_df in
                   Metric.total_lifetime_value m
                   = Num.py_round (Num.Qsum (map Billing.amount_paid bills)) 2 /\
                   Metric.total_lifetime_value m
                   = Num.py_round
                       (Num.Qsum (map Billing.amount_due (filter settled bills))) 2)
                customers_df rows
    | inl _ =>
        customers_df <> [] /\ some_frame_empty services billing_df tickets_df nps_df
    end.
Proof.
  destruct (catalog_services customers_df w) as (services & w1 & E & _).
  exists services, w1. split; [exact E|]. intros billing_df.
  pose proof (billing_all_ok services w') as Hok. fold billing_df in Hok.
  assert (Hpos : Forall (fun b => (0 < Billing.amount_due b)%Q) billing_df).
  { apply billing_amounts. exact (catalog_services_fees _ _ _ _ E). }
  split.
  - rewrite Forall_forall in Hok, Hpos. apply Forall_forall. intros b Hb.
    specialize (Hok b Hb). specialize (Hpos b Hb).
    destruct Hok as [(Hs & _ & Hp & _)|[(Hs & _ & Hp & _)|(Hs & _ & Hp & _)]];
      rewrite Hs, Hp; cbn [In]; repeat split; auto;
      try reflexivity; try discriminate; try tauto;
      try (intros [H|[H|[]]]; discriminate).
    intros E'. rewrite <- E' in Hpos. discriminate.
  - pose proof (metrics_rows customers_df services billing_df tickets_df nps_df w'')
      as H.
    destruct (calculate_customer_metrics _ _ _ _ _ w'') as [e|[rows wf]]; [tauto|].
    eapply Forall2_impl; [|exact H]. cbv beta zeta.
    intros c m (_ & _ & _ & Htlv & _). fold (own Billing.customer_id c billing_df) in Htlv.
    split; [exact Htlv|]. rewrite Htlv. apply py_round_comp.
    apply paid_sum_settled. now apply own_Forall.
Qed.

(* ------------------------------------------------------------------ *)
(** ** Tickets and surveys *)

Lemma concat_units {A R} xs (blks : list (list R)) :
  Forall2 (fun (_ : A) blk => List.length blk = 1%nat) xs blks ->
  List.length (List.concat blks) = List.length xs.
Proof.
  induction 1 as [|x blk xs blks Hx _ IH]; simpl; [reflexivity|].
  rewrite length_app. lia.
Qed.

(** A loop that appends one row per iteration appends as many rows as it
    has iterations. *)
Lemma for_each_append_one {A R} (mk : list R -> A -> St R) xs acc :
  returns (for_each (fun acc x => bind (mk acc x) (fun r => ret (acc ++ [r])%list))
                    xs acc)
    (fun out => exists blk, out = (acc ++ blk)%list /\
                            List.length blk = List.length xs).
Proof.
  eapply returns_weaken.
  - apply for_each_blocks with (Q := fun (_ : A) blk => List.length blk = 1%nat).
    intros acc' x _. apply returns_bind_any. intros r. apply returns_ret.
    exists [r]. auto.
  - cbv beta. intros out (blks & -> & HF). exists (List.concat blks).
    split; [reflexivity|]. now apply concat_units.
Qed.

Lemma customer_tickets_block acc c :
  returns (customer_tickets acc c)
    (fun out => exists blk, out = (acc ++ blk)%list /\
                            (1 <= List.length blk <= 5)%nat).
Proof.
  unfold customer_tickets.
  eapply returns_bind; [apply choices_in|]. cbn [map fst]. intros n Hn.
  eapply returns_weaken; [apply for_each_append_one|]. cbv beta.
  intros out (blk & -> & Hlen). exists blk. split; [reflexivity|].
  rewrite Hlen. unfold range. rewrite length_seq.
  repeat (destruct Hn as [<-|Hn]; [simpl; lia|]). contradiction.
Qed.

Lemma customer_surveys_block acc c :
  returns (customer_surveys acc c)
    (fun out => exists blk, out = (acc ++ blk)%list /\
                            (1 <= List.length blk <= 3)%nat).
Proof.
  unfold customer_surveys.
  eapply returns_bind; [apply choices_in|]. cbn [map fst]. intros n Hn.
  eapply returns_weaken; [apply for_each_append_one|]. cbv beta.
  intros out (blk & -> & Hlen). exists blk. split; [reflexivity|].
  rewrite Hlen. unfold range. rewrite length_seq.
  repeat (destruct Hn as [<-|Hn]; [simpl; lia|]). contradiction.
Qed.

Local Open Scope Q_scope.

Lemma round_half_even_ge_1 x : 1 # 2 < x -> (1 <= Num.round_half_even x)%Z.
Proof.
  intros H. unfold Num.round_half_even.
  assert (H0 : (0 <= Qfloor x)%Z).
  { change 0%Z with (Qfloor 0). apply Qfloor_resp_le. lra. }
  destruct (Z.eq_dec (Qfloor x) 0) as [E|E].
  - rewrite E. assert (G : x - inject_Z 0 > 1 # 2) by (unfold inject_Z; lra).
    apply Qgt_alt in G. rewrite G. lia.
  - destruct (Qcompare _ _); [destruct (Z.even _)| |]; lia.
Qed.

(** [sample(frac=f)] of a frame with at least two rows is not empty when
    [f] is at least 0.3. *)
Lemma sample_frac_nonempty {A} frac (l : list A) :
  3 # 10 <= frac -> (2 <= List.length l)%nat ->
  returns (Numpy.sample_frac frac l) (fun picked => picked <> []).
Proof.
  intros Hf Hl. unfold Numpy.sample_frac.
  eapply returns_weaken; [apply sample_n_spec|]. cbv beta.
  intros picked [Hlen _] ->. simpl in Hlen.
  assert (H2 : inject_Z 2 <= inject_Z (Z.of_nat (List.length l))).
  { rewrite <- Zle_Qle. lia. }
  pose proof (round_half_even_ge_1 (frac * inject_Z (Z.of_nat (List.length l)))) as H.
  assert (Hx : 1 # 2 < frac * inject_Z (Z.of_nat (List.length l))).
  { change (inject_Z 2) with 2 in H2. nra. }
  specialize (H Hx). lia.
Qed.

(** With a single row, 40% and 30% both round to no row at all. *)
Lemma sample_frac_single {A} frac (l : list A) :
  frac <= 1 # 2 -> 0 <= frac -> (List.length l <= 1)%nat ->
  returns (Numpy.sample_frac frac l) (fun picked => picked = []).
Proof.
  intros Hf H0 Hl. unfold Numpy.sample_frac.
  assert (E : Num.round_half_even (frac * inject_Z (Z.of_nat (List.length l))) = 0%Z).
  { destruct l as [|x [|y l]]; simpl in Hl; [| |lia].
    - rewrite (round_half_even_comp _ 0); [reflexivity|]. simpl. ring.
    - rewrite (round_half_even_comp _ frac); [|simpl; ring].
      unfold Num.round_half_even.
      assert (Ef : Qfloor frac = 0%Z).
      { apply Z.le_antisymm.
        - assert (Qfloor frac <= Qfloor (1 # 2))%Z by now apply Qfloor_resp_le.
          exact H.
        - change 0%Z with (Qfloor 0). now apply Qfloor_resp_le. }
      rewrite Ef.
      destruct (Qcompare (frac - inject_Z 0) (1 # 2)) eqn:C; try reflexivity.
      apply Qgt_alt in C. unfold inject_Z in C. lra. }
  rewrite E. simpl. apply returns_ret. reflexivity.
Qed.

Local Close Scope Q_scope.

Lemma tickets_nonempty customers_df :
  (2 <= List.length customers_df)%nat ->
  returns (generate_support_tickets customers_df) (fun tickets => tickets <> []).
Proof.
  intros Hl. unfold generate_support_tickets.
  eapply returns_bind; [apply sample_frac_nonempty; [discriminate|exact Hl]|].
  cbv beta. intros picked Hp. eapply returns_weaken.
  - apply for_each_blocks
      with (Q := fun (_ : Customer.t) blk => (1 <= List.length blk <= 5)%nat).
    intros acc c _. apply customer_tickets_block.
  - cbv beta. intros out (blks & -> & HF) E.
    apply (f_equal (@List.length _)) in E. simpl in E.
    pose proof (concat_length_bounds 1 5 _ _ HF).
    destruct picked; [congruence|simpl in *; lia].
Qed.

Lemma surveys_nonempty customers_df :
  (2 <= List.length customers_df)%nat ->
  returns (generate_nps_surveys customers_df) (fun surveys => surveys <> []).
Proof.
  intros Hl. unfold generate_nps_surveys.
  eapply returns_bind; [apply sample_frac_nonempty; [discriminate|exact Hl]|].
  cbv beta. intros picked Hp. eapply returns_weaken.
  - apply for_each_blocks
      with (Q := fun (_ : Customer.t) blk => (1 <= List.length blk <= 3)%nat).
    intros acc c _. apply customer_surveys_block.
  - cbv beta. intros out (blks & -> & HF) E.
    apply (f_equal (@List.length _)) in E. simpl in E.
    pose proof (concat_length_bounds 1 3 _ _ HF).
    destruct picked; [congruence|simpl in *; lia].
Qed.

Lemma tickets_single customers_df :
  (List.length customers_df <= 1)%nat ->
  returns (generate_support_tickets customers_df) (fun tickets => tickets = []).
Proof.
  intros Hl. unfold generate_support_tickets.
  eapply returns_bind; [apply sample_frac_single; [discriminate|discriminate|exact Hl]|].
  cbv beta. intros picked ->. simpl. now apply returns_ret.
Qed.

Lemma surveys_single customers_df :
  (List.length customers_df <= 1)%nat ->
  returns (generate_nps_surveys customers_df) (fun surveys => surveys = []).
Proof.
  intros Hl. unfold generate_nps_surveys.
  eapply returns_bind; [apply sample_frac_single; [discriminate|discriminate|exact Hl]|].
  cbv beta. intros picked ->. simpl. now apply returns_ret.
Qed.

(* ------------------------------------------------------------------ *)
(** ** The whole run *)

Lemma billing_nonempty services_df :
  services_df <> [] ->
  returns (generate_billing_data services_df) (fun billing => billing <> []).
Proof.
  intros Hne. eapply returns_weaken; [apply billing_blocks|]. cbv beta.
  intros billing (blks & -> & HF) E.
  destruct HF as [|s blk ss blks [Hlen _] _]; [congruence|].
  simpl in E. apply app_eq_nil in E. destruct E as [-> _]. discriminate.
Qed.

(** The stages of [generate_all_data] up to the metrics, which always
    return when the subscriptions come from the catalog. *)
Lemma generate_all_data_stages self w :
  exists customers_df services_df usage_df billing_df tickets_df nps_df w',
    List.length customers_df = Z.to_nat (num_customers self) /\
    (customers_df <> [] -> services_df <> [] /\ billing_df <> []) /\
    ((2 <= List.length customers_df)%nat -> tickets_df <> [] /\ nps_df <> []) /\
    ((List.length customers_df <= 1)%nat -> tickets_df = [] /\ nps_df = []) /\
    generate_all_data self w =
    pbind (calculate_customer_metrics customers_df services_df billing_df
             tickets_df nps_df)
          (fun metrics_df =>
             pret (mkTables customers_df generate_service_plans services_df
                     usage_df billing_df tickets_df nps_df metrics_df)) w'.
Proof.
  unfold generate_all_data. unfold pbind at 1 2 3 4 5 6, lift.
  pose proof (customers_count self w) as Hc.
  destruct (generate_customer_demographics self w) as [cs w1]. cbn [fst] in Hc.
  destruct (catalog_services cs w1) as (sv & w2 & E & _ & _ & _ & Hs).
  pose proof (catalog_services_types cs w1 sv w2 E) as Hty.
  rewrite E.
  destruct (usage_blocks sv w2 Hty) as (us & w3 & blks & -> & _).
  pose proof (fun H => billing_nonempty sv H w3) as Hb.
  destruct (generate_billing_data sv w3) as [bl w4]. cbn [fst] in Hb.
  pose proof (fun H => tickets_nonempty cs H w4) as Ht.
  pose proof (fun H => tickets_single cs H w4) as Ht1.
  destruct (generate_support_tickets cs w4) as [tk w5]. cbn [fst] in Ht, Ht1.
  pose proof (fun H => surveys_nonempty cs H w5) as Hn.
  pose proof (fun H => surveys_single cs H w5) as Hn1.
  destruct (generate_nps_surveys cs w5) as [ns w6]. cbn [fst] in Hn, Hn1.
  exists cs, sv, us, bl, tk, ns, w6. repeat split; auto.
Qed.

(** C3 (as the code behaves): the requested count is never validated.  For
    every count of 0 or less the run raises nothing, draws nothing and
    returns no customers, the ten catalog plans and six empty frames; for
    every count of 2 or more every stage returns, with one customer row and
    one metrics row per requested customer. *)
Theorem no_count_validation (n : Z) (w : World) :
  (n <= 0 ->
   generate_all_data (init (Some n)) w
   = inr (mkTables [] generate_service_plans [] [] [] [] [] [], w)) /\
  (2 <= n ->
   exists t w',
     generate_all_data (init (Some n)) w = inr (t, w') /\
     plans t = generate_service_plans /\
     List.length (customers t) = Z.to_nat n /\
     List.length (customer_metrics t) = Z.to_nat n).
Proof.
  split.
  - intros Hn. unfold generate_all_data, generate_customer_demographics, init, range.
    cbn [num_customers]. replace (Z.to_nat n) with 0%nat by lia. reflexivity.
  - intros Hn.
    destruct (generate_all_data_stages (init (Some n)) w)
      as (cs & sv & us & bl & tk & ns & w' & Hlen & Hsv & Htk & _ & ->).
    cbn [init num_customers] in Hlen.
    assert (Hcs : cs <> []) by (intros ->; simpl in Hlen; lia).
    destruct (Hsv Hcs) as [Hs Hb]. destruct Htk as [Ht Hs']; [lia|].
    destruct (metrics_returns cs sv bl tk ns w') as (rows & wf & Hrun & HF).
    { unfold some_frame_empty. tauto. }
    unfold pbind. rewrite Hrun. unfold pret. eexists. eexists.
    split; [reflexivity|]. cbn [plans customers customer_metrics].
    repeat split; [exact Hlen|]. rewrite <- (Forall2_length HF). exact Hlen.
Qed.

Lemma no_count_validation_witness :
  generate_all_data (init (Some (-3))) (world0 0)
  = inr (mkTables [] generate_service_plans [] [] [] [] [] [], world0 0) /\
  exists t w',
    generate_all_data (init (Some 2)) (world0 0) = inr (t, w') /\
    plans t = generate_service_plans /\
    List.length (customers t) = Z.to_nat 2 /\
    List.length (customer_metrics t) = Z.to_nat 2.
Proof.
  split.
  - apply (proj1 (no_count_validation (-3) (world0 0))). lia.
  - apply (proj2 (no_count_validation 2 (world0 0))). lia.
Defined.

(** C3 (the claim as stated fails): a count of 0 is accepted and the run
    returns its tables. *)
Lemma zero_customers_accepted :
  0 <= 0 /\
  exists t, run (generate_all_data (init (Some 0))) (world0 0) = inr t /\
            customers t = [] /\ List.length (plans t) = 10%nat.
Proof.
  split; [lia|]. eexists. split; [reflexivity|]. split; reflexivity.
Qed.

(** C5 (what the code does): with a single customer no ticket and no survey
    is sampled, both frames are built from empty lists, and the metrics
    stage raises [KeyError('customer_id')] for that customer instead of
    giving the defaults. *)
Theorem single_customer_run_raises (w : World) :
  run (generate_all_data (init (Some 1))) w = inl (KeyError "customer_id").
Proof.
  destruct (generate_all_data_stages (init (Some 1)) w)
    as (cs & sv & us & bl & tk & ns & w' & Hlen & _ & _ & Htk & E).
  cbn [init num_customers] in Hlen. unfold run. rewrite E.
  destruct Htk as [-> ->]; [rewrite Hlen; simpl; lia|].
  destruct cs as [|c cs]; [simpl in Hlen; lia|].
  unfold pbind. rewrite metrics_raises; [reflexivity|].
  unfold some_frame_empty. tauto.
Qed.

(* ------------------------------------------------------------------ *)
(** ** Determinism *)

Lemma draw_det s1 s2 :
  src_eq s1 s2 ->
  fst (draw s1) = fst (draw s2) /\ src_eq (snd (draw s1)) (snd (draw s2)).
Proof.
  intros [Hp Ht]. unfold draw, src_eq. simpl. rewrite Hp, Ht. auto.
Qed.

Lemma det_ret {A} (a : A) : det (ret a).
Proof. intros w1 w2 H. auto. Qed.

Lemma det_bind {A B} (m : St A) (k : A -> St B) :
  det m -> (forall a, det (k a)) -> det (bind m k).
Proof.
  intros Hm Hk w1 w2 H. unfold bind. specialize (Hm w1 w2 H).
  destruct (m w1) as [a1 w1'], (m w2) as [a2 w2']. simpl in Hm.
  destruct Hm as [-> H']. now apply Hk.
Qed.

Lemma det_for_each {A B} (body : B -> A -> St B) xs :
  (forall acc x, det (body acc x)) -> forall acc, det (for_each body xs acc).
Proof.
  intros Hb. induction xs as [|x xs IH]; intros acc; simpl.
  - apply det_ret.
  - apply det_bind; [apply Hb|exact IH].
Qed.

Lemma det_py_word : det Random.word.
Proof.
  intros w1 w2 (Hpy & Hnp & Hfk & Hck). unfold Random.word.
  destruct (draw_det _ _ Hpy) as [E H].
  destruct (draw (py_rng w1)), (draw (py_rng w2)). simpl in *.
  unfold world_eq. simpl. auto.
Qed.

Lemma det_np_word : det Numpy.word.
Proof.
  intros w1 w2 (Hpy & Hnp & Hfk & Hck). unfold Numpy.word.
  destruct (draw_det _ _ Hnp) as [E H].
  destruct (draw (np_rng w1)), (draw (np_rng w2)). simpl in *.
  unfold world_eq. simpl. auto.
Qed.

Lemma det_fk_word : det Faker.word.
Proof.
  intros w1 w2 (Hpy & Hnp & Hfk & Hck). unfold Faker.word.
  destruct (draw_det _ _ Hfk) as [E H].
  destruct (draw (fk_rng w1)), (draw (fk_rng w2)). simpl in *.
  unfold world_eq. simpl. auto.
Qed.

Lemma det_now : det Clock.now.
Proof.
  intros w1 w2 (Hpy & Hnp & Hfk & Hck). unfold Clock.now.
  destruct (draw_det _ _ Hck) as [E H].
  destruct (draw (clock w1)), (draw (clock w2)). simpl in *.
  unfold world_eq. simpl. auto.
Qed.

Create HintDb det discriminated.
#[local] Hint Resolve det_py_word det_np_word det_fk_word det_now : det.

(** Decompose a computation into binds, branches and calls already known to
    be deterministic. *)
Ltac det_step :=
  lazymatch goal with
  | |- det (ret _) => apply det_ret
  | |- det (bind _ _) => apply det_bind; [|intros ?]
  | |- det (for_each _ _ _) => apply det_for_each; intros ? ?
  | |- det (if ?b then _ else _) => destruct b
  | |- det (match ?x with _ => _ end) => destruct x
  | |- det _ => solve [auto with det]
  end.

Ltac det_auto := repeat det_step.

Lemma det_random : det Random.random.
Proof. unfold Random.random. det_auto. Qed.

Lemma det_randbelow n : det (Random.randbelow n).
Proof. unfold Random.randbelow. det_auto. Qed.
#[local] Hint Resolve det_random det_randbelow : det.

Lemma det_randint a b : det (Random.randint a b).
Proof. unfold Random.randint. det_auto. Qed.

Lemma det_uniform a b : det (Random.uniform a b).
Proof. unfold Random.uniform. det_auto. Qed.

Lemma det_choice {A} (x : A) xs : det (Random.choice x xs).
Proof. unfold Random.choice. det_auto. Qed.

Lemma det_choices {A} (first : A * Z) rest : det (Random.choices first rest).
Proof. unfold Random.choices. det_auto. Qed.

Lemma det_normal mu sigma : det (Numpy.normal mu sigma).
Proof. unfold Numpy.normal. det_auto. Qed.
#[local] Hint Resolve det_randint det_uniform det_choice det_choices det_normal : det.

Lemma det_sample_n {A} n : forall l : list A, det (Numpy.sample_n n l).
Proof.
  induction n as [|n IH]; intros l; simpl; [apply det_ret|].
  destruct l as [|x l]; [apply det_ret|].
  apply det_bind; [apply det_np_word|]. intros z.
  destruct (Numpy.take_nth _ _) as [[y rest]|]; [|apply det_ret].
  apply det_bind; [apply IH|]. intros picked. apply det_ret.
Qed.

Lemma det_sample_frac {A} frac (l : list A) : det (Numpy.sample_frac frac l).
Proof. apply det_sample_n. Qed.

Lemma det_today : det Clock.today.
Proof. unfold Clock.today. det_auto. Qed.
#[local] Hint Resolve det_sample_n det_sample_frac det_today : det.

Lemma det_date_between_dates d1 d2 : det (Faker.date_between_dates d1 d2).
Proof. unfold Faker.date_between_dates. det_auto. Qed.
#[local] Hint Resolve det_date_between_dates : det.

Lemma det_date_between_today d : det (Faker.date_between_today d).
Proof. unfold Faker.date_between_today. det_auto. Qed.

Lemma det_date_between_5y_today : det Faker.date_between_5y_today.
Proof. unfold Faker.date_between_5y_today. det_auto. Qed.

Lemma det_date_of_birth : det Faker.date_of_birth_18_80.
Proof. unfold Faker.date_of_birth_18_80. det_auto. Qed.

Lemma det_text : det Faker.text.
Proof. apply det_fk_word. Qed.
#[local] Hint Resolve det_date_between_today det_date_between_5y_today
  det_date_of_birth det_text : det.

Lemma det_customers self : det (generate_customer_demographics self).
Proof. unfold generate_customer_demographics, new_customer. det_auto. Qed.

Lemma det_new_service customer services plan : det (new_service customer services plan).
Proof. unfold new_service. det_auto. Qed.

Lemma det_usage_dispatch service usage_date : det (usage_dispatch service usage_date).
Proof. unfold usage_dispatch. det_auto. Qed.

Lemma det_billing services_df : det (generate_billing_data services_df).
Proof. unfold generate_billing_data, service_bills, new_bill. det_auto. Qed.

Lemma det_tickets customers_df : det (generate_support_tickets customers_df).
Proof.
  unfold generate_support_tickets, customer_tickets, new_ticket. det_auto.
Qed.

Lemma det_surveys customers_df : det (generate_nps_surveys customers_df).
Proof.
  unfold generate_nps_surveys, customer_surveys, new_survey. det_auto.
Qed.

Lemma pdet_pret {A} (a : A) : pdet (pret a).
Proof. intros w1 w2 H. simpl. auto. Qed.

Lemma pdet_raise {A} e : pdet (@raise A e).
Proof. intros w1 w2 H. reflexivity. Qed.

Lemma pdet_lift {A} (m : St A) : det m -> pdet (lift m).
Proof.
  intros Hm w1 w2 H. unfold lift. specialize (Hm w1 w2 H).
  destruct (m w1), (m w2). exact Hm.
Qed.

Lemma pdet_pbind {A B} (m : Py A) (k : A -> Py B) :
  pdet m -> (forall a, pdet (k a)) -> pdet (pbind m k).
Proof.
  intros Hm Hk w1 w2 H. unfold pbind. specialize (Hm w1 w2 H).
  destruct (m w1) as [e1|[a1 w1']], (m w2) as [e2|[a2 w2']];
    try contradiction; [exact Hm|].
  destruct Hm as [-> H']. now apply Hk.
Qed.

Lemma pdet_pfor_each {A B} (body : B -> A -> Py B) xs :
  (forall acc x, pdet (body acc x)) -> forall acc, pdet (pfor_each body xs acc).
Proof.
  intros Hb. induction xs as [|x xs IH]; intros acc; simpl.
  - apply pdet_pret.
  - apply pdet_pbind; [apply Hb|exact IH].
Qed.

#[local] Hint Resolve det_customers det_new_service det_usage_dispatch det_billing
  det_tickets det_surveys : det.

Lemma pdet_result {A} (r : PyErr + A) : pdet (result r).
Proof. intros w1 w2 H. unfold result. destruct r; auto. Qed.

Ltac pdet_step :=
  lazymatch goal with
  | |- pdet (pret _) => apply pdet_pret
  | |- pdet (result _) => apply pdet_result
  | |- pdet (raise _) => apply pdet_raise
  | |- pdet (lift _) => apply pdet_lift; solve [det_auto]
  | |- pdet (pbind _ _) => apply pdet_pbind; [|intros ?]
  | |- pdet (pfor_each _ _ _) => apply pdet_pfor_each; intros ? ?
  | |- pdet (if ?b then _ else _) => destruct b
  | |- pdet (match ?x with _ => _ end) => destruct x
  end.

Lemma pdet_services customers_df plans_df :
  pdet (generate_customer_services customers_df plans_df).
Proof.
  unfold generate_customer_services, customer_services.
  repeat pdet_step.
Qed.

Lemma pdet_usage services_df : pdet (generate_usage_data services_df).
Proof.
  unfold generate_usage_data, usage_service_step, usage_month_step.
  repeat pdet_step.
Qed.

Lemma pdet_metrics customers_df services_df billing_df tickets_df nps_df :
  pdet (calculate_customer_metrics customers_df services_df billing_df
          tickets_df nps_df).
Proof.
  unfold calculate_customer_metrics, customer_metric, where_customer.
  repeat pdet_step.
Qed.

Lemma pdet_generate_all_data self : pdet (generate_all_data self).
Proof.
  unfold generate_all_data.
  repeat first [ apply pdet_services | apply pdet_usage | apply pdet_metrics
               | pdet_step ].
Qed.

(** C1 (the claim as stated fails): two runs for three customers with the
    same three seeds, started one day apart, both return, and their billing
    tables differ. *)
Lemma clock_changes_tables :
  py_rng (world0 1762000000000000) = py_rng (world0 1762086400000000) /\
  np_rng (world0 1762000000000000) = np_rng (world0 1762086400000000) /\
  fk_rng (world0 1762000000000000) = fk_rng (world0 1762086400000000) /\
  exists t1 t2,
    run (generate_all_data (init (Some 3))) (world0 1762000000000000) = inr t1 /\
    run (generate_all_data (init (Some 3))) (world0 1762086400000000) = inr t2 /\
    List.length (billing t1) = 36%nat /\
    option_map Billing.bill_date (hd_error (billing t1)) = Some 1762000000000045 /\
    option_map Billing.bill_date (hd_error (billing t2)) = Some 1762086400000045 /\
    billing t1 <> billing t2.
Proof.
  split; [reflexivity|]. split; [reflexivity|]. split; [reflexivity|].
  eexists. eexists.
  split; [vm_compute; reflexivity|]. split; [vm_compute; reflexivity|].
  split; [reflexivity|]. split; [reflexivity|]. split; [reflexivity|].
  intros E. apply (f_equal (fun l => option_map Billing.bill_date (hd_error l))) in E.
  vm_compute in E. discriminate E.
Qed.

(* ------------------------------------------------------------------ *)
(** ** Further properties: customers *)

Lemma concat_rows {A R} (P : A -> R -> Prop) xs (blks : list (list R)) :
  Forall2 (fun x blk => exists r, blk = [r] /\ P x r) xs blks ->
  Forall2 P xs (List.concat blks).
Proof.
  induction 1 as [|x blk xs blks (r & -> & Hr) _ IH]; simpl; constructor; auto.
Qed.

Lemma new_customer_fields i :
  returns (new_customer i)
    (fun c => Customer.customer_id c = customer_ref i /\ customer_fields c).
Proof.
  unfold new_customer.
  do 5 (apply returns_bind_any; intros ?).
  eapply returns_bind; [apply choice_in|]. intros gender Hg.
  do 5 (apply returns_bind_any; intros ?).
  eapply returns_bind; [apply choice_in|]. intros segment Hseg.
  eapply returns_bind; [apply choices_in|]. intros status Hst.
  eapply returns_bind; [apply choice_in|]. intros contact Hc.
  eapply returns_bind; [apply randint_range; lia|]. intros credit Hcr.
  eapply returns_bind; [apply randint_range; lia|]. intros income Hin.
  apply returns_ret. unfold customer_fields. cbn [Customer.customer_id
    Customer.country Customer.gender Customer.customer_segment
    Customer.account_status Customer.preferred_contact_method
    Customer.credit_score Customer.annual_income].
  repeat split; try assumption; try reflexivity; apply Hcr || apply Hin.
Qed.

(** X1: [generate_customer_demographics] returns max(N, 0) rows whose ids
    are CUST_000001, CUST_000002, ... in order, hence pairwise distinct, and
    every row has country USA, gender, segment, status and contact method
    from their lists, a credit score in 300..850 and an income in
    25000..200000. *)
Theorem customers_frame (self : TelcoDataGenerator) (w : World) :
  let customers_df := fst (generate_customer_demographics self w) in
  List.length customers_df = Z.to_nat (Z.max (num_customers self) 0) /\
  map Customer.customer_id customers_df
  = map (fun i => "CUST_" ++ Str.fmt_d0 6 (i + 1)) (seq 0 (List.length customers_df)) /\
  NoDup (map Customer.customer_id customers_df) /\
  Forall customer_fields customers_df.
Proof.
  intros customers_df.
  pose proof (customers_count self w) as Hlen. fold customers_df in Hlen.
  pose proof (customers_ids self w) as Hids. fold customers_df in Hids.
  split; [rewrite Hlen; lia|]. split; [|split].
  - rewrite Hids, Hlen. reflexivity.
  - apply customers_NoDup.
  - unfold customers_df, generate_customer_demographics.
    apply for_each_invariant; [|constructor].
    intros acc i _ Hacc. eapply returns_bind; [apply new_customer_fields|].
    intros c [_ Hc]. apply returns_ret. apply Forall_app. split; [exact Hacc|].
    constructor; [exact Hc|constructor].
Qed.

(* ------------------------------------------------------------------ *)
(** ** Further properties: subscriptions *)

Lemma date_between_dates_from d1 d2 :
  returns (Faker.date_between_dates d1 d2)
    (fun d => d1 <= d /\ (d1 <= d2 -> d <= d2)).
Proof.
  intros w. unfold Faker.date_between_dates, bind, ret.
  cbn [fst Faker.word draw].
  pose proof (Z.mod_pos_bound (tape (fk_rng w) (pos (fk_rng w)))
                (Z.max 1 (d2 - d1 + 1))) as H.
  split; intros; lia.
Qed.

Lemma date_between_today_from d :
  returns (Faker.date_between_today d) (fun x => d <= x).
Proof.
  unfold Faker.date_between_today. apply returns_bind_any. intros t.
  eapply returns_weaken; [apply date_between_dates_from|]. cbv beta. tauto.
Qed.

Lemma new_service_row c services p :
  returns (new_service c services p) (svc_row c p).
Proof.
  unfold new_service.
  eapply returns_bind; [apply date_between_today_from|]. intros start Hstart.
  eapply returns_bind; [apply choices_in|]. intros status Hst.
  apply returns_bind_any; intros auto_pay.
  eapply returns_bind; [apply choice_in|]. intros contract Hc.
  apply returns_bind_any; intros r.
  apply returns_bind
    with (P := fun fee : Q => (0 <= fee /\ fee <= 200)%Q).
  - destruct (Num.Qltb r 0.3).
    + apply uniform_range. discriminate.
    + apply returns_ret. split; discriminate.
  - intros fee Hfee. apply returns_ret.
    unfold svc_row, svc_of, service_fields. cbn. auto 10.
Qed.

Lemma returns_conj {A} (m : St A) (P Q : A -> Prop) :
  returns m P -> returns m Q -> returns m (fun a => P a /\ Q a).
Proof. intros HP HQ w. split; [apply HP|apply HQ]. Qed.

Lemma take_nth_NoDup {A B} (f : A -> B) i (l : list A) x rest :
  Numpy.take_nth i l = Some (x, rest) ->
  NoDup (map f l) ->
  NoDup (map f rest) /\ ~ In (f x) (map f rest).
Proof.
  revert i x rest. induction l as [|y l IH]; intros i x rest; simpl; [discriminate|].
  destruct i as [|i].
  - intros [= -> ->] Hnd. inversion Hnd; subst. auto.
  - destruct (Numpy.take_nth i l) as [[z r]|] eqn:E; [|discriminate].
    intros [= -> <-] Hnd. inversion Hnd as [|? ? Hy Hnd']; subst.
    destruct (IH _ _ _ E Hnd') as [Hr Hx].
    destruct (take_nth_spec _ _ _ _ E) as (Hin & Hincl & _).
    simpl. split.
    + constructor; [|exact Hr]. intros H. apply Hy.
      apply in_map_iff in H. destruct H as (a & Ha & Hain).
      rewrite <- Ha. apply in_map. now apply Hincl.
    + intros [H|H]; [|now apply Hx]. apply Hy. rewrite H. now apply in_map.
Qed.

(** Sampling without replacement never returns the same row twice. *)
Lemma sample_n_NoDup {A B} (f : A -> B) n :
  forall l : list A,
    NoDup (map f l) ->
    returns (Numpy.sample_n n l) (fun picked => NoDup (map f picked)).
Proof.
  induction n as [|n IH]; intros l Hnd; simpl.
  - apply returns_ret. constructor.
  - destruct l as [|y l]; [apply returns_ret; constructor|].
    apply returns_bind_any. intros z.
    destruct (Numpy.take_nth _ (y :: l)) as [[x rest]|] eqn:E;
      [|apply returns_ret; constructor].
    destruct (take_nth_NoDup f _ _ _ _ E Hnd) as [Hrest Hx].
    eapply returns_bind.
    + apply returns_conj; [apply (IH rest Hrest)|apply sample_n_spec].
    + cbv beta. intros picked [Hp [_ Hincl]]. apply returns_ret. simpl.
      constructor; [|exact Hp]. intros H. apply Hx.
      apply in_map_iff in H. destruct H as (a & Ha & Hain).
      rewrite <- Ha. apply in_map. now apply Hincl.
Qed.

Lemma customer_services_rows plans_df services c :
  plans_df <> [] ->
  succeeds (customer_services plans_df services c)
    (fun out => exists blk, out = (services ++ blk)%list /\ cust_rows plans_df c blk).
Proof.
  intros Hne. unfold customer_services.
  apply succeeds_pbind with (P := fun _ => True);
    [apply succeeds_lift; intros w; exact I|]. intros n _.
  destruct (available_plans_columns c plans_df Hne) as (available & Hav).
  eapply succeeds_pbind;
    [apply (succeeds_result _ available (fun a => a = available) Hav eq_refl)|].
  intros ? ->.
  apply succeeds_pbind
    with (P := fun selected =>
                 incl selected available /\
                 (NoDup (map Plan.plan_id available) ->
                  NoDup (map Plan.plan_id selected))).
  - apply succeeds_lift. apply returns_conj.
    + eapply returns_weaken; [apply sample_n_spec|]. cbv beta. tauto.
    + intros w H. exact (sample_n_NoDup Plan.plan_id _ available H w).
  - intros selected [Hincl Hnd]. apply succeeds_lift.
    eapply returns_weaken.
    + apply for_each_blocks
        with (Q := fun p blk => exists s, blk = [s] /\ svc_row c p s).
      intros acc p _. eapply returns_bind; [apply new_service_row|].
      intros s Hs. apply returns_ret. exists [s]. split; [reflexivity|]. eauto.
    + cbv beta. intros out (blks & -> & HF). exists (List.concat blks).
      split; [reflexivity|]. exists available, selected.
      split; [exact Hav|]. split; [exact Hincl|]. split; [exact Hnd|].
      now apply concat_rows.
Qed.

Lemma services_rows customers_df plans_df :
  plans_df <> [] ->
  succeeds (generate_customer_services customers_df plans_df)
    (fun services => exists blks,
       services = List.concat blks /\ Forall2 (cust_rows plans_df) customers_df blks).
Proof.
  intros Hne. unfold generate_customer_services. eapply succeeds_weaken.
  - apply pfor_each_appends with (Q := cust_rows plans_df).
    intros acc c _. now apply customer_services_rows.
  - cbv beta. intros out (blks & -> & HF). exists blks.
    split; [reflexivity|exact HF].
Qed.

Lemma cust_rows_plans plans_df c blk :
  cust_rows plans_df c blk ->
  Forall (fun s => exists p, In p plans_df /\ svc_row c p s) blk.
Proof.
  intros (available & selected & Hav & Hincl & _ & HF).
  pose proof (available_plans_incl _ _ _ Hav) as Hpl.
  clear Hav. induction HF as [|p s ps blk Hs _ IH]; constructor.
  - exists p. split; [|exact Hs]. apply Hpl, Hincl. now left.
  - apply IH. intros a Ha. apply Hincl. now right.
Qed.

(** The rows of each key in a frame assembled from one block per key. *)
Lemma rows_of_key {A R} (key : R -> string) (keyx : A -> string)
  (P : A -> list R -> Prop) xs (blks : list (list R)) :
  Forall2 (fun x blk => Forall (fun r => key r = keyx x) blk /\ P x blk) xs blks ->
  NoDup (map keyx xs) ->
  Forall (fun x => P x (filter (fun r => (key r =? keyx x)%string) (List.concat blks)))
         xs.
Proof.
  intros HF Hnd.
  assert (Hown : Forall2 (fun x blk => Forall (fun r => key r = keyx x) blk) xs blks).
  { eapply Forall2_impl; [|exact HF]. cbv beta. tauto. }
  pose proof (filter_block key keyx _ _ Hown Hnd) as Hrows.
  apply Forall2_left with (ys := blks).
  eapply Forall2_impl; [|exact (Forall2_conj _ _ _ _ Hrows HF)].
  cbv beta. intros x blk [-> [_ HP]]. exact HP.
Qed.

Lemma cust_rows_owner plans_df c blk :
  cust_rows plans_df c blk ->
  Forall (fun s => Service.customer_id s = Customer.customer_id c) blk.
Proof.
  intros (available & selected & _ & _ & _ & HF).
  induction HF as [|p s ps blk Hs _ IH]; constructor; [|exact IH].
  destruct Hs as [Hs _]. apply Hs.
Qed.

(** X2: the subscriptions frame numbers its rows SVC_00000001,
    SVC_00000002, ... across the whole run, so service ids are distinct;
    every row belongs to a customer of the input frame, copies plan_id,
    plan_name, service_type and monthly_fee from one catalog plan, and has
    a status among Active/Suspended/Cancelled, a contract length among
    12/24/0 and an early termination fee between 0 and 200. *)
Theorem services_frame (customers_df : list Customer.t) (w : World) :
  exists services w1,
    generate_customer_services customers_df generate_service_plans w
    = inr (services, w1) /\
    map Service.service_id services
    = map (fun i => "SVC_" ++ Str.fmt_d0 8 (i + 1)) (seq 0 (List.length services)) /\
    NoDup (map Service.service_id services) /\
    Forall (fun s =>
              In (Service.customer_id s) (map Customer.customer_id customers_df) /\
              (exists p, In p generate_service_plans /\
                 Service.plan_id s = Plan.plan_id p /\
                 Service.plan_name s = Plan.plan_name p /\
                 Service.service_type s = Plan.service_type p /\
                 Service.monthly_fee s = Plan.monthly_fee p) /\
              service_fields s)
           services.
Proof.
  destruct (services_rows customers_df generate_service_plans catalog_columns w)
    as (services & w1 & E & blks & Hs & HF).
  exists services, w1. split; [exact E|].
  split; [exact (services_ids _ _ _ _ _ E)|].
  split; [exact (services_NoDup _ _ _ _ _ E)|].
  rewrite Hs. clear E Hs.
  induction HF as [|c blk cs blks Hb _ IH]; simpl; [constructor|].
  apply Forall_app. split.
  - eapply Forall_impl; [|exact (cust_rows_plans _ _ _ Hb)]. cbv beta.
    intros s (p & Hp & (Hc & Hid & Hname & Hty & Hfee) & Hf & _).
    split; [left; now symmetry|]. split; [|exact Hf]. exists p. auto.
  - eapply Forall_impl; [|exact IH]. cbv beta.
    intros s (Hc & H). split; [now right|exact H].
Qed.

Lemma NoDup_map_filter {A B} (f : A -> B) (g : A -> bool) (l : list A) :
  NoDup (map f l) -> NoDup (map f (filter g l)).
Proof.
  induction l as [|x l IH]; simpl; intros Hnd; [constructor|].
  inversion Hnd as [|? ? Hx Hnd']; subst.
  destruct (g x); simpl; [|now apply IH].
  constructor; [|now apply IH]. intros H. apply Hx.
  apply in_map_iff in H. destruct H as (a & Ha & Hin).
  rewrite <- Ha. apply in_map. apply filter_In in Hin. tauto.
Qed.

Lemma available_plans_NoDup c plans_df available :
  NoDup (map Plan.plan_id plans_df) ->
  available_plans c plans_df = inr available ->
  NoDup (map Plan.plan_id available).
Proof.
  intros Hnd. unfold available_plans, where_plan_name.
  destruct (_ =? _)%string.
  - destruct plans_df as [|p ps] eqn:E; [discriminate|]. rewrite <- E in *.
    intros [= <-]. now apply NoDup_map_filter.
  - destruct (_ =? _)%string.
    + destruct plans_df as [|p ps] eqn:E; [discriminate|]. rewrite <- E in *.
      intros [= <-]. now apply NoDup_map_filter.
    + intros [= <-]. exact Hnd.
Qed.

Lemma catalog_ids_NoDup : NoDup (map Plan.plan_id generate_service_plans).
Proof.
  cbn [map generate_service_plans Plan.plan_id].
  repeat (constructor; [cbn [In]; intuition discriminate|]). constructor.
Qed.

Lemma available_plans_enterprise c plans_df available :
  Customer.customer_segment c = "Enterprise" ->
  available_plans c plans_df = inr available ->
  Forall (fun p => Str.contains_any enterprise_words (Plan.plan_name p) = true)
         available.
Proof.
  intros Hseg. unfold available_plans, where_plan_name. rewrite Hseg.
  cbn [String.eqb Ascii.eqb Bool.eqb].
  destruct plans_df as [|p ps] eqn:E; [discriminate|]. rewrite <- E.
  intros [= <-]. apply Forall_forall. intros q Hq.
  apply filter_In in Hq. apply Hq.
Qed.

Lemma available_plans_small_business c plans_df available :
  Customer.customer_segment c = "Small Business" ->
  available_plans c plans_df = inr available ->
  Forall (fun p => Str.contains "Basic" (Plan.plan_name p) = false) available.
Proof.
  intros Hseg. unfold available_plans, where_plan_name. rewrite Hseg.
  cbn [String.eqb Ascii.eqb Bool.eqb].
  destruct plans_df as [|p ps] eqn:E; [discriminate|]. rewrite <- E.
  intros [= <-]. apply Forall_forall. intros q Hq.
  apply filter_In in Hq. destruct Hq as [_ Hq].
  now apply negb_true_iff in Hq.
Qed.

(** Each generated customer's rows in the subscriptions frame are the rows
    built for that customer. *)
Lemma portfolio_rows (self : TelcoDataGenerator) (w w' : World) :
  let customers_df := fst (generate_customer_demographics self w) in
  exists services w1,
    generate_customer_services customers_df generate_service_plans w'
    = inr (services, w1) /\
    Forall (fun c => cust_rows generate_service_plans c
                       (own Service.customer_id c services))
           customers_df.
Proof.
  intros customers_df.
  destruct (services_rows customers_df generate_service_plans catalog_columns w')
    as (services & w1 & E & blks & -> & HF).
  exists (List.concat blks), w1. split; [exact E|].
  apply (rows_of_key Service.customer_id Customer.customer_id
           (cust_rows generate_service_plans)).
  - eapply Forall2_impl; [|exact HF]. cbv beta. intros c blk Hb.
    split; [exact (cust_rows_owner _ _ _ Hb)|exact Hb].
  - apply customers_NoDup.
Qed.

Lemma cust_rows_plan_ids plans_df c blk :
  cust_rows plans_df c blk ->
  exists selected,
    map Service.plan_id blk = map Plan.plan_id selected /\
    map Service.plan_name blk = map Plan.plan_name selected /\
    (NoDup (map Plan.plan_id plans_df) -> NoDup (map Plan.plan_id selected)) /\
    (Customer.customer_segment c = "Enterprise" ->
     Forall (fun p => Str.contains_any enterprise_words (Plan.plan_name p) = true)
            selected) /\
    (Customer.customer_segment c = "Small Business" ->
     Forall (fun p => Str.contains "Basic" (Plan.plan_name p) = false) selected).
Proof.
  intros (available & selected & Hav & Hincl & Hnd & HF). exists selected.
  assert (Hsub : forall P : Plan.t -> Prop, Forall P available -> Forall P selected).
  { intros P HP. rewrite Forall_forall in *. auto. }
  split; [|split; [|split; [|split]]].
  - clear -HF. induction HF as [|p s ps blk (Hs & _) _ IH]; simpl; [reflexivity|].
    destruct Hs as (_ & Hid & _). now rewrite Hid, IH.
  - clear -HF. induction HF as [|p s ps blk (Hs & _) _ IH]; simpl; [reflexivity|].
    destruct Hs as (_ & _ & Hname & _). now rewrite Hname, IH.
  - intros H. apply Hnd. exact (available_plans_NoDup _ _ _ H Hav).
  - intros Hseg. apply Hsub. exact (available_plans_enterprise _ _ _ Hseg Hav).
  - intros Hseg. apply Hsub. exact (available_plans_small_business _ _ _ Hseg Hav).
Qed.

(** X3: plans are sampled without replacement, so no generated customer
    holds two subscriptions to the same plan. *)
Theorem no_plan_twice (self : TelcoDataGenerator) (w w' : World) :
  let customers_df := fst (generate_customer_demographics self w) in
  exists services w1,
    generate_customer_services customers_df generate_service_plans w'
    = inr (services, w1) /\
    Forall (fun c => NoDup (map Service.plan_id (own Service.customer_id c services)))
           customers_df.
Proof.
  intros customers_df.
  destruct (portfolio_rows self w w') as (services & w1 & E & HF).
  exists services, w1. split; [exact E|].
  eapply Forall_impl; [|exact HF]. cbv beta. intros c Hb.
  destruct (cust_rows_plan_ids _ _ _ Hb) as (selected & -> & _ & Hnd & _).
  apply Hnd, catalog_ids_NoDup.
Qed.

(** X4: the segment filter is respected in the output: every subscription
    of an Enterprise customer is to a plan whose name contains Business,
    Premium, Ultimate, Pro or Gigabit, and no subscription of a Small
    Business customer is to a plan whose name contains Basic. *)
Theorem segment_filter_respected (self : TelcoDataGenerator) (w w' : World) :
  let customers_df := fst (generate_customer_demographics self w) in
  exists services w1,
    generate_customer_services customers_df generate_service_plans w'
    = inr (services, w1) /\
    Forall (fun c =>
              let rows := own Service.customer_id c services in
              (Customer.customer_segment c = "Enterprise" ->
               Forall (fun s =>
                         Str.contains_any
                           ["Business"; "Premium"; "Ultimate"; "Pro"; "Gigabit"]
                           (Service.plan_name s) = true) rows) /\
              (Customer.customer_segment c = "Small Business" ->
               Forall (fun s => Str.contains "Basic" (Service.plan_name s) = false)
                      rows))
           customers_df.
Proof.
  intros customers_df.
  destruct (portfolio_rows self w w') as (services & w1 & E & HF).
  exists services, w1. split; [exact E|].
  eapply Forall_impl; [|exact HF]. cbv beta zeta. intros c Hb.
  destruct (cust_rows_plan_ids _ _ _ Hb) as (selected & _ & Hnames & _ & He & Hs).
  assert (Hname : forall P : string -> Prop,
             Forall (fun p => P (Plan.plan_name p)) selected ->
             Forall (fun s => P (Service.plan_name s))
                    (own Service.customer_id c services)).
  { intros P HP. apply Forall_map with (f := Service.plan_name) (P := P).
    rewrite Hnames. now apply Forall_map. }
  split; intros Hseg.
  - apply (Hname (fun n => Str.contains_any enterprise_words n = true)). now apply He.
  - apply (Hname (fun n => Str.contains "Basic" n = false)). now apply Hs.
Qed.

(** X5: every subscription of a generated customer starts on or after the
    customer's account creation date. *)
Theorem service_starts_after_creation (self : TelcoDataGenerator) (w w' : World) :
  let customers_df := fst (generate_customer_demographics self w) in
  exists services w1,
    generate_customer_services customers_df generate_service_plans w'
    = inr (services, w1) /\
    Forall (fun c =>
              Forall (fun s => Customer.account_creation_date c
                               <= Service.service_start_date s)
                     (own Service.customer_id c services))
           customers_df.
Proof.
  intros customers_df.
  destruct (portfolio_rows self w w') as (services & w1 & E & HF).
  exists services, w1. split; [exact E|].
  eapply Forall_impl; [|exact HF]. cbv beta. intros c Hb.
  destruct Hb as (available & selected & _ & _ & _ & H).
  induction H as [|p s ps blk (_ & _ & Hs) _ IH]; constructor; auto.
Qed.

(* ------------------------------------------------------------------ *)
(** ** Further properties: usage *)

Local Open Scope Q_scope.

Lemma Qltb_lt x y : Num.Qltb x y = true <-> x < y.
Proof.
  unfold Num.Qltb. rewrite negb_true_iff. split.
  - intros H. apply Qnot_le_lt. intros Hle. apply Qle_bool_iff in Hle. congruence.
  - intros H. destruct (Qle_bool y x) eqn:E; [|reflexivity].
    apply Qle_bool_iff in E. exfalso. exact (Qlt_not_le _ _ H E).
Qed.

Lemma Qltb_ge x y : Num.Qltb x y = false <-> y <= x.
Proof.
  unfold Num.Qltb. rewrite negb_false_iff. apply Qle_bool_iff.
Qed.

Lemma py_max_l a b : a <= Num.py_max a b.
Proof.
  unfold Num.py_max. destruct (Num.Qltb a b) eqn:E.
  - apply Qltb_lt in E. now apply Qlt_le_weak.
  - apply Qle_refl.
Qed.

Lemma py_max_r a b : b <= Num.py_max a b.
Proof.
  unfold Num.py_max. destruct (Num.Qltb a b) eqn:E.
  - apply Qle_refl.
  - now apply Qltb_ge in E.
Qed.

Lemma py_maxZ_l a b : (a <= Num.py_maxZ a b)%Z.
Proof. unfold Num.py_maxZ. destruct (Z.ltb_spec a b); lia. Qed.

Lemma round_half_even_nonneg x : 0 <= x -> (0 <= Num.round_half_even x)%Z.
Proof.
  intros H. pose proof (round_half_even_floor x).
  assert (0 <= Qfloor x)%Z; [|lia].
  change 0%Z with (Qfloor 0). now apply Qfloor_resp_le.
Qed.

Lemma py_round_nonneg x nd : 0 <= x -> 0 <= Num.py_round x nd.
Proof.
  intros H. unfold Num.py_round.
  assert (Hs : 0 < inject_Z (10 ^ Z.of_nat nd)).
  { change 0 with (inject_Z 0). rewrite <- Zlt_Qlt. apply Z.pow_pos_nonneg; lia. }
  apply Qle_shift_div_l; [exact Hs|]. rewrite Qmult_0_l.
  change 0 with (inject_Z 0). rewrite <- Zle_Qle.
  apply round_half_even_nonneg. apply Qmult_le_0_compat; [exact H|].
  now apply Qlt_le_weak.
Qed.

Local Close Scope Q_scope.

Lemma usage_dispatch_values service usage_date :
  In (Service.service_type service) service_types ->
  returns (usage_dispatch service usage_date)
    (fun built => exists u, built = Some u /\ usage_row service u).
Proof.
  unfold service_types, usage_dispatch.
  intros [H|[H|[H|[]]]]; rewrite <- H;
    cbn [String.eqb Ascii.eqb Bool.eqb].
  - do 3 (apply returns_bind_any; intros ?).
    apply returns_ret. eexists. split; [reflexivity|].
    unfold usage_row. cbn [Usage.service_id Usage.customer_id usage_kind usage_values].
    split; [reflexivity|]. split; [reflexivity|]. split; [exact H|].
    split; [apply py_round_nonneg, py_max_l|].
    split; [apply py_maxZ_l|]. split; [apply py_maxZ_l|].
    destruct (Num.Qltb 25 _); [apply py_max_l|apply Qle_refl].
  - do 3 (apply returns_bind_any; intros ?).
    apply returns_ret. eexists. split; [reflexivity|].
    unfold usage_row. cbn [Usage.service_id Usage.customer_id usage_kind usage_values].
    split; [reflexivity|]. split; [reflexivity|]. split; [exact H|].
    split; [apply py_round_nonneg, py_max_l|apply py_max_l].
  - do 2 (apply returns_bind_any; intros ?).
    eapply returns_bind; [apply choices_in|]. cbn [map fst]. intros k Hk.
    apply returns_ret. eexists. split; [reflexivity|].
    unfold usage_row. cbn [Usage.service_id Usage.customer_id usage_kind usage_values].
    split; [reflexivity|]. split; [reflexivity|]. split; [exact H|].
    split; [apply py_maxZ_l|]. split; [apply py_maxZ_l|].
    exists k. split; [|reflexivity].
    repeat (destruct Hk as [<-|Hk]; [lia|]). contradiction.
Qed.

Lemma usage_month_step_row service st month_offset w :
  In (Service.service_type service) service_types ->
  exists u w',
    usage_month_step service st month_offset w = inr ((fst st ++ [u])%list, Some u, w') /\
    usage_row service u.
Proof.
  intros Hty.
  destruct (usage_month_step_fresh service st month_offset w Hty)
    as (u & w' & E & Hd & _).
  exists u, w'. split; [exact E|].
  match type of Hd with
  | fst (usage_dispatch _ ?d ?w1) = _ =>
      destruct (usage_dispatch_values service d Hty w1) as (u' & Hu' & Hrow)
  end.
  rewrite Hd in Hu'. injection Hu' as <-. exact Hrow.
Qed.

Lemma usage_rows_blocks services_df w :
  Forall (fun s => In (Service.service_type s) service_types) services_df ->
  exists usage_df w' blks,
    generate_usage_data services_df w = inr (usage_df, w') /\
    usage_df = List.concat blks /\
    Forall2 (fun s blk => Forall (usage_row s) blk) services_df blks.
Proof.
  intros Hty. unfold generate_usage_data, pbind.
  destruct (pfor_each_blocks usage_service_step fst
              (fun s blk => Forall (usage_row s) blk) services_df)
    with (st := (@nil Usage.t, @None Usage.t)) (w := w)
    as (st' & w' & blks & -> & Hp & HF).
  { intros st s w0 Hs. rewrite Forall_forall in Hty. specialize (Hty s Hs).
    unfold usage_service_step.
    destruct (Service.service_status s =? "Active")%string.
    - destruct (pfor_each_blocks (usage_month_step s) fst
                  (fun (_ : nat) blk => exists u, blk = [u] /\ usage_row s u)
                  (range 12)) with (st := st) (w := w0)
        as (st1 & w1 & blks & Hrun & Hp & HF).
      { intros st0 k w2 _.
        destruct (usage_month_step_row s st0 k w2 Hty) as (u & w3 & -> & Hu).
        exists ((fst st0 ++ [u])%list, Some u), w3, [u]. simpl. eauto. }
      exists st1, w1, (List.concat blks). split; [exact Hrun|]. split; [exact Hp|].
      apply concat_Forall with (xs := range 12).
      eapply Forall2_impl; [|exact HF]. cbv beta.
      intros k blk (u & -> & Hu). constructor; [exact Hu|constructor].
    - exists st, w0, []. rewrite app_nil_r. repeat split. constructor. }
  exists (fst st'), w', blks. repeat split; [exact Hp|exact HF].
Qed.

(** X6: every usage row of the generated subscriptions has the shape of its
    subscription's service type and carries its customer id; data used,
    minutes, texts, overage charges and hours watched are never negative,
    uptime is at least 95, channels watched at least 1, and pay-per-view
    purchases are 0, 1, 2 or 3 times 4.99. *)
Theorem usage_rows_in_range (customers_df : list Customer.t) (w w' : World) :
  exists services w1 usage_df wf,
    generate_customer_services customers_df generate_service_plans w
    = inr (services, w1) /\
    generate_usage_data services w' = inr (usage_df, wf) /\
    Forall usage_values usage_df /\
    Forall (fun s =>
              Forall (fun u => usage_kind u = Service.service_type s /\
                               Usage.customer_id u = Service.customer_id s)
                     (filter (fun u => (Usage.service_id u =? Service.service_id s)%string)
                             usage_df))
           services.
Proof.
  destruct (catalog_services customers_df w) as (services & w1 & E & _ & Hnd & _).
  pose proof (catalog_services_types _ _ _ _ E) as Hty.
  destruct (usage_rows_blocks services w' Hty) as (usage_df & wf & blks & Hrun & -> & HF).
  exists services, w1, (List.concat blks), wf.
  split; [exact E|]. split; [exact Hrun|]. split.
  - apply concat_Forall with (xs := services).
    eapply Forall2_impl; [|exact HF]. cbv beta. intros s blk H.
    eapply Forall_impl; [|exact H]. unfold usage_row. tauto.
  - apply (rows_of_key Usage.service_id Service.service_id
             (fun s rows => Forall (fun u => usage_kind u = Service.service_type s /\
                                             Usage.customer_id u = Service.customer_id s)
                                   rows)); [|exact Hnd].
    eapply Forall2_impl; [|exact HF]. cbv beta. intros s blk H.
    split; eapply Forall_impl; try exact H; unfold usage_row; tauto.
Qed.

(* ------------------------------------------------------------------ *)
(** ** Further properties: billing *)

Local Open Scope Q_scope.

(** Rounding moves a number by at most one half. *)
Lemma round_half_even_near x :
  x - (1 # 2) <= inject_Z (Num.round_half_even x) /\
  inject_Z (Num.round_half_even x) <= x + (1 # 2).
Proof.
  unfold Num.round_half_even.
  pose proof (Qfloor_le x) as Hlo. pose proof (Qlt_floor x) as Hhi.
  rewrite inject_Z_plus in Hhi. change (inject_Z 1) with 1 in Hhi.
  destruct (Qcompare (x - inject_Z (Qfloor x)) (1 # 2)) eqn:C.
  - apply Qeq_alt in C. destruct (Z.even (Qfloor x));
      rewrite ?inject_Z_plus; change (inject_Z 1) with 1; split; lra.
  - apply Qlt_alt in C. split; lra.
  - apply Qgt_alt in C. rewrite inject_Z_plus. change (inject_Z 1) with 1.
    split; lra.
Qed.

(** [round(x, 2)] is within half a cent of [x]. *)
Lemma py_round_cents x :
  x - (1 # 200) <= Num.py_round x 2 /\ Num.py_round x 2 <= x + (1 # 200).
Proof.
  unfold Num.py_round. change (inject_Z (10 ^ Z.of_nat 2)) with 100.
  destruct (round_half_even_near (x * 100)) as [Hlo Hhi].
  set (r := inject_Z (Num.round_half_even (x * 100))) in *.
  split.
  - apply Qle_shift_div_l; [reflexivity|]. lra.
  - apply Qle_shift_div_r; [reflexivity|]. lra.
Qed.

Lemma new_bill_amounts service month_offset :
  returns (new_bill service month_offset)
    (fun b => Billing.service_id b = Service.service_id service /\
              bill_amounts service b).
Proof.
  unfold new_bill.
  apply returns_bind_any; intros now.
  eapply returns_bind; [apply (uniform_range 2 8); discriminate|].
  cbv beta. intros fees [Hf2 Hf8].
  apply returns_bind_any; intros r.
  set (fee := Service.monthly_fee service).
  apply returns_bind
    with (P := fun total => fee + fee * 0.08 + 2 <= total /\
                            total <= fee + fee * 0.08 + 58).
  - destruct (Num.Qltb r 0.15).
    + eapply returns_bind; [apply (uniform_range 10 50); discriminate|].
      cbv beta. intros extra [He Hx]. apply returns_ret. split; lra.
    + apply returns_ret. split; lra.
  - cbv beta. intros total [Hlo Hhi]. do 2 (apply returns_bind_any; intros ?).
    eapply returns_bind; [apply choice_in|]. intros method Hm.
    apply returns_ret. unfold bill_amounts.
    cbn [Billing.service_id Billing.customer_id Billing.payment_method
         Billing.amount_due].
    destruct (py_round_cents total) as [Hr1 Hr2]. fold fee.
    split; [reflexivity|]. split; [reflexivity|]. split; [exact Hm|].
    split; lra.
Qed.

Local Close Scope Q_scope.

(** The billing frame, one block of rows per subscription, every row built
    by [new_bill] for that subscription. *)
Lemma billing_blocks_of (P : Service.t -> Billing.t -> Prop) :
  (forall s k, returns (new_bill s k) (P s)) ->
  forall services_df,
    returns (generate_billing_data services_df)
      (fun billing => exists blks, billing = List.concat blks /\
         Forall2 (fun s blk => Forall (P s) blk) services_df blks).
Proof.
  intros HP services_df. unfold generate_billing_data. eapply returns_weaken.
  - apply for_each_blocks with (Q := fun s blk => Forall (P s) blk).
    intros acc s _. unfold service_bills. eapply returns_weaken.
    + apply for_each_blocks
        with (Q := fun (_ : nat) blk => exists b, blk = [b] /\ P s b).
      intros acc' k _. eapply returns_bind; [apply HP|].
      intros b Hb. apply returns_ret. exists [b]. eauto.
    + cbv beta. intros out (blks & -> & HF). exists (List.concat blks).
      split; [reflexivity|]. apply concat_Forall with (xs := range 12).
      eapply Forall2_impl; [|exact HF]. cbv beta.
      intros k blk (b & -> & Hb). constructor; [exact Hb|constructor].
  - cbv beta. intros out (blks & -> & HF). exists blks.
    split; [reflexivity|exact HF].
Qed.

(** X7: every bill of a generated subscription carries the subscription's
    customer id and a payment method among Credit Card, Bank Transfer, Check
    and Auto Pay; its amount due exceeds the monthly fee, and lies within
    half a cent of the fee plus 8% tax plus an amount between 2 and 58. *)
Theorem bills_amounts_in_range (customers_df : list Customer.t) (w w' : World) :
  exists services w1,
    generate_customer_services customers_df generate_service_plans w
    = inr (services, w1) /\
    Forall (fun s =>
              Forall (fun b =>
                        Billing.customer_id b = Service.customer_id s /\
                        In (Billing.payment_method b)
                           ["Credit Card"; "Bank Transfer"; "Check"; "Auto Pay"] /\
                        (Service.monthly_fee s < Billing.amount_due b)%Q /\
                        (Service.monthly_fee s * 1.08 + 2 - 0.005
                         <= Billing.amount_due b)%Q /\
                        (Billing.amount_due b
                         <= Service.monthly_fee s * 1.08 + 8 + 50 + 0.005)%Q)
                     (filter (fun b => (Billing.service_id b =? Service.service_id s)%string)
                             (fst (generate_billing_data services w'))))
           services.
Proof.
  destruct (catalog_services customers_df w) as (services & w1 & E & _ & Hnd & _).
  pose proof (catalog_services_fees _ _ _ _ E) as Hfees.
  exists services, w1. split; [exact E|].
  destruct (billing_blocks_of
              (fun s b => Billing.service_id b = Service.service_id s /\
                          bill_amounts s b)
              new_bill_amounts services w') as (blks & -> & HF).
  assert (HF' : Forall2 (fun s blk =>
                  Forall (fun b => Billing.service_id b = Service.service_id s) blk /\
                  ((0 <= Service.monthly_fee s)%Q -> Forall (bill_amounts s) blk))
                services blks).
  { eapply Forall2_impl; [|exact HF]. cbv beta. intros s blk H.
    split; [|intros _]; eapply Forall_impl; try exact H; cbv beta; tauto. }
  pose proof (rows_of_key Billing.service_id Service.service_id
                (fun s rows => (0 <= Service.monthly_fee s)%Q ->
                               Forall (bill_amounts s) rows)
                services blks HF' Hnd) as Hrows.
  rewrite Forall_forall in Hrows, Hfees. apply Forall_forall. intros s Hs.
  eapply Forall_impl; [|exact (Hrows s Hs (Hfees s Hs))]. cbv beta.
  intros b (Hc & Hm & Hlo & Hhi). specialize (Hfees s Hs).
  split; [exact Hc|]. split; [exact Hm|]. repeat split; lra.
Qed.

(* ------------------------------------------------------------------ *)
(** ** Further properties: tickets and surveys *)

Lemma new_ticket_row c tickets :
  returns (new_ticket c tickets)
    (fun t => Ticket.ticket_id t = ticket_ref (List.length tickets) /\ ticket_row c t).
Proof.
  unfold new_ticket.
  eapply returns_bind; [apply date_between_today_from|]. intros d Hd.
  eapply returns_bind; [apply choice_in|]. intros issue Hi.
  eapply returns_bind; [apply (uniform_range 1 24); discriminate|]. intros h1 H1.
  eapply returns_bind; [apply (uniform_range 2 72); discriminate|]. intros h2 H2.
  eapply returns_bind; [apply (uniform_range 0.5 8); discriminate|]. intros h3 H3.
  eapply returns_bind; [apply (uniform_range 4 48); discriminate|]. intros h4 H4.
  eapply returns_bind; [apply (uniform_range 0.5 4); discriminate|]. intros h5 H5.
  eapply returns_bind; [apply choices_in|]. intros priority Hp.
  eapply returns_bind; [apply choices_in|]. intros status Hs.
  eapply returns_bind; [apply choices_in|]. intros rating Hr.
  eapply returns_bind; [apply choice_in|]. intros channel Hc.
  eapply returns_bind; [apply randint_range; lia|]. intros agent Ha.
  cbv beta in *. cbn [map fst] in Hp, Hs, Hr.
  assert (Hrating : 1 <= rating <= 5).
  { repeat (destruct Hr as [<-|Hr]; [lia|]). contradiction. }
  apply returns_ret. unfold ticket_row, ticket_fields, resolution_ranges.
  cbn [Ticket.customer_id Ticket.ticket_id Ticket.creation_date Ticket.issue_type
       Ticket.priority Ticket.status Ticket.resolution_time_hours
       Ticket.satisfaction_rating Ticket.channel Ticket.agent_id].
  split; [reflexivity|]. split; [reflexivity|]. split; [exact Hd|].
  split; [|split; [exact Hp|split; [exact Hs|split; [exact Hrating|split;
    [exact Hc|exists agent; split; [exact Ha|reflexivity]]]]]].
  destruct Hi as [<-|[<-|[<-|[<-|[<-|[]]]]]];
    cbn [lookup fst snd String.eqb Ascii.eqb Bool.eqb].
  - exists 1%Q, 24%Q. split; [now left|exact H1].
  - exists 2%Q, 72%Q. split; [right; now left|exact H2].
  - exists 0.5%Q, 8%Q. split; [do 2 right; now left|exact H3].
  - exists 4%Q, 48%Q. split; [do 3 right; now left|exact H4].
  - exists 0.5%Q, 4%Q. split; [do 4 right; now left|exact H5].
Qed.

Lemma new_survey_row c surveys :
  returns (new_survey c surveys)
    (fun s => Survey.survey_id s = survey_ref (List.length surveys) /\ survey_row c s).
Proof.
  unfold new_survey.
  eapply returns_bind; [apply date_between_today_from|]. intros d Hd.
  eapply returns_bind; [apply choices_in|]. intros score Hs.
  do 2 (apply returns_bind_any; intros ?).
  cbv beta in *. cbn [map fst] in Hs.
  assert (Hscore : 0 <= score <= 10).
  { repeat (destruct Hs as [<-|Hs]; [lia|]). contradiction. }
  apply returns_ret. unfold survey_row, survey_fields, nps_category.
  cbn [Survey.customer_id Survey.survey_id Survey.survey_date Survey.nps_score
       Survey.category].
  split; [reflexivity|]. split; [reflexivity|]. split; [exact Hd|].
  split; [exact Hscore|].
  destruct (Z.leb_spec 9 score); [|destruct (Z.leb_spec 7 score)];
    repeat split; intros; try discriminate; try lia; reflexivity.
Qed.

(** A loop that appends one row per iteration, each row in [P]. *)
Lemma for_each_append_rows {A R} (mk : list R -> A -> St R) (P : R -> Prop) xs acc :
  (forall acc x, returns (mk acc x) P) ->
  returns (for_each (fun acc x => bind (mk acc x) (fun r => ret (acc ++ [r])%list))
                    xs acc)
    (fun out => exists blk, out = (acc ++ blk)%list /\
                            List.length blk = List.length xs /\ Forall P blk).
Proof.
  intros Hmk. eapply returns_weaken.
  - apply for_each_blocks with (Q := fun (_ : A) blk => exists r, blk = [r] /\ P r).
    intros acc' x _. eapply returns_bind; [apply Hmk|].
    intros r Hr. apply returns_ret. exists [r]. eauto.
  - cbv beta. intros out (blks & -> & HF). exists (List.concat blks).
    split; [reflexivity|]. split.
    + apply concat_units. eapply Forall2_impl; [|exact HF]. cbv beta.
      intros x blk (r & -> & _). reflexivity.
    + apply concat_Forall with (xs := xs).
      eapply Forall2_impl; [|exact HF]. cbv beta.
      intros x blk (r & -> & Hr). constructor; [exact Hr|constructor].
Qed.

Lemma customer_tickets_rows acc c :
  returns (customer_tickets acc c)
    (fun out => exists blk, out = (acc ++ blk)%list /\
                            (1 <= List.length blk <= 5)%nat /\
                            Forall (ticket_row c) blk).
Proof.
  unfold customer_tickets.
  eapply returns_bind; [apply choices_in|]. cbn [map fst]. intros n Hn.
  eapply returns_weaken.
  - apply for_each_append_rows with (P := ticket_row c).
    intros acc' _. eapply returns_weaken; [apply new_ticket_row|]. cbv beta. tauto.
  - cbv beta. intros out (blk & -> & Hlen & HF). exists blk.
    split; [reflexivity|]. split; [|exact HF].
    rewrite Hlen. unfold range. rewrite length_seq.
    repeat (destruct Hn as [<-|Hn]; [simpl; lia|]). contradiction.
Qed.

Lemma customer_surveys_rows acc c :
  returns (customer_surveys acc c)
    (fun out => exists blk, out = (acc ++ blk)%list /\
                            (1 <= List.length blk <= 3)%nat /\
                            Forall (survey_row c) blk).
Proof.
  unfold customer_surveys.
  eapply returns_bind; [apply choices_in|]. cbn [map fst]. intros n Hn.
  eapply returns_weaken.
  - apply for_each_append_rows with (P := survey_row c).
    intros acc' _. eapply returns_weaken; [apply new_survey_row|]. cbv beta. tauto.
  - cbv beta. intros out (blk & -> & Hlen & HF). exists blk.
    split; [reflexivity|]. split; [|exact HF].
    rewrite Hlen. unfold range. rewrite length_seq.
    repeat (destruct Hn as [<-|Hn]; [simpl; lia|]). contradiction.
Qed.

Local Open Scope Q_scope.

(** A fraction of at most one half never asks for more rows than there
    are. *)
Lemma sample_size_le {A} frac (l : list A) :
  0 <= frac -> frac <= 1 # 2 -> (sample_size frac l <= List.length l)%nat.
Proof.
  intros H0 H1. unfold sample_size.
  set (n := Z.of_nat (List.length l)).
  destruct (round_half_even_near (frac * inject_Z n)) as [_ Hhi].
  assert (Hn : 0 <= inject_Z n).
  { change 0 with (inject_Z 0). rewrite <- Zle_Qle. subst n. lia. }
  assert (H2 : inject_Z (2 * Num.round_half_even (frac * inject_Z n))
               <= inject_Z (n + 1)).
  { rewrite inject_Z_mult, inject_Z_plus.
    change (inject_Z 2) with 2. change (inject_Z 1) with 1. nra. }
  rewrite <- Zle_Qle in H2. subst n. lia.
Qed.

Local Close Scope Q_scope.

(** [df.sample(frac=...)] followed by a loop that appends one block of rows
    per sampled customer. *)
Lemma sampled_blocks {R} frac (body : list R -> Customer.t -> St (list R))
  (Q : Customer.t -> list R -> Prop) customers_df :
  (0 <= frac)%Q -> (frac <= 1 # 2)%Q ->
  (forall acc c,
     returns (body acc c) (fun out => exists blk, out = (acc ++ blk)%list /\ Q c blk)) ->
  returns (bind (Numpy.sample_frac frac customers_df)
                (fun picked => for_each body picked []))
    (fun rows => exists picked blks,
       rows = List.concat blks /\ Forall2 Q picked blks /\
       incl picked customers_df /\
       List.length picked = sample_size frac customers_df /\
       (NoDup (map Customer.customer_id customers_df) ->
        NoDup (map Customer.customer_id picked))).
Proof.
  intros H0 H1 Hbody.
  apply returns_bind
    with (P := fun picked =>
                 (List.length picked = sample_size frac customers_df /\
                  incl picked customers_df) /\
                 (NoDup (map Customer.customer_id customers_df) ->
                  NoDup (map Customer.customer_id picked))).
  - apply returns_conj.
    + eapply returns_weaken; [apply sample_n_spec|]. cbv beta.
      intros picked [Hlen Hincl]. split; [|exact Hincl].
      rewrite Hlen. pose proof (sample_size_le frac customers_df H0 H1) as Hle.
      unfold sample_size in *. lia.
    + intros w H. exact (sample_n_NoDup Customer.customer_id _ customers_df H w).
  - intros picked [[Hlen Hincl] Hnd]. eapply returns_weaken.
    + apply for_each_blocks with (Q := Q). intros acc c _. apply Hbody.
    + cbv beta. intros out (blks & -> & HF). exists picked, blks. auto.
Qed.

Lemma tickets_blocks customers_df :
  returns (generate_support_tickets customers_df)
    (fun tickets => exists picked blks,
       tickets = List.concat blks /\
       Forall2 (fun c blk => (1 <= List.length blk <= 5)%nat /\
                             Forall (ticket_row c) blk) picked blks /\
       incl picked customers_df /\
       List.length picked = sample_size 0.4 customers_df /\
       (NoDup (map Customer.customer_id customers_df) ->
        NoDup (map Customer.customer_id picked))).
Proof.
  unfold generate_support_tickets.
  apply sampled_blocks; [discriminate|discriminate|].
  intros acc c. apply customer_tickets_rows.
Qed.

Lemma surveys_blocks customers_df :
  returns (generate_nps_surveys customers_df)
    (fun surveys => exists picked blks,
       surveys = List.concat blks /\
       Forall2 (fun c blk => (1 <= List.length blk <= 3)%nat /\
                             Forall (survey_row c) blk) picked blks /\
       incl picked customers_df /\
       List.length picked = sample_size 0.3 customers_df /\
       (NoDup (map Customer.customer_id customers_df) ->
        NoDup (map Customer.customer_id picked))).
Proof.
  unfold generate_nps_surveys.
  apply sampled_blocks; [discriminate|discriminate|].
  intros acc c. apply customer_surveys_rows.
Qed.

Lemma tickets_ids customers_df :
  returns (generate_support_tickets customers_df)
    (fun tickets =>
       map Ticket.ticket_id tickets = map ticket_ref (seq 0 (List.length tickets))).
Proof.
  unfold generate_support_tickets. apply returns_bind_any. intros picked.
  apply for_each_invariant; [|reflexivity].
  intros acc c _ Hacc. unfold customer_tickets.
  apply returns_bind_any. intros n.
  apply for_each_invariant; [|exact Hacc].
  intros acc' k _ Hacc'.
  eapply returns_bind; [apply new_ticket_row|]. intros t [Ht _].
  apply returns_ret.
  rewrite length_app, map_app, seq_app, map_app, Hacc'. simpl. now rewrite Ht.
Qed.

Lemma surveys_ids customers_df :
  returns (generate_nps_surveys customers_df)
    (fun surveys =>
       map Survey.survey_id surveys = map survey_ref (seq 0 (List.length surveys))).
Proof.
  unfold generate_nps_surveys. apply returns_bind_any. intros picked.
  apply for_each_invariant; [|reflexivity].
  intros acc c _ Hacc. unfold customer_surveys.
  apply returns_bind_any. intros n.
  apply for_each_invariant; [|exact Hacc].
  intros acc' k _ Hacc'.
  eapply returns_bind; [apply new_survey_row|]. intros s [Hs _].
  apply returns_ret.
  rewrite length_app, map_app, seq_app, map_app, Hacc'. simpl. now rewrite Hs.
Qed.

(** Rows of sampled customers belong to customers of the frame. *)
Lemma sampled_rows {R} (P : Customer.t -> R -> Prop) lo hi customers_df picked
  (blks : list (list R)) :
  incl picked customers_df ->
  Forall2 (fun c blk => (lo <= List.length blk <= hi)%nat /\ Forall (P c) blk)
          picked blks ->
  Forall (fun r => exists c, In c customers_df /\ P c r) (List.concat blks).
Proof.
  intros Hincl HF. induction HF as [|c blk cs blks [_ Hb] _ IH]; simpl;
    [constructor|].
  apply Forall_app. split.
  - eapply Forall_impl; [|exact Hb]. cbv beta. intros r Hr.
    exists c. split; [apply Hincl; now left|exact Hr].
  - apply IH. intros a Ha. apply Hincl. now right.
Qed.

(** X8: [generate_support_tickets] numbers its rows TKT_00000001,
    TKT_00000002, ... so ticket ids are distinct; every ticket belongs to a
    customer of the input frame and is dated on or after that customer's
    account creation; its resolution time lies in the range of its issue
    type, its satisfaction rating is between 1 and 5, its agent id is AGT_
    followed by a number between 1 and 50, and priority, status and channel
    come from their lists. *)
Theorem tickets_frame (customers_df : list Customer.t) (w : World) :
  let tickets := fst (generate_support_tickets customers_df w) in
  map Ticket.ticket_id tickets
  = map (fun i => "TKT_" ++ Str.fmt_d0 8 (i + 1)) (seq 0 (List.length tickets)) /\
  NoDup (map Ticket.ticket_id tickets) /\
  Forall (fun t =>
            (exists c, In c customers_df /\
               Ticket.customer_id t = Customer.customer_id c /\
               Customer.account_creation_date c <= Ticket.creation_date t) /\
            ticket_fields t)
         tickets.
Proof.
  intros tickets.
  pose proof (tickets_ids customers_df w) as Hids. fold tickets in Hids.
  split; [exact Hids|]. split; [rewrite Hids; apply ids_NoDup|].
  destruct (tickets_blocks customers_df w) as (picked & blks & E & HF & Hincl & _).
  fold tickets in E. rewrite E.
  eapply Forall_impl; [|exact (sampled_rows ticket_row 1 5 _ _ _ Hincl HF)].
  cbv beta. intros t (c & Hc & Hid & Hd & Hf). split; [|exact Hf].
  exists c. auto.
Qed.

(** X9: [generate_nps_surveys] numbers its rows NPS_00000001,
    NPS_00000002, ... so survey ids are distinct; every survey belongs to a
    customer of the input frame and is dated on or after that customer's
    account creation; its score is between 0 and 10, and its category is
    Promoter exactly for scores of 9 and 10, Passive for 7 and 8, Detractor
    for 6 and below. *)
Theorem surveys_frame (customers_df : list Customer.t) (w : World) :
  let surveys := fst (generate_nps_surveys customers_df w) in
  map Survey.survey_id surveys
  = map (fun i => "NPS_" ++ Str.fmt_d0 8 (i + 1)) (seq 0 (List.length surveys)) /\
  NoDup (map Survey.survey_id surveys) /\
  Forall (fun s =>
            (exists c, In c customers_df /\
               Survey.customer_id s = Customer.customer_id c /\
               Customer.account_creation_date c <= Survey.survey_date s) /\
            0 <= Survey.nps_score s <= 10 /\
            (Survey.category s = "Promoter" <-> 9 <= Survey.nps_score s) /\
            (Survey.category s = "Passive" <-> 7 <= Survey.nps_score s <= 8) /\
            (Survey.category s = "Detractor" <-> Survey.nps_score s <= 6))
         surveys.
Proof.
  intros surveys.
  pose proof (surveys_ids customers_df w) as Hids. fold surveys in Hids.
  split; [exact Hids|]. split; [rewrite Hids; apply ids_NoDup|].
  destruct (surveys_blocks customers_df w) as (picked & blks & E & HF & Hincl & _).
  fold surveys in E. rewrite E.
  eapply Forall_impl; [|exact (sampled_rows survey_row 1 3 _ _ _ Hincl HF)].
  cbv beta. intros s (c & Hc & Hid & Hd & Hf). split; [|exact Hf].
  exists c. auto.
Qed.

Lemma NoDup_map_eq {A B} (f : A -> B) (l : list A) a b :
  NoDup (map f l) -> In a l -> In b l -> f a = f b -> a = b.
Proof.
  induction l as [|x l IH]; simpl; [contradiction|].
  intros Hnd Ha Hb E. inversion Hnd as [|? ? Hx Hnd']; subst.
  destruct Ha as [->|Ha], Hb as [->|Hb]; [reflexivity| | |now apply IH].
  - exfalso. apply Hx. rewrite E. now apply in_map.
  - exfalso. apply Hx. rewrite <- E. now apply in_map.
Qed.

(** In a frame assembled from one block of between [lo >= 1] and [hi] rows
    per sampled customer, the customers that have rows are the sampled
    ones, and nobody has more than [hi] rows. *)
Lemma sampled_counts {R} (key : R -> string) (P : Customer.t -> R -> Prop)
  lo hi customers_df picked (blks : list (list R)) :
  (forall c r, P c r -> key r = Customer.customer_id c) ->
  (1 <= lo)%nat ->
  NoDup (map Customer.customer_id customers_df) ->
  incl picked customers_df ->
  NoDup (map Customer.customer_id picked) ->
  Forall2 (fun c blk => (lo <= List.length blk <= hi)%nat /\ Forall (P c) blk)
          picked blks ->
  List.length (customers_in key (List.concat blks) customers_df) = List.length picked /\
  Forall (fun c =>
            let n := rows_with key (Customer.customer_id c) (List.concat blks) in
            n = 0%nat \/ (lo <= n <= hi)%nat)
         customers_df.
Proof.
  intros Hkey Hlo Hnd Hincl Hndp HF.
  assert (Hown : Forall2 (fun c blk =>
                            Forall (fun r => key r = Customer.customer_id c) blk)
                         picked blks).
  { eapply Forall2_impl; [|exact HF]. cbv beta. intros c blk [_ H].
    eapply Forall_impl; [|exact H]. apply Hkey. }
  assert (Hin : Forall (fun c =>
                  (lo <= rows_with key (Customer.customer_id c) (List.concat blks)
                   <= hi)%nat) picked).
  { pose proof (rows_with_block key Customer.customer_id _ _ Hown Hndp []
                  (Forall_nil _)) as Hrows. simpl in Hrows.
    apply Forall2_left with (ys := blks).
    eapply Forall2_impl; [|exact (Forall2_conj _ _ _ _ Hrows HF)].
    cbv beta. intros c blk [-> [Hb _]]. exact Hb. }
  rewrite Forall_forall in Hin.
  assert (Hout : forall c, In c customers_df -> ~ In c picked ->
                   rows_with key (Customer.customer_id c) (List.concat blks) = 0%nat).
  { intros c Hc Hnot. apply (rows_with_absent key Customer.customer_id _ _ _ Hown).
    intros H. apply in_map_iff in H. destruct H as (c' & E & Hc').
    apply Hnot. rewrite <- (NoDup_map_eq _ _ c' c Hnd (Hincl _ Hc') Hc E). exact Hc'. }
  assert (Hdec : forall c, In c customers_df -> In c picked \/ ~ In c picked).
  { intros c Hc.
    destruct (in_dec string_dec (Customer.customer_id c)
                (map Customer.customer_id picked)) as [H|H].
    - left. apply in_map_iff in H. destruct H as (c' & E & Hc').
      rewrite <- (NoDup_map_eq _ _ c' c Hnd (Hincl _ Hc') Hc E). exact Hc'.
    - right. intros H'. apply H. now apply in_map. }
  split.
  - apply Nat.le_antisymm.
    + apply NoDup_incl_length.
      * apply NoDup_filter. exact (NoDup_map_inv _ _ Hnd).
      * intros c Hc. unfold customers_in in Hc. apply filter_In in Hc.
        destruct Hc as [Hc Hpos]. apply Nat.ltb_lt in Hpos.
        destruct (Hdec c Hc) as [H|H]; [exact H|].
        rewrite (Hout c Hc H) in Hpos. lia.
    + apply NoDup_incl_length; [exact (NoDup_map_inv _ _ Hndp)|].
      intros c Hc. unfold customers_in. apply filter_In.
      split; [now apply Hincl|]. apply Nat.ltb_lt.
      specialize (Hin c Hc). lia.
  - apply Forall_forall. intros c Hc. cbv zeta.
    destruct (Hdec c Hc) as [H|H]; [right; now apply Hin|left; now apply Hout].
Qed.

(** X10: of the customers built by [generate_customer_demographics],
    exactly round(0.4 N) have support tickets, between 1 and 5 each, and
    exactly round(0.3 N) have NPS surveys, between 1 and 3 each; every
    other customer has none. *)
Theorem sampled_customers_counts (self : TelcoDataGenerator) (w w' w'' : World) :
  let customers_df := fst (generate_customer_demographics self w) in
  let tickets := fst (generate_support_tickets customers_df w') in
  let surveys := fst (generate_nps_surveys customers_df w'') in
  let n := inject_Z (Z.of_nat (List.length customers_df)) in
  List.length (customers_in Ticket.customer_id tickets customers_df)
  = Z.to_nat (Num.round_half_even (0.4 * n)%Q) /\
  List.length (customers_in Survey.customer_id surveys customers_df)
  = Z.to_nat (Num.round_half_even (0.3 * n)%Q) /\
  Forall (fun c =>
            let k := rows_with Ticket.customer_id (Customer.customer_id c) tickets in
            k = 0%nat \/ (1 <= k <= 5)%nat) customers_df /\
  Forall (fun c =>
            let k := rows_with Survey.customer_id (Customer.customer_id c) surveys in
            k = 0%nat \/ (1 <= k <= 3)%nat) customers_df.
Proof.
  intros customers_df tickets surveys n.
  pose proof (customers_NoDup self w) as Hnd. fold customers_df in Hnd.
  destruct (tickets_blocks customers_df w')
    as (tp & tb & Et & HFt & Hit & Hlt & Hnt). fold tickets in Et.
  destruct (surveys_blocks customers_df w'')
    as (sp & sb & Es & HFs & His & Hls & Hns). fold surveys in Es.
  destruct (sampled_counts Ticket.customer_id ticket_row 1 5 customers_df tp tb)
    as [Ht1 Ht2]; auto.
  { intros c r H. apply H. }
  destruct (sampled_counts Survey.customer_id survey_row 1 3 customers_df sp sb)
    as [Hs1 Hs2]; auto.
  { intros c r H. apply H. }
  rewrite Et, Es, Ht1, Hs1, Hlt, Hls. repeat split; assumption.
Qed.

(* ------------------------------------------------------------------ *)
(** ** Further properties: the metrics frame *)

Lemma where_customer_rows {R} (df : list R) (key : R -> string) cid :
  ensures (where_customer df key cid)
    (fun rows => rows = filter (fun r => (key r =? cid)%string) df).
Proof.
  intros w rows w'. unfold where_customer.
  destruct df as [|r df]; [discriminate|]. now intros [= <- _].
Qed.

(** Whatever every row is guaranteed, the frame has row by row. *)
Lemma metrics_ensures (P : Customer.t -> Metric.t -> Prop)
  services_df billing_df tickets_df nps_df :
  (forall c, ensures (customer_metric services_df billing_df tickets_df nps_df c) (P c)) ->
  forall customers_df,
    ensures (calculate_customer_metrics customers_df services_df billing_df
               tickets_df nps_df)
            (Forall2 P customers_df).
Proof.
  intros HP customers_df. unfold calculate_customer_metrics.
  assert (G : forall acc,
    ensures (pfor_each
               (fun metrics customer =>
                  pbind (customer_metric services_df billing_df tickets_df nps_df customer)
                        (fun r => pret (metrics ++ [r])%list))
               customers_df acc)
            (fun rows => exists new, rows = (acc ++ new)%list /\
                                     Forall2 P customers_df new)).
  { induction customers_df as [|c cs IH]; intros acc; simpl.
    - apply ensures_pret. exists []. rewrite app_nil_r. split; [reflexivity|constructor].
    - eapply ensures_pbind.
      + eapply ensures_pbind; [apply (HP c)|]. intros m Hm.
        apply (ensures_pret _ (fun out => exists m, out = (acc ++ [m])%list /\ P c m)).
        eauto.
      + cbv beta. intros out (m & -> & Hm). intros w rows w' E.
        destruct (IH _ _ _ _ E) as (new & -> & HF). exists (m :: new).
        split; [now rewrite <- app_assoc|now constructor]. }
  intros w rows w' E. destruct (G [] _ _ _ E) as (new & -> & HF). exact HF.
Qed.

Lemma max_date_spec rest :
  forall first,
    In (max_date first rest) (first :: rest) /\
    first <= max_date first rest /\
    Forall (fun x => x <= max_date first rest) rest.
Proof.
  unfold max_date. induction rest as [|x rest IH]; intros first; simpl.
  - split; [now left|]. split; [lia|constructor].
  - destruct (IH (Z.max first x)) as (Hin & Hle & Hall).
    split; [|split; [lia|constructor; [lia|exact Hall]]].
    destruct Hin as [Hin|Hin]; [|right; now right].
    rewrite <- Hin.
    destruct (Z.max_spec first x) as [[_ E]|[_ E]]; rewrite E; [right|]; now left.
Qed.

Lemma customer_metric_counts services_df billing_df tickets_df nps_df c :
  ensures (customer_metric services_df billing_df tickets_df nps_df c)
          (metric_counts services_df tickets_df c).
Proof.
  unfold customer_metric. cbv zeta.
  eapply ensures_pbind; [apply where_customer_rows|]. intros customer_services ->.
  apply ensures_pbind_any. intros customer_billing.
  eapply ensures_pbind; [apply where_customer_rows|]. intros customer_tickets ->.
  apply ensures_pbind_any. intros customer_nps.
  apply ensures_pbind_any. intros now. apply ensures_pret.
  unfold metric_counts. cbv zeta.
  cbn [Metric.customer_id Metric.total_services Metric.active_services
       Metric.support_tickets_count Metric.last_interaction_date].
  fold (own Service.customer_id c services_df).
  fold (own Ticket.customer_id c tickets_df).
  split; [reflexivity|]. split; [reflexivity|]. split; [reflexivity|].
  split; [apply filter_length_le|]. split; [reflexivity|].
  destruct (own Ticket.customer_id c tickets_df) as [|t ts]; [reflexivity|].
  cbn [map]. destruct (max_date_spec (map Ticket.creation_date ts)
                         (Ticket.creation_date t)) as (Hin & Hle & Hall).
  split; [exact Hin|]. constructor; [exact Hle|].
  exact (proj1 (Forall_map Ticket.creation_date
                  (fun x => x <= max_date (Ticket.creation_date t)
                                   (map Ticket.creation_date ts)) ts) Hall).
Qed.

(** X11: the metrics frame lists the customers in order, one row each with
    the customer's id; total_services, active_services and
    support_tickets_count count the customer's rows in the subscription and
    ticket frames, active_services never exceeds total_services, and
    last_interaction_date is empty exactly for a customer without tickets
    and otherwise the latest creation date among the customer's tickets. *)
Theorem metrics_counts_per_customer (customers_df : list Customer.t)
  (services_df : list Service.t) (billing_df : list Billing.t)
  (tickets_df : list Ticket.t) (nps_df : list Survey.t) (w : World) :
  match calculate_customer_metrics customers_df services_df billing_df
          tickets_df nps_df w with
  | inr (rows, _) =>
      map Metric.customer_id rows = map Customer.customer_id customers_df /\
      Forall2 (fun c m =>
                 let cid := Customer.customer_id c in
                 let tickets := own Ticket.customer_id c tickets_df in
                 Metric.total_services m = rows_with Service.customer_id cid services_df /\
                 Metric.active_services m
                 = rows_with Service.customer_id cid (filter is_active services_df) /\
                 (Metric.active_services m <= Metric.total_services m)%nat /\
                 Metric.support_tickets_count m
                 = rows_with Ticket.customer_id cid tickets_df /\
                 match Metric.last_interaction_date m with
                 | None => tickets = []
                 | Some d => In d (map Ticket.creation_date tickets) /\
                             Forall (fun t => Ticket.creation_date t <= d) tickets
                 end)
              customers_df rows
  | inl _ =>
      customers_df <> [] /\ some_frame_empty services_df billing_df tickets_df nps_df
  end.
Proof.
  pose proof (metrics_rows customers_df services_df billing_df tickets_df nps_df w) as H.
  destruct (calculate_customer_metrics _ _ _ _ _ w) as [e|[rows w']] eqn:E; [tauto|].
  clear H.
  pose proof (metrics_ensures _ _ _ _ _
                (customer_metric_counts services_df billing_df tickets_df nps_df)
                customers_df w rows w' E) as HF.
  split.
  - clear E. induction HF as [|c m cs rows (Hid & _) _ IH]; simpl; [reflexivity|].
    now rewrite Hid, IH.
  - eapply Forall2_impl; [|exact HF]. unfold metric_counts. cbv beta zeta.
    intros c m (_ & Htot & Hact & Hle & Htk & Hlast).
    split; [exact Htot|]. split; [|split; [exact Hle|split; [exact Htk|exact Hlast]]].
    rewrite Hact. unfold rows_with, own, is_active.
    clear. induction services_df as [|s l IH]; simpl; [reflexivity|].
    destruct (Service.customer_id s =? Customer.customer_id c)%string eqn:E1,
             (Service.service_status s =? "Active")%string eqn:E2;
      simpl; rewrite ?E1, ?E2; simpl; now rewrite ?IH.
Qed.

Lemma idxmax_spec rest :
  forall best,
    In (idxmax best rest) (best :: rest) /\
    Survey.survey_date best <= Survey.survey_date (idxmax best rest) /\
    Forall (fun s => Survey.survey_date s <= Survey.survey_date (idxmax best rest)) rest.
Proof.
  induction rest as [|s rest IH]; intros best; simpl.
  - split; [now left|]. split; [lia|constructor].
  - destruct (Z.ltb_spec (Survey.survey_date best) (Survey.survey_date s)) as [Hlt|Hge].
    + destruct (IH s) as (Hin & Hle & Hall).
      split; [now right|]. split; [lia|constructor; [exact Hle|exact Hall]].
    + destruct (IH best) as (Hin & Hle & Hall).
      split; [destruct Hin; auto|]. split; [exact Hle|constructor; [lia|exact Hall]].
Qed.

(** X12: latest_nps_score is empty exactly for a customer without surveys;
    otherwise it is the score of one of the customer's surveys, one that no
    other survey of the customer is dated after. *)
Theorem latest_nps_is_most_recent (customers_df : list Customer.t)
  (services_df : list Service.t) (billing_df : list Billing.t)
  (tickets_df : list Ticket.t) (nps_df : list Survey.t) (w : World) :
  match calculate_customer_metrics customers_df services_df billing_df
          tickets_df nps_df w with
  | inr (rows, _) =>
      Forall2 (fun c m =>
                 let surveys := own Survey.customer_id c nps_df in
                 match Metric.latest_nps_score m with
                 | None => surveys = []
                 | Some n =>
                     exists s, In s surveys /\ Survey.nps_score s = n /\
                       Forall (fun s' => Survey.survey_date s' <= Survey.survey_date s)
                              surveys
                 end)
              customers_df rows
  | inl _ =>
      customers_df <> [] /\ some_frame_empty services_df billing_df tickets_df nps_df
  end.
Proof.
  pose proof (metrics_rows customers_df services_df billing_df tickets_df nps_df w) as H.
  destruct (calculate_customer_metrics _ _ _ _ _ w) as [e|[rows w']]; [tauto|].
  eapply Forall2_impl; [|exact H]. unfold metric_spec. cbv beta zeta.
  intros c m (_ & _ & _ & _ & _ & _ & -> & _).
  fold (own Survey.customer_id c nps_df).
  destruct (own Survey.customer_id c nps_df) as [|s rest]; [reflexivity|].
  cbn [latest]. destruct (idxmax_spec rest s) as (Hin & Hle & Hall).
  exists (idxmax s rest). split; [exact Hin|]. split; [reflexivity|].
  constructor; [exact Hle|exact Hall].
Qed.

Lemma customer_metric_clock services_df billing_df tickets_df nps_df c w m w' :
  customer_metric services_df billing_df tickets_df nps_df c w = inr (m, w') ->
  w' = snd (Clock.now w) /\
  Metric.tenure_months m
  = (Date.date_of (fst (Clock.now w)) - Customer.account_creation_date c) / 30.
Proof.
  unfold customer_metric, where_customer, pbind.
  destruct services_df as [|s0 ss]; [discriminate|].
  destruct billing_df as [|b0 bs]; [discriminate|].
  destruct tickets_df as [|t0 ts]; [discriminate|].
  destruct nps_df as [|n0 ns]; [discriminate|].
  unfold pret, lift. destruct (Clock.now w) as [now w1].
  intros [= <- <-]. split; reflexivity.
Qed.

Lemma metrics_clock services_df billing_df tickets_df nps_df (T : nat -> Z) (p : nat) :
  forall customers_df acc w k rows w',
    tape (clock w) = T -> pos (clock w) = (p + k)%nat ->
    pfor_each
      (fun metrics customer =>
         pbind (customer_metric services_df billing_df tickets_df nps_df customer)
               (fun r => pret (metrics ++ [r])%list))
      customers_df acc w = inr (rows, w') ->
    exists new,
      rows = (acc ++ new)%list /\
      py_rng w' = py_rng w /\ np_rng w' = np_rng w /\ fk_rng w' = fk_rng w /\
      tape (clock w') = T /\
      pos (clock w') = (p + k + List.length customers_df)%nat /\
      map Metric.tenure_months new
      = map (fun q => (Date.date_of (T (p + fst q)%nat)
                       - Customer.account_creation_date (snd q)) / 30)
            (combine (seq k (List.length customers_df)) customers_df).
Proof.
  induction customers_df as [|c cs IH]; intros acc w k rows w' HT Hp; simpl.
  - unfold pret. intros [= <- <-]. exists []. rewrite app_nil_r.
    repeat split; [exact HT|lia].
  - unfold pbind at 1 2.
    destruct (customer_metric services_df billing_df tickets_df nps_df c w)
      as [e|[m w1]] eqn:E; [discriminate|].
    destruct (customer_metric_clock _ _ _ _ _ _ _ _ E) as [Hw Hten].
    unfold pret at 1. intros Hrun.
    assert (Hclock : py_rng w1 = py_rng w /\ np_rng w1 = np_rng w /\
                     fk_rng w1 = fk_rng w /\ tape (clock w1) = T /\
                     pos (clock w1) = (p + S k)%nat /\
                     fst (Clock.now w) = T (p + k)%nat).
    { rewrite Hw. unfold Clock.now, draw. cbn [fst snd py_rng np_rng fk_rng clock
        tape pos]. rewrite HT, Hp. repeat split. lia. }
    destruct Hclock as (H1 & H2 & H3 & H4 & H5 & H6).
    destruct (IH _ _ (S k) _ _ H4 H5 Hrun) as (new & -> & G1 & G2 & G3 & G4 & G5 & G6).
    exists (m :: new). rewrite <- app_assoc. split; [reflexivity|].
    split; [congruence|]. split; [congruence|]. split; [congruence|].
    split; [exact G4|]. split; [lia|].
    cbn [map fst snd]. rewrite G6, Hten, H6. reflexivity.
Qed.

(** X13: [calculate_customer_metrics] draws no random number and reads the
    clock exactly once per customer, in order; tenure_months of the i-th
    customer is the number of days from the account creation date to the
    date of the i-th reading, floor-divided by 30. *)
Theorem metrics_read_only_the_clock (customers_df : list Customer.t)
  (services_df : list Service.t) (billing_df : list Billing.t)
  (tickets_df : list Ticket.t) (nps_df : list Survey.t) (w : World) :
  match calculate_customer_metrics customers_df services_df billing_df
          tickets_df nps_df w with
  | inr (rows, w') =>
      py_rng w' = py_rng w /\ np_rng w' = np_rng w /\ fk_rng w' = fk_rng w /\
      tape (clock w') = tape (clock w) /\
      pos (clock w') = (pos (clock w) + List.length customers_df)%nat /\
      map Metric.tenure_months rows
      = map (fun q => (Date.date_of (reading w (fst q))
                       - Customer.account_creation_date (snd q)) / 30)
            (combine (seq 0 (List.length customers_df)) customers_df)
  | inl _ =>
      customers_df <> [] /\ some_frame_empty services_df billing_df tickets_df nps_df
  end.
Proof.
  pose proof (metrics_rows customers_df services_df billing_df tickets_df nps_df w) as H.
  unfold calculate_customer_metrics in *.
  destruct (pfor_each _ customers_df [] w) as [e|[rows w']] eqn:E; [tauto|].
  clear H.
  destruct (metrics_clock services_df billing_df tickets_df nps_df
              (tape (clock w)) (pos (clock w)) customers_df [] w 0 rows w'
              eq_refl ltac:(lia) E)
    as (new & -> & G1 & G2 & G3 & G4 & G5 & G6).
  split; [exact G1|]. split; [exact G2|]. split; [exact G3|]. split; [exact G4|].
  split; [lia|]. exact G6.
Qed.

Lemma group_add_keys k v groups x :
  In x (map fst (group_add k v groups)) <-> x = k \/ In x (map fst groups).
Proof.
  induction groups as [|[k' s] rest IH]; simpl.
  - intuition congruence.
  - destruct (Z.eqb_spec k k') as [->|Hne]; [simpl; intuition congruence|].
    destruct (Z.ltb_spec k k'); simpl; [intuition congruence|].
    rewrite IH. intuition congruence.
Qed.

Lemma group_add_ascending k v groups :
  ascending (map fst groups) -> ascending (map fst (group_add k v groups)).
Proof.
  induction groups as [|[k' s] rest IH]; simpl.
  - intros _. split; [constructor|exact I].
  - intros [Hall Hasc].
    destruct (Z.eqb_spec k k') as [->|Hne]; [simpl; auto|].
    destruct (Z.ltb_spec k k') as [Hlt|Hge]; simpl.
    + split; [|auto]. constructor; [exact Hlt|].
      eapply Forall_impl; [|exact Hall]. cbv beta. intros y Hy. lia.
    + split; [|now apply IH]. apply Forall_forall. intros y Hy.
      apply group_add_keys in Hy. destruct Hy as [->|Hy]; [lia|].
      rewrite Forall_forall in Hall. now apply Hall.
Qed.

Lemma group_add_sum k v groups :
  (Num.Qsum (map snd (group_add k v groups)) == Num.Qsum (map snd groups) + v)%Q.
Proof.
  unfold Num.Qsum. induction groups as [|[k' s] rest IH]; simpl.
  - ring.
  - destruct (Z.eqb_spec k k'); [simpl; ring|].
    destruct (Z.ltb_spec k k'); simpl; [ring|]. rewrite IH. ring.
Qed.

Lemma ascending_NoDup l : ascending l -> NoDup l.
Proof.
  induction l as [|x l IH]; simpl; [constructor|].
  intros [Hall Hasc]. constructor; [|now apply IH].
  intros Hin. rewrite Forall_forall in Hall. specialize (Hall x Hin). lia.
Qed.

(** [groupby(key)[val].sum()]: one group per distinct key, keys ascending,
    and the group sums add up to the column total. *)
Lemma groupby_sum_spec {R} (key : R -> Z) (val : R -> Q) (rows : list R) :
  let groups := groupby_sum key val rows in
  ascending (map fst groups) /\
  (forall x, In x (map fst groups) <-> In x (map key rows)) /\
  (Num.Qsum (map snd groups) == Num.Qsum (map val rows))%Q.
Proof.
  unfold groupby_sum.
  assert (G : forall acc,
    ascending (map fst acc) ->
    let groups := fold_left (fun groups r => group_add (key r) (val r) groups) rows acc in
    ascending (map fst groups) /\
    (forall x, In x (map fst groups) <-> In x (map fst acc) \/ In x (map key rows)) /\
    (Num.Qsum (map snd groups) == Num.Qsum (map snd acc) + Num.Qsum (map val rows))%Q).
  { induction rows as [|r rows IH]; intros acc Hacc; simpl.
    - split; [exact Hacc|]. split; [tauto|]. unfold Num.Qsum. simpl. ring.
    - destruct (IH (group_add (key r) (val r) acc)
                  (group_add_ascending _ _ _ Hacc)) as (H1 & H2 & H3).
      split; [exact H1|]. split.
      + intros x. rewrite H2, group_add_keys. intuition congruence.
      + rewrite H3, group_add_sum. unfold Num.Qsum. simpl. ring. }
  destruct (G [] I) as (H1 & H2 & H3). split; [exact H1|]. split.
  - intros x. rewrite H2. simpl. tauto.
  - rewrite H3. unfold Num.Qsum. simpl. ring.
Qed.

Lemma groupby_sum_length {R} (key : R -> Z) (val : R -> Q) (rows : list R) :
  List.length (groupby_sum key val rows)
  = List.length (nodup Z.eq_dec (map key rows)).
Proof.
  destruct (groupby_sum_spec key val rows) as (Hasc & Hkeys & _).
  rewrite <- (length_map fst). apply Nat.le_antisymm.
  - apply NoDup_incl_length; [now apply ascending_NoDup|].
    intros x Hx. apply nodup_In. now apply Hkeys.
  - apply NoDup_incl_length; [apply NoDup_nodup|].
    intros x Hx. apply nodup_In in Hx. now apply Hkeys.
Qed.

(** The mean of the per-date totals: undefined without bills, and otherwise
    the billed total over the number of distinct bill dates. *)
Lemma revenue_mean (bills : list Billing.t) :
  match bills with
  | [] =>
      Num.mean (map snd (groupby_sum Billing.bill_date Billing.amount_due bills)) = None
  | _ :: _ =>
      exists r,
        Num.mean (map snd (groupby_sum Billing.bill_date Billing.amount_due bills))
        = Some r /\
        (r == Num.Qsum (map Billing.amount_due bills)
              / inject_Z (Z.of_nat (List.length
                                      (nodup Z.eq_dec (map Billing.bill_date bills)))))%Q
  end.
Proof.
  destruct (groupby_sum_spec Billing.bill_date Billing.amount_due bills)
    as (_ & Hkeys & Hsum).
  pose proof (groupby_sum_length Billing.bill_date Billing.amount_due bills) as Hlen.
  destruct bills as [|b bills'] eqn:Eb; [reflexivity|]. rewrite <- Eb in *.
  destruct (groupby_sum Billing.bill_date Billing.amount_due bills)
    as [|g groups] eqn:Eg.
  - exfalso. apply (proj2 (Hkeys (Billing.bill_date b))). rewrite Eb. now left.
  - eexists. split; [reflexivity|]. unfold Num.avg.
    change (snd g :: map snd groups) with (map snd (g :: groups)).
    rewrite length_map, Hlen, Hsum. reflexivity.
Qed.

(** X14: monthly_revenue is 0 for a customer without bills; otherwise it is
    within a cent of the total of amount_due over the customer's bills
    divided by the number of distinct bill_date values among them. *)
Theorem monthly_revenue_per_bill_date (customers_df : list Customer.t)
  (services_df : list Service.t) (billing_df : list Billing.t)
  (tickets_df : list Ticket.t) (nps_df : list Survey.t) (w : World) :
  match calculate_customer_metrics customers_df services_df billing_df
          tickets_df nps_df w with
  | inr (rows, _) =>
      Forall2 (fun c m =>
                 let bills := own Billing.customer_id c billing_df in
                 let dates := nodup Z.eq_dec (map Billing.bill_date bills) in
                 match bills with
                 | [] => Metric.monthly_revenue m = 0%Q
                 | _ :: _ =>
                     let per_date :=
                       (Num.Qsum (map Billing.amount_due bills)
                        / inject_Z (Z.of_nat (List.length dates)))%Q in
                     (per_date - 0.01 < Metric.monthly_revenue m /\
                      Metric.monthly_revenue m < per_date + 0.01)%Q
                 end)
              customers_df rows
  | inl _ =>
      customers_df <> [] /\ some_frame_empty services_df billing_df tickets_df nps_df
  end.
Proof.
  pose proof (metrics_rows customers_df services_df billing_df tickets_df nps_df w) as H.
  destruct (calculate_customer_metrics _ _ _ _ _ w) as [e|[rows w']]; [tauto|].
  eapply Forall2_impl; [|exact H]. unfold metric_spec. cbv beta zeta.
  intros c m (_ & _ & -> & _).
  fold (own Billing.customer_id c billing_df).
  pose proof (revenue_mean (own Billing.customer_id c billing_df)) as Hmean.
  destruct (own Billing.customer_id c billing_df) as [|b bills];
    [now rewrite Hmean|].
  destruct Hmean as (r & -> & Hr).
  destruct (py_round_cents r) as [Hlo Hhi].
  split; lra.
Qed.

(* ------------------------------------------------------------------ *)
(** ** Further properties: the tables of a run *)

(** Rows of a frame assembled from blocks come from the block of some key. *)
Lemma concat_owner {A R} (P : A -> R -> Prop) xs (blks : list (list R)) :
  Forall2 (fun x blk => Forall (P x) blk) xs blks ->
  Forall (fun r => exists x, In x xs /\ P x r) (List.concat blks).
Proof.
  induction 1 as [|x blk xs blks Hb _ IH]; simpl; [constructor|].
  apply Forall_app. split.
  - eapply Forall_impl; [|exact Hb]. cbv beta. intros r Hr.
    exists x. split; [now left|exact Hr].
  - eapply Forall_impl; [|exact IH]. cbv beta. intros r (y & Hy & Hr).
    exists y. split; [now right|exact Hr].
Qed.

Lemma usage_rows_active services_df w :
  Forall (fun s => In (Service.service_type s) service_types) services_df ->
  exists usage_df w' blks,
    generate_usage_data services_df w = inr (usage_df, w') /\
    usage_df = List.concat blks /\
    Forall2 (fun s blk => Forall (fun u => is_active s = true /\ usage_row s u) blk)
            services_df blks.
Proof.
  intros Hty. unfold generate_usage_data, pbind.
  destruct (pfor_each_blocks usage_service_step fst
              (fun s blk => Forall (fun u => is_active s = true /\ usage_row s u) blk)
              services_df)
    with (st := (@nil Usage.t, @None Usage.t)) (w := w)
    as (st' & w' & blks & -> & Hp & HF).
  { intros st s w0 Hs. rewrite Forall_forall in Hty. specialize (Hty s Hs).
    unfold usage_service_step, is_active.
    destruct (Service.service_status s =? "Active")%string.
    - destruct (pfor_each_blocks (usage_month_step s) fst
                  (fun (_ : nat) blk => exists u, blk = [u] /\ usage_row s u)
                  (range 12)) with (st := st) (w := w0)
        as (st1 & w1 & blks & Hrun & Hp & HF).
      { intros st0 k w2 _.
        destruct (usage_month_step_row s st0 k w2 Hty) as (u & w3 & -> & Hu).
        exists ((fst st0 ++ [u])%list, Some u), w3, [u]. simpl. eauto. }
      exists st1, w1, (List.concat blks). split; [exact Hrun|]. split; [exact Hp|].
      apply concat_Forall with (xs := range 12).
      eapply Forall2_impl; [|exact HF]. cbv beta.
      intros k blk (u & -> & Hu). constructor; [auto|constructor].
    - exists st, w0, []. rewrite app_nil_r. repeat split. constructor. }
  exists (fst st'), w', blks. repeat split; [exact Hp|exact HF].
Qed.

(** The stages of [generate_all_data], each on the world the previous one
    left. *)
Lemma generate_all_data_trace self w :
  exists customers_df services_df usage_df billing_df tickets_df nps_df
         w1 w2 w3 w4 w5 w6,
    generate_customer_demographics self w = (customers_df, w1) /\
    generate_customer_services customers_df generate_service_plans w1
    = inr (services_df, w2) /\
    generate_usage_data services_df w2 = inr (usage_df, w3) /\
    generate_billing_data services_df w3 = (billing_df, w4) /\
    generate_support_tickets customers_df w4 = (tickets_df, w5) /\
    generate_nps_surveys customers_df w5 = (nps_df, w6) /\
    generate_all_data self w =
    pbind (calculate_customer_metrics customers_df services_df billing_df
             tickets_df nps_df)
          (fun metrics_df =>
             pret (mkTables customers_df generate_service_plans services_df
                     usage_df billing_df tickets_df nps_df metrics_df)) w6.
Proof.
  unfold generate_all_data. unfold pbind at 1 2 3 4 5 6, lift.
  destruct (generate_customer_demographics self w) as [cs w1].
  destruct (catalog_services cs w1) as (sv & w2 & E & _).
  pose proof (catalog_services_types cs w1 sv w2 E) as Hty.
  rewrite E.
  destruct (usage_blocks sv w2 Hty) as (us & w3 & blks & Eu & _).
  rewrite Eu.
  destruct (generate_billing_data sv w3) as [bl w4] eqn:Eb.
  destruct (generate_support_tickets cs w4) as [tk w5] eqn:Et.
  destruct (generate_nps_surveys cs w5) as [ns w6] eqn:En.
  exists cs, sv, us, bl, tk, ns, w1, w2, w3, w4, w5, w6.
  split; [reflexivity|]. split; [exact E|]. split; [exact Eu|].
  split; [exact Eb|]. split; [exact Et|]. split; [exact En|]. reflexivity.
Qed.

Lemma new_bill_owner s k :
  returns (new_bill s k)
    (fun b => Billing.service_id b = Service.service_id s /\
              Billing.customer_id b = Service.customer_id s).
Proof.
  eapply returns_weaken; [apply new_bill_spec|]. cbv beta. tauto.
Qed.

(** X15: for every requested count of at least 2 the run returns eight
    tables whose references all resolve: every subscription names a customer
    of the customers table and a plan of the catalog; every usage row names
    an Active subscription and every bill a subscription, each with that
    subscription's customer id; every ticket and survey names a customer;
    and the metrics table lists the customers' ids in order. *)
Theorem run_tables_linked (n : Z) (w : World) :
  2 <= n ->
  exists t w',
    generate_all_data (init (Some n)) w = inr (t, w') /\ linked t.
Proof.
  intros Hn.
  destruct (generate_all_data_trace (init (Some n)) w)
    as (cs & sv & us & bl & tk & ns & w1 & w2 & w3 & w4 & w5 & w6
        & Ec & Es & Eu & Eb & Et & En & ->).
  pose proof (customers_count (init (Some n)) w) as Hlen.
  rewrite Ec in Hlen. cbn [fst init num_customers] in Hlen.
  assert (Hcs : cs <> []) by (intros ->; simpl in Hlen; lia).
  assert (H2 : (2 <= List.length cs)%nat) by lia.
  destruct (catalog_services cs w1)
    as (sv0 & w20 & Es0 & (sblks & Hsv & HFs & _) & _ & Hplans & Hne).
  assert (sv0 = sv) as -> by congruence. clear Es0 w20.
  pose proof (catalog_services_types _ _ _ _ Es) as Hty.
  destruct (usage_rows_active sv w2 Hty) as (us0 & w30 & ublks & Eu0 & Hus & HFu).
  assert (us0 = us) as -> by congruence. clear Eu0 w30.
  destruct (billing_blocks_of _ new_bill_owner sv w3) as (bblks & Hbl & HFb).
  rewrite Eb in Hbl. cbn [fst] in Hbl.
  destruct (tickets_blocks cs w4) as (tp & tblks & Htk & HFt & Hit & _).
  rewrite Et in Htk. cbn [fst] in Htk.
  destruct (surveys_blocks cs w5) as (sp & nblks & Hns & HFn & Hin & _).
  rewrite En in Hns. cbn [fst] in Hns.
  pose proof (billing_nonempty sv (Hne Hcs) w3) as Hbne.
  rewrite Eb in Hbne. cbn [fst] in Hbne.
  pose proof (tickets_nonempty cs H2 w4) as Htne. rewrite Et in Htne. cbn [fst] in Htne.
  pose proof (surveys_nonempty cs H2 w5) as Hnne. rewrite En in Hnne. cbn [fst] in Hnne.
  destruct (metrics_returns cs sv bl tk ns w6) as (rows & wf & Hrun & HF).
  { unfold some_frame_empty. specialize (Hne Hcs). tauto. }
  unfold pbind. rewrite Hrun. unfold pret. eexists. eexists.
  split; [reflexivity|]. unfold linked.
  cbn [customers plans services usage billing support_tickets nps_surveys
       customer_metrics].
  split; [|split; [|split; [|split; [|split]]]].
  - assert (Hown : Forall (fun s => exists c, In c cs /\
                              Service.customer_id s = Customer.customer_id c) sv).
    { rewrite Hsv. apply concat_owner. eapply Forall2_impl; [|exact HFs].
      intros c blk. apply cust_block_owner. }
    rewrite Forall_forall in Hown, Hplans. apply Forall_forall. intros s Hs. split.
    + destruct (Hown s Hs) as (c & Hc & ->). now apply in_map.
    + destruct (Hplans s Hs) as (p & Hp & -> & _). now apply in_map.
  - rewrite Hus. eapply Forall_impl; [|exact (concat_owner _ _ _ HFu)].
    cbv beta. unfold usage_row. intros u (s & Hs & Ha & Hid & Hc & _). eauto.
  - rewrite Hbl. eapply Forall_impl; [|exact (concat_owner _ _ _ HFb)].
    cbv beta. intros b (s & Hs & Hid & Hc). eauto.
  - rewrite Htk.
    eapply Forall_impl; [|exact (sampled_rows ticket_row 1 5 _ _ _ Hit HFt)].
    cbv beta. intros t (c & Hc & -> & _). now apply in_map.
  - rewrite Hns.
    eapply Forall_impl; [|exact (sampled_rows survey_row 1 3 _ _ _ Hin HFn)].
    cbv beta. intros s (c & Hc & -> & _). now apply in_map.
  - clear -HF. induction HF as [|c m cs rows (Hid & _) _ IH]; simpl; [reflexivity|].
    now rewrite Hid, IH.
Qed.

Lemma run_tables_linked_witness :
  exists t w',
    generate_all_data (init (Some 2)) (world0 0) = inr (t, w') /\ linked t.
Proof. apply (run_tables_linked 2 (world0 0)). lia. Defined.

(* ------------------------------------------------------------------ *)
(** ** Further properties: usage rows of an unknown service type *)

Lemma pfor_each_app {A B} (body : B -> A -> Py B) xs ys :
  forall st w,
    pfor_each body (xs ++ ys) st w
    = match pfor_each body xs st w with
      | inl e => inl e
      | inr (st', w') => pfor_each body ys st' w'
      end.
Proof.
  induction xs as [|x xs IH]; intros st w; simpl; [reflexivity|].
  unfold pbind. destruct (body st x w) as [e|[st1 w1]]; [reflexivity|apply IH].
Qed.

Lemma usage_dispatch_unknown service usage_date w :
  ~ In (Service.service_type service) service_types ->
  usage_dispatch service usage_date w = (None, w).
Proof.
  unfold service_types, usage_dispatch. cbn [In]. intros Hty.
  destruct (String.eqb_spec (Service.service_type service) "Mobile") as [E|_];
    [exfalso; apply Hty; left; now symmetry|].
  destruct (String.eqb_spec (Service.service_type service) "Internet") as [E|_];
    [exfalso; apply Hty; right; left; now symmetry|].
  destruct (String.eqb_spec (Service.service_type service) "TV") as [E|_];
    [exfalso; apply Hty; right; right; left; now symmetry|].
  reflexivity.
Qed.

(** No branch assigns [usage]: the step raises when the variable was never
    bound, and appends the row left by an earlier iteration otherwise. *)
Lemma usage_month_step_unknown service rows last_row month_offset w :
  ~ In (Service.service_type service) service_types ->
  usage_month_step service (rows, last_row) month_offset w
  = match last_row with
    | None => inl (UnboundLocalError "usage")
    | Some u => inr ((rows ++ [u])%list, Some u, snd (Clock.now w))
    end.
Proof.
  intros Hty. unfold usage_month_step, pbind, lift.
  destruct (Clock.now w) as [now w1]. rewrite usage_dispatch_unknown by exact Hty.
  cbn [fst snd]. destruct last_row; reflexivity.
Qed.

Lemma usage_months_unknown service u months :
  ~ In (Service.service_type service) service_types ->
  forall rows w,
    exists w',
      pfor_each (usage_month_step service) months (rows, Some u) w
      = inr ((rows ++ repeat u (List.length months))%list, Some u, w').
Proof.
  intros Hty. induction months as [|k months IH]; intros rows w; simpl.
  - exists w. now rewrite app_nil_r.
  - unfold pbind. rewrite usage_month_step_unknown by exact Hty.
    destruct (IH (rows ++ [u])%list (snd (Clock.now w))) as (w' & ->).
    exists w'. now rewrite <- app_assoc.
Qed.

(** The variable [usage] always holds the row appended last. *)
Lemma usage_last_row services_df :
  ensures (pfor_each usage_service_step services_df ([], None))
    (fun st => match snd st with
               | None => fst st = []
               | Some u => exists rows, fst st = (rows ++ [u])%list
               end).
Proof.
  apply pfor_each_invariant; [|reflexivity].
  intros st s _ Hst. unfold usage_service_step.
  destruct (Service.service_status s =? "Active")%string;
    [|now apply ensures_pret].
  apply pfor_each_invariant; [|exact Hst].
  intros st' k _ _ w out w'. unfold usage_month_step, pbind, lift.
  destruct (Clock.now w) as [now w1].
  destruct (usage_dispatch s _ w1) as [built w2]. cbn [fst snd].
  destruct built as [u|]; [|destruct (snd st') as [u|]];
    try discriminate; intros [= <- _]; cbn [fst snd]; eauto.
Qed.

(** X16: an Active subscription whose service type is none of Mobile,
    Internet and TV takes no branch of [generate_usage_data].  When no usage
    row has been built before it, the run raises UnboundLocalError for the
    variable usage, whatever follows; otherwise the subscription contributes
    twelve copies of the last row built before it, a row of another
    subscription. *)
Theorem unknown_type_reuses_last_row (pre : list Service.t) (s : Service.t)
  (w w1 : World) (rows : list Usage.t) :
  Service.service_status s = "Active" ->
  ~ In (Service.service_type s) ["Mobile"; "Internet"; "TV"] ->
  generate_usage_data pre w = inr (rows, w1) ->
  match rows with
  | [] =>
      forall post,
        generate_usage_data (pre ++ s :: post) w = inl (UnboundLocalError "usage")
  | r :: rs =>
      exists w2,
        generate_usage_data (pre ++ [s]) w
        = inr ((rows ++ repeat (last rs r) 12)%list, w2)
  end.
Proof.
  intros Hact Hty. unfold generate_usage_data, pbind.
  destruct (pfor_each usage_service_step pre ([], None) w) as [e|[st w0]] eqn:E;
    [discriminate|].
  unfold pret. intros [= <- <-].
  pose proof (usage_last_row pre w st w0 E) as Hst. cbv beta in Hst.
  destruct st as [acc [u|]]; cbn [fst snd] in *.
  - destruct Hst as (l & ->).
    assert (Hstep : exists w2,
              usage_service_step ((l ++ [u])%list, Some u) s w0
              = inr (((l ++ [u]) ++ repeat u 12)%list, Some u, w2)).
    { unfold usage_service_step. rewrite Hact. cbn [String.eqb Ascii.eqb Bool.eqb].
      exact (usage_months_unknown s u (range 12) Hty _ w0). }
    destruct Hstep as (w2 & Hstep).
    assert (Hlast : forall d, last (l ++ [u]) d = u) by (intros d; apply last_last).
    destruct (l ++ [u])%list as [|r rs] eqn:El.
    + destruct l; discriminate.
    + exists w2. rewrite pfor_each_app, E. cbn [pfor_each]. unfold pbind.
      rewrite Hstep. unfold pret. cbn [fst].
      replace (last rs r) with u; [reflexivity|].
      rewrite <- (Hlast r). destruct rs; reflexivity.
  - subst acc. intros post. rewrite pfor_each_app, E. cbn [pfor_each].
    unfold pbind. unfold usage_service_step at 1. rewrite Hact.
    cbn [String.eqb Ascii.eqb Bool.eqb]. unfold range. simpl seq.
    cbn [pfor_each]. unfold pbind.
    now rewrite usage_month_step_unknown by exact Hty.
Qed.

Lemma unknown_type_reuses_last_row_witness :
  generate_usage_data
    ([] ++ [Service.mk "CUST_000001" "SVC_00000001" "PLAN_X" "Fax" "Fax" 9.99
              0 "Active" true 0 0])
    (world0 0)
  = inl (UnboundLocalError "usage").
Proof.
  refine (unknown_type_reuses_last_row []
            (Service.mk "CUST_000001" "SVC_00000001" "PLAN_X" "Fax" "Fax" 9.99
               0 "Active" true 0 0)
            (world0 0) (world0 0) [] _ _ _ []).
  - reflexivity.
  - simpl. intros [H|[H|[H|[]]]]; discriminate H.
  - reflexivity.
Defined.

(* ------------------------------------------------------------------ *)
(** ** Further properties: the upsell score *)

(** The truth test on the latest score changes nothing for a bound of 8: a
    score of 0 is below it anyway. *)
Lemma nps_at_least_8 latest_nps :
  nps_at_least latest_nps 8
  = match latest_nps with Some n => 8 <=? n | None => false end.
Proof.
  unfold nps_at_least, truthy. destruct latest_nps as [n|]; [|reflexivity].
  destruct (Z.eqb_spec n 0) as [->|_]; reflexivity.
Qed.

Local Open Scope Q_scope.

(** Rounding is monotone around the integers: it never takes a number
    across one. *)
Lemma py_round_ge (a : Z) x nd : inject_Z a <= x -> inject_Z a <= Num.py_round x nd.
Proof.
  intros Ha. unfold Num.py_round.
  set (s := (10 ^ Z.of_nat nd)%Z).
  assert (Hs : (0 < s)%Z) by (apply Z.pow_pos_nonneg; lia).
  assert (Hs' : 0 < inject_Z s).
  { change 0 with (inject_Z 0). now rewrite <- Zlt_Qlt. }
  set (y := x * inject_Z s).
  assert (Hlo : (a * s <= Num.round_half_even y)%Z).
  { pose proof (round_half_even_floor y) as Hf.
    assert (a * s <= Qfloor y)%Z; [|lia].
    rewrite <- (Qfloor_Z (a * s)). apply Qfloor_resp_le.
    rewrite inject_Z_mult. subst y. nra. }
  rewrite Zle_Qle, inject_Z_mult in Hlo.
  apply Qle_shift_div_l; [exact Hs'|exact Hlo].
Qed.

Lemma py_round_le (b : Z) x nd : x <= inject_Z b -> Num.py_round x nd <= inject_Z b.
Proof.
  intros Hb. unfold Num.py_round.
  set (s := (10 ^ Z.of_nat nd)%Z).
  assert (Hs : (0 < s)%Z) by (apply Z.pow_pos_nonneg; lia).
  assert (Hs' : 0 < inject_Z s).
  { change 0 with (inject_Z 0). now rewrite <- Zlt_Qlt. }
  set (y := x * inject_Z s).
  assert (Hhi : (Num.round_half_even y <= b * s)%Z).
  { destruct (round_half_even_near y) as [_ Hn].
    assert (H2 : inject_Z (2 * Num.round_half_even y) <= inject_Z (2 * (b * s) + 1)).
    { rewrite inject_Z_plus, !inject_Z_mult.
      change (inject_Z 2) with 2. change (inject_Z 1) with 1. subst y. nra. }
    rewrite <- Zle_Qle in H2. lia. }
  rewrite Zle_Qle, inject_Z_mult in Hhi.
  apply Qle_shift_div_r; [exact Hs'|exact Hhi].
Qed.

Local Close Scope Q_scope.

(** X17: upsell_score is the plain sum of its four flags, the cap at 100
    never changing it: 30 when the customer has fewer than 3 Active
    subscriptions, 20 for low revenue, 25 when the mean satisfaction, 5
    without tickets, is at least 4, and 25 when the latest NPS score is at
    least 8.  The low-revenue flag is set for a customer with bills whose
    reported monthly_revenue is below 100 and is not set when it is above
    100; a customer without bills is reported with monthly_revenue 0 and
    yet does not get the flag. *)
Theorem upsell_score_flags (customers_df : list Customer.t)
  (services_df : list Service.t) (billing_df : list Billing.t)
  (tickets_df : list Ticket.t) (nps_df : list Survey.t) (w : World) :
  match calculate_customer_metrics customers_df services_df billing_df
          tickets_df nps_df w with
  | inr (rows, _) =>
      Forall2 (fun c m =>
                 let bills := own Billing.customer_id c billing_df in
                 let tickets := own Ticket.customer_id c tickets_df in
                 let satisfaction :=
                   mean_or 5 (map (fun t => inject_Z (Ticket.satisfaction_rating t))
                                  tickets) in
                 exists low_revenue : bool,
                   Metric.upsell_score m
                   = 30 * bit (Metric.active_services m <? 3)%nat
                     + 20 * bit low_revenue
                     + 25 * bit (Qle_bool 4 satisfaction)
                     + 25 * bit (match Metric.latest_nps_score m with
                                 | Some n => 8 <=? n
                                 | None => false
                                 end) /\
                   (bills = [] ->
                    low_revenue = false /\ Metric.monthly_revenue m = 0%Q) /\
                   (bills <> [] -> (Metric.monthly_revenue m < 100)%Q ->
                    low_revenue = true) /\
                   ((100 < Metric.monthly_revenue m)%Q -> low_revenue = false))
              customers_df rows
  | inl _ =>
      customers_df <> [] /\ some_frame_empty services_df billing_df tickets_df nps_df
  end.
Proof.
  pose proof (metrics_rows customers_df services_df billing_df tickets_df nps_df w) as H.
  destruct (calculate_customer_metrics _ _ _ _ _ w) as [e|[rows w']] eqn:E; [tauto|].
  pose proof (metrics_ensures _ _ _ _ _
                (customer_metric_counts services_df billing_df tickets_df nps_df)
                customers_df w rows w' E) as HC.
  eapply Forall2_impl; [|exact (Forall2_conj _ _ _ _ H HC)].
  unfold metric_spec, metric_counts. cbv beta zeta.
  intros c m [(_ & _ & Hrev & _ & _ & _ & Hnps & _ & Hup) (_ & _ & Hact & _)].
  fold (own Billing.customer_id c billing_df) in Hrev, Hup.
  fold (own Service.customer_id c services_df) in Hup.
  fold (own Ticket.customer_id c tickets_df) in Hup.
  fold (own Survey.customer_id c nps_df) in Hup, Hnps.
  rewrite Hup, Hact, Hnps. rewrite Hrev. clear Hup Hact Hnps Hrev.
  pose proof (revenue_mean (own Billing.customer_id c billing_df)) as Hmean.
  unfold upsell. rewrite nps_at_least_8.
  destruct (own Billing.customer_id c billing_df) as [|b bills] eqn:Eb.
  - rewrite Hmean. cbn [nan_lt]. exists false.
    split; [|split; [split; reflexivity|split; [congruence|reflexivity]]].
    destruct (_ <? 3)%nat, (Qle_bool 4 _),
      (match latest (own Survey.customer_id c nps_df) with
       | Some n => 8 <=? n | None => false end); reflexivity.
  - destruct Hmean as (r & -> & _). cbn [nan_lt]. exists (Num.Qltb r 100).
    split; [|split; [discriminate|split]].
    + destruct (_ <? 3)%nat, (Num.Qltb r 100), (Qle_bool 4 _),
        (match latest (own Survey.customer_id c nps_df) with
         | Some n => 8 <=? n | None => false end); reflexivity.
    + intros _ Hlt. destruct (Num.Qltb r 100) eqn:Er; [reflexivity|].
      apply Qltb_ge in Er. pose proof (py_round_ge 100 r 2 Er) as Hge.
      exfalso. apply (Qlt_not_le _ _ Hlt). exact Hge.
    + intros Hgt. destruct (Num.Qltb r 100) eqn:Er; [|reflexivity].
      apply Qltb_lt in Er. apply Qlt_le_weak in Er.
      pose proof (py_round_le 100 r 2 Er) as Hle.
      exfalso. apply (Qlt_not_le _ _ Hgt). exact Hle.
Qed.

(* ------------------------------------------------------------------ *)
(** ** Further properties: the sizes of the tables *)

Lemma concat_length_sum {A R} (n : A -> nat) xs (blks : list (list R)) :
  Forall2 (fun x blk => List.length blk = n x) xs blks ->
  List.length (List.concat blks) = list_sum (map n xs).
Proof.
  induction 1 as [|x blk xs blks Hx _ IH]; simpl; [reflexivity|].
  now rewrite length_app, Hx, IH.
Qed.

Lemma list_sum_active (l : list Service.t) :
  list_sum (map (fun s => if is_active s then 12 else 0)%nat l)
  = (12 * List.length (filter is_active l))%nat.
Proof.
  induction l as [|s l IH]; simpl; [reflexivity|].
  destruct (is_active s); simpl; lia.
Qed.

Lemma list_sum_const {A} (k : nat) (l : list A) :
  list_sum (map (fun _ => k) l) = (k * List.length l)%nat.
Proof. induction l as [|x l IH]; simpl; lia. Qed.

(** X18: for every requested count n of at least 2 the run returns n
    customers, the 10 catalog plans, between n and 4n subscriptions, 12
    usage rows per Active subscription, 12 bills per subscription, between
    one and five tickets for each of the round(0.4 n) sampled customers,
    between one and three surveys for each of the round(0.3 n) sampled
    customers, and n metrics rows. *)
Theorem run_table_sizes (n : Z) (w : World) :
  2 <= n ->
  exists t w',
    generate_all_data (init (Some n)) w = inr (t, w') /\ sized (Z.to_nat n) t.
Proof.
  intros Hn.
  destruct (generate_all_data_trace (init (Some n)) w)
    as (cs & sv & us & bl & tk & ns & w1 & w2 & w3 & w4 & w5 & w6
        & Ec & Es & Eu & Eb & Et & En & ->).
  pose proof (customers_count (init (Some n)) w) as Hlen.
  rewrite Ec in Hlen. cbn [fst init num_customers] in Hlen.
  assert (Hcs : cs <> []) by (intros ->; simpl in Hlen; lia).
  assert (H2 : (2 <= List.length cs)%nat) by lia.
  destruct (catalog_services cs w1)
    as (sv0 & w20 & Es0 & (sblks & Hsv & _ & HFs) & _ & _ & Hne).
  assert (sv0 = sv) as -> by congruence. clear Es0 w20.
  pose proof (catalog_services_types _ _ _ _ Es) as Hty.
  destruct (usage_blocks sv w2 Hty) as (us0 & w30 & ublks & Eu0 & Hus & HFu).
  assert (us0 = us) as -> by congruence. clear Eu0 w30.
  destruct (billing_blocks sv w3) as (bblks & Hbl & HFb).
  rewrite Eb in Hbl. cbn [fst] in Hbl.
  destruct (tickets_blocks cs w4) as (tp & tblks & Htk & HFt & _ & Htp & _).
  rewrite Et in Htk. cbn [fst] in Htk.
  destruct (surveys_blocks cs w5) as (sp & nblks & Hns & HFn & _ & Hsp & _).
  rewrite En in Hns. cbn [fst] in Hns.
  pose proof (billing_nonempty sv (Hne Hcs) w3) as Hbne.
  rewrite Eb in Hbne. cbn [fst] in Hbne.
  pose proof (tickets_nonempty cs H2 w4) as Htne. rewrite Et in Htne. cbn [fst] in Htne.
  pose proof (surveys_nonempty cs H2 w5) as Hnne. rewrite En in Hnne. cbn [fst] in Hnne.
  destruct (metrics_returns cs sv bl tk ns w6) as (rows & wf & Hrun & HF).
  { unfold some_frame_empty. specialize (Hne Hcs). tauto. }
  unfold pbind. rewrite Hrun. unfold pret. eexists. eexists.
  split; [reflexivity|]. unfold sized.
  cbn [customers plans services usage billing support_tickets nps_surveys
       customer_metrics].
  split; [exact Hlen|]. split; [reflexivity|].
  split; [rewrite Hsv, <- Hlen; pose proof (concat_length_bounds 1 4 _ _ HFs); lia|].
  split; [|split; [|split; [|split]]].
  - rewrite Hus, <- list_sum_active. apply concat_length_sum.
    eapply Forall2_impl; [|exact HFu]. cbv beta. intros s blk (Hl & _). exact Hl.
  - rewrite Hbl, <- (list_sum_const 12 sv). apply concat_length_sum.
    eapply Forall2_impl; [|exact HFb]. cbv beta. intros s blk (Hl & _). exact Hl.
  - rewrite <- Htp, Htk.
    assert (Hb : Forall2 (fun (_ : Customer.t) (blk : list Ticket.t) =>
                            (1 <= List.length blk <= 5)%nat) tp tblks).
    { eapply Forall2_impl; [|exact HFt]. cbv beta. tauto. }
    pose proof (concat_length_bounds 1 5 _ _ Hb). lia.
  - rewrite <- Hsp, Hns.
    assert (Hb : Forall2 (fun (_ : Customer.t) (blk : list Survey.t) =>
                            (1 <= List.length blk <= 3)%nat) sp nblks).
    { eapply Forall2_impl; [|exact HFn]. cbv beta. tauto. }
    pose proof (concat_length_bounds 1 3 _ _ Hb). lia.
  - rewrite <- (Forall2_length HF). exact Hlen.
Qed.

Lemma run_table_sizes_witness :
  exists t w',
    generate_all_data (init (Some 2)) (world0 0) = inr (t, w') /\
    sized (Z.to_nat 2) t.
Proof. apply (run_table_sizes 2 (world0 0)). lia. Defined.

(* ------------------------------------------------------------------ *)
(** ** Further properties: the metrics of a run *)

Local Open Scope Q_scope.

Lemma Qsum_bounds lo hi (l : list Q) :
  Forall (fun x => lo <= x /\ x <= hi) l ->
  inject_Z (Z.of_nat (List.length l)) * lo <= Num.Qsum l /\
  Num.Qsum l <= inject_Z (Z.of_nat (List.length l)) * hi.
Proof.
  unfold Num.Qsum. induction 1 as [|x l [Hlo Hhi] _ [IH1 IH2]].
  - cbn [List.length Z.of_nat fold_right]. change (inject_Z 0) with 0. split; lra.
  - cbn [List.length fold_right]. rewrite Nat2Z.inj_succ. unfold Z.succ.
    rewrite inject_Z_plus. change (inject_Z 1) with 1. split; lra.
Qed.

Lemma avg_bounds lo hi (l : list Q) :
  l <> [] -> Forall (fun x => lo <= x /\ x <= hi) l ->
  lo <= Num.avg l /\ Num.avg l <= hi.
Proof.
  intros Hne Hl. destruct (Qsum_bounds lo hi l Hl) as [H1 H2]. unfold Num.avg.
  assert (Hn : 0 < inject_Z (Z.of_nat (List.length l))).
  { change 0 with (inject_Z 0). rewrite <- Zlt_Qlt.
    destruct l; [contradiction|simpl; lia]. }
  split.
  - apply Qle_shift_div_l; [exact Hn|]. lra.
  - apply Qle_shift_div_r; [exact Hn|]. lra.
Qed.

Lemma mean_or_bounds lo hi default (l : list Q) :
  lo <= default -> default <= hi ->
  Forall (fun x => lo <= x /\ x <= hi) l ->
  lo <= mean_or default l /\ mean_or default l <= hi.
Proof.
  intros H1 H2 Hl. unfold mean_or.
  destruct l as [|x l]; [simpl; split; assumption|].
  cbn [List.length Nat.ltb Nat.leb]. apply avg_bounds; [discriminate|exact Hl].
Qed.

(** Rounding never crosses an integer. *)
Lemma py_round_between (a b : Z) x nd :
  inject_Z a <= x -> x <= inject_Z b ->
  inject_Z a <= Num.py_round x nd /\ Num.py_round x nd <= inject_Z b.
Proof.
  intros Ha Hb. split; [now apply py_round_ge|now apply py_round_le].
Qed.

Lemma Qsum_nonneg (l : list Q) : Forall (fun x => 0 <= x) l -> 0 <= Num.Qsum l.
Proof.
  unfold Num.Qsum. induction 1 as [|x l Hx _ IH]; simpl; lra.
Qed.

Local Close Scope Q_scope.

Lemma rows_with_pos {R} (key : R -> string) k (df : list R) :
  (1 <= rows_with key k df)%nat -> exists r, In r df /\ key r = k.
Proof.
  unfold rows_with. intros H.
  destruct (filter (fun r => (key r =? k)%string) df) as [|r rs] eqn:E;
    [simpl in H; lia|].
  assert (Hr : In r (filter (fun r => (key r =? k)%string) df))
    by (rewrite E; now left).
  apply filter_In in Hr. destruct Hr as [Hr Hk].
  exists r. split; [exact Hr|]. now apply String.eqb_eq.
Qed.

Lemma Forall2_In_l {A B} (Q : A -> B -> Prop) xs ys x :
  Forall2 Q xs ys -> In x xs -> exists y, In y ys /\ Q x y.
Proof.
  induction 1 as [|a b xs ys Hab _ IH]; simpl; [contradiction|].
  intros [->|Hx]; [exists b; auto|].
  destruct (IH Hx) as (y & Hy & HQ). exists y. auto.
Qed.

Lemma resolution_hours_range t :
  ticket_fields t ->
  (0 <= Ticket.resolution_time_hours t /\ Ticket.resolution_time_hours t <= 72)%Q.
Proof.
  intros ((lo & hi & Hin & Hlo & Hhi) & _). unfold resolution_ranges in Hin.
  cbn [In] in Hin.
  destruct Hin as [H|[H|[H|[H|[H|[]]]]]]; injection H as _ <- <-; split; lra.
Qed.

(** Per-customer facts about the frames of a run that the metrics rows
    inherit. *)
Lemma metric_ranges_of services_df billing_df tickets_df nps_df c m :
  metric_spec services_df billing_df tickets_df nps_df c m ->
  metric_counts services_df tickets_df c m ->
  (1 <= rows_with Service.customer_id (Customer.customer_id c) services_df <= 4)%nat ->
  (rows_with Ticket.customer_id (Customer.customer_id c) tickets_df <= 5)%nat ->
  own Billing.customer_id c billing_df <> [] ->
  Forall (fun b => bill_ok b /\ (1 <= Billing.amount_due b)%Q) billing_df ->
  Forall ticket_fields tickets_df ->
  Forall survey_fields nps_df ->
  metric_ranges m.
Proof.
  unfold metric_spec, metric_counts, metric_ranges. cbv zeta.
  intros (_ & Htk & Hrev & Htlv & Hres & Hsat & Hnps & _)
         (_ & Htot & _ & Hle & _) Hsv Htc Hbills Hbl Htf Hsf.
  fold (own Billing.customer_id c billing_df) in Hrev, Htlv.
  fold (own Ticket.customer_id c tickets_df) in Htk, Hres, Hsat.
  fold (own Survey.customer_id c nps_df) in Hnps.
  fold (own Service.customer_id c services_df) in Htot.
  apply (own_Forall _ Billing.customer_id c) in Hbl.
  apply (own_Forall _ Ticket.customer_id c) in Htf.
  apply (own_Forall _ Survey.customer_id c) in Hsf.
  split; [rewrite Htot; exact Hsv|]. split; [exact Hle|].
  split; [rewrite Htk; exact Htc|]. split; [|split; [|split; [|split]]].
  - rewrite Hrev. clear Hrev Htlv.
    pose proof (revenue_mean (own Billing.customer_id c billing_df)) as Hmean.
    set (bills := own Billing.customer_id c billing_df) in *.
    destruct bills as [|b bills'] eqn:Eb; [contradiction|]. rewrite <- Eb in *.
    destruct Hmean as (r & -> & Hr).
    assert (H1 : (inject_Z 1 <= r)%Q).
    { rewrite Hr.
      set (dates := nodup Z.eq_dec (map Billing.bill_date bills)).
      assert (Hd1 : (1 <= List.length dates)%nat).
      { assert (Hin : In (Billing.bill_date b) dates).
        { apply nodup_In. rewrite Eb. now left. }
        destruct dates; [contradiction|simpl; lia]. }
      assert (Hd2 : (List.length dates <= List.length bills)%nat).
      { rewrite <- (length_map Billing.bill_date bills).
        apply NoDup_incl_length; [apply NoDup_nodup|].
        intros x Hx. now apply nodup_In in Hx. }
      assert (Hsum : (inject_Z (Z.of_nat (List.length bills)) * 1
                      <= Num.Qsum (map Billing.amount_due bills))%Q).
      { clear -Hbl. unfold Num.Qsum.
        induction Hbl as [|x l [_ Hx] _ IH].
        - cbn [map List.length Z.of_nat fold_right]. change (inject_Z 0) with 0%Q. lra.
        - cbn [map List.length fold_right]. rewrite Nat2Z.inj_succ. unfold Z.succ.
          rewrite inject_Z_plus. change (inject_Z 1) with 1%Q. lra. }
      assert (Hq1 : (0 < inject_Z (Z.of_nat (List.length dates)))%Q).
      { change 0%Q with (inject_Z 0). rewrite <- Zlt_Qlt. lia. }
      assert (Hq2 : (inject_Z (Z.of_nat (List.length dates))
                     <= inject_Z (Z.of_nat (List.length bills)))%Q).
      { rewrite <- Zle_Qle. lia. }
      apply Qle_shift_div_l; [exact Hq1|]. change (inject_Z 1) with 1%Q. lra. }
    pose proof (round_half_even_floor (r * inject_Z (10 ^ Z.of_nat 2))) as Hf.
    unfold Num.py_round. apply Qlt_shift_div_l; [reflexivity|].
    rewrite Qmult_0_l. change 0%Q with (inject_Z 0). rewrite <- Zlt_Qlt.
    assert (100 <= Qfloor (r * inject_Z (10 ^ Z.of_nat 2)))%Z; [|lia].
    rewrite <- (Qfloor_Z 100). apply Qfloor_resp_le.
    change (inject_Z (10 ^ Z.of_nat 2)) with 100%Q.
    change (inject_Z 100) with 100%Q. change (inject_Z 1) with 1%Q in H1. lra.
  - rewrite Htlv. apply py_round_nonneg. apply Qsum_nonneg.
    apply Forall_map. eapply Forall_impl; [|exact Hbl]. cbv beta.
    intros b [[(_ & _ & -> & _)|[(_ & _ & -> & _)|(_ & _ & -> & _)]] Hd]; lra.
  - rewrite Hres.
    destruct (mean_or_bounds 0 72 0
                (map Ticket.resolution_time_hours
                     (own Ticket.customer_id c tickets_df))) as [H1 H2];
      [lra|lra| |exact (py_round_between 0 72 _ 1 H1 H2)].
    apply Forall_map. eapply Forall_impl; [|exact Htf].
    apply resolution_hours_range.
  - rewrite Hsat.
    assert (Hr : Forall (fun x => (inject_Z 1 <= x /\ x <= inject_Z 5)%Q)
                   (map (fun t => inject_Z (Ticket.satisfaction_rating t))
                        (own Ticket.customer_id c tickets_df))).
    { apply Forall_map. eapply Forall_impl; [|exact Htf]. cbv beta.
      intros t (_ & _ & _ & Hs & _). rewrite <- !Zle_Qle. exact Hs. }
    assert (H15 : (inject_Z 1 <= 5 /\ 5 <= inject_Z 5)%Q)
      by (split; unfold Qle; cbn; lia).
    destruct (mean_or_bounds _ _ 5 _ (proj1 H15) (proj2 H15) Hr) as [H1 H2].
    exact (py_round_between 1 5 _ 1 H1 H2).
  - rewrite Hnps. destruct (own Survey.customer_id c nps_df) as [|s rest];
      [exact I|].
    cbn [latest]. destruct (idxmax_spec rest s) as (Hin & _).
    rewrite Forall_forall in Hsf. destruct (Hsf _ Hin) as [Hs _]. exact Hs.
Qed.

Lemma Forall2_Forall_r {A B} (P : A -> Prop) (Q : A -> B -> Prop) (S : B -> Prop)
  xs ys :
  (forall x y, P x -> Q x y -> S y) ->
  Forall P xs -> Forall2 Q xs ys -> Forall S ys.
Proof.
  intros H HP HQ. induction HQ as [|x y xs ys Hxy _ IH]; [constructor|].
  inversion HP; subst. constructor; eauto.
Qed.

(** Every bill of a subscription with a non-negative fee is for at least 1. *)
Lemma billing_at_least_1 services_df :
  Forall (fun s => (0 <= Service.monthly_fee s)%Q) services_df ->
  returns (generate_billing_data services_df)
          (Forall (fun b => bill_ok b /\ (1 <= Billing.amount_due b)%Q)).
Proof.
  intros Hfees w.
  pose proof (billing_all_ok services_df w) as Hok.
  destruct (billing_blocks_of _ new_bill_amounts services_df w) as (blks & E & HF).
  rewrite E in *. apply concat_owner in HF.
  rewrite Forall_forall in *. intros b Hb. split; [now apply Hok|].
  destruct (HF b Hb) as (s & Hs & _ & _ & _ & Hlo & _).
  specialize (Hfees s Hs). cbv beta in Hfees. lra.
Qed.

(** A customer with a subscription has bills. *)
Lemma bills_of_customer services_df c w :
  (1 <= rows_with Service.customer_id (Customer.customer_id c) services_df)%nat ->
  own Billing.customer_id c (fst (generate_billing_data services_df w)) <> [].
Proof.
  intros Hc. destruct (rows_with_pos _ _ _ Hc) as (s & Hs & Hid).
  destruct (billing_blocks services_df w) as (blks & -> & HF).
  destruct (Forall2_In_l _ _ _ _ HF Hs) as (blk & Hblk & Hlen & Hrows).
  destruct blk as [|b blk]; [discriminate|].
  inversion Hrows as [|? ? (_ & _ & Hb) _]; subst.
  assert (Hin : In b (own Billing.customer_id c (List.concat blks))).
  { unfold own. apply filter_In. split.
    - apply in_concat. exists (b :: blk). split; [exact Hblk|now left].
    - apply String.eqb_eq. congruence. }
  intros E. rewrite E in Hin. contradiction.
Qed.

(** X19: in a run for at least 2 customers every metrics row has between 1
    and 4 subscriptions, no more Active than total, at most 5 tickets, a
    positive monthly_revenue, a non-negative total_lifetime_value, an
    average resolution time between 0 and 72 hours, an average satisfaction
    between 1 and 5, and a latest NPS score, when there is one, between 0
    and 10. *)
Theorem run_metrics_in_range (n : Z) (w : World) :
  2 <= n ->
  exists t w',
    generate_all_data (init (Some n)) w = inr (t, w') /\
    Forall metric_ranges (customer_metrics t).
Proof.
  intros Hn.
  destruct (generate_all_data_trace (init (Some n)) w)
    as (cs & sv & us & bl & tk & ns & w1 & w2 & w3 & w4 & w5 & w6
        & Ec & Es & Eu & Eb & Et & En & ->).
  pose proof (customers_count (init (Some n)) w) as Hlen.
  pose proof (customers_NoDup (init (Some n)) w) as Hnd.
  rewrite Ec in Hlen, Hnd. cbn [fst init num_customers] in Hlen, Hnd.
  assert (Hcs : cs <> []) by (intros ->; simpl in Hlen; lia).
  assert (H2 : (2 <= List.length cs)%nat) by lia.
  destruct (catalog_services cs w1)
    as (sv0 & w20 & Es0 & (sblks & Hsv & HFs & Hsize) & _ & _ & Hne).
  assert (sv0 = sv) as -> by congruence. clear Es0 w20.
  pose proof (catalog_services_fees _ _ _ _ Es) as Hfees.
  assert (F1 : Forall (fun c =>
                 (1 <= rows_with Service.customer_id (Customer.customer_id c) sv
                  <= 4)%nat) cs).
  { assert (Hown : Forall2 (fun c blk =>
               Forall (fun s => Service.customer_id s = Customer.customer_id c) blk)
               cs sblks).
    { eapply Forall2_impl; [|exact HFs]. intros c blk. apply cust_block_owner. }
    pose proof (rows_with_block _ _ _ _ Hown Hnd [] (Forall_nil _)) as Hrows.
    simpl in Hrows. rewrite <- Hsv in Hrows.
    apply Forall2_left with (ys := sblks).
    eapply Forall2_impl; [|exact (Forall2_conj _ _ _ _ Hrows Hsize)].
    cbv beta. intros c blk [-> Hb]. exact Hb. }
  destruct (tickets_blocks cs w4) as (tp & tblks & Htk & HFt & Hit & _ & Hnt).
  rewrite Et in Htk. cbn [fst] in Htk.
  destruct (surveys_blocks cs w5) as (sp & nblks & Hns & HFn & Hin & _).
  rewrite En in Hns. cbn [fst] in Hns.
  assert (F2 : Forall (fun c =>
                 (rows_with Ticket.customer_id (Customer.customer_id c) tk <= 5)%nat)
                 cs).
  { destruct (sampled_counts Ticket.customer_id ticket_row 1 5 cs tp tblks)
      as [_ Hc]; auto.
    { intros c r H. apply H. }
    rewrite Htk. eapply Forall_impl; [|exact Hc]. cbv beta zeta. lia. }
  assert (F3 : Forall (fun c => own Billing.customer_id c bl <> []) cs).
  { eapply Forall_impl; [|exact F1]. cbv beta. intros c [Hc _].
    pose proof (bills_of_customer sv c w3 Hc) as H. now rewrite Eb in H. }
  pose proof (billing_at_least_1 sv Hfees w3) as F4. rewrite Eb in F4. cbn [fst] in F4.
  assert (F5 : Forall ticket_fields tk).
  { rewrite Htk.
    eapply Forall_impl; [|exact (sampled_rows ticket_row 1 5 _ _ _ Hit HFt)].
    cbv beta. intros t (c & _ & _ & _ & Hf). exact Hf. }
  assert (F6 : Forall survey_fields ns).
  { rewrite Hns.
    eapply Forall_impl; [|exact (sampled_rows survey_row 1 3 _ _ _ Hin HFn)].
    cbv beta. intros s (c & _ & _ & _ & Hf). exact Hf. }
  pose proof (billing_nonempty sv (Hne Hcs) w3) as Hbne.
  rewrite Eb in Hbne. cbn [fst] in Hbne.
  pose proof (tickets_nonempty cs H2 w4) as Htne. rewrite Et in Htne. cbn [fst] in Htne.
  pose proof (surveys_nonempty cs H2 w5) as Hnne. rewrite En in Hnne. cbn [fst] in Hnne.
  destruct (metrics_returns cs sv bl tk ns w6) as (rows & wf & Hrun & HF).
  { unfold some_frame_empty. specialize (Hne Hcs). tauto. }
  pose proof (metrics_ensures _ _ _ _ _ (customer_metric_counts sv bl tk ns)
                cs w6 rows wf Hrun) as HC.
  unfold pbind. rewrite Hrun. unfold pret. eexists. eexists.
  split; [reflexivity|]. cbn [customer_metrics].
  apply (Forall2_Forall_r
           (fun c => ((1 <= rows_with Service.customer_id (Customer.customer_id c) sv
                       <= 4)%nat /\
                      (rows_with Ticket.customer_id (Customer.customer_id c) tk
                       <= 5)%nat) /\
                     own Billing.customer_id c bl <> [])
           (fun c m => metric_spec sv bl tk ns c m /\ metric_counts sv tk c m)
           metric_ranges cs rows).
  - intros c m [[Hc1 Hc2] Hc3] [Hs Hcnt].
    exact (metric_ranges_of sv bl tk ns c m Hs Hcnt Hc1 Hc2 Hc3 F4 F5 F6).
  - rewrite Forall_forall in *. intros c Hc. auto.
  - exact (Forall2_conj _ _ _ _ HF HC).
Qed.

Lemma run_metrics_in_range_witness :
  exists t w',
    generate_all_data (init (Some 2)) (world0 0) = inr (t, w') /\
    Forall metric_ranges (customer_metrics t).
Proof. apply (run_metrics_in_range 2 (world0 0)). lia. Defined.

(* ------------------------------------------------------------------ *)
(** ** The dates of usage rows and bills *)
























(* ------------------------------------------------------------------ *)
(** ** The number of subscriptions of one customer *)

Local Open Scope Z_scope.

Lemma filter_true {A} (l : list A) : filter (fun _ => true) l = l.
Proof. induction l as [|x l IH]; simpl; [reflexivity|now rewrite IH]. Qed.

(** The candidate pool the loop builds is the pool of the segment. *)
Lemma available_plans_pool c p ps :
  available_plans c (p :: ps) = inr (segment_pool c (p :: ps)).
Proof.
  unfold available_plans, segment_pool, where_plan_name, enterprise_words.
  destruct (Customer.customer_segment c =? "Enterprise")%string; [reflexivity|].
  destruct (Customer.customer_segment c =? "Small Business")%string; [reflexivity|].
  cbv zeta. now rewrite filter_true.
Qed.

(** One iteration of the loop over customers, from the world it starts
    in: the count drawn first, capped at the size of the pool, is the number
    of rows appended. *)
Lemma customer_services_exact p ps services c w :
  exists blk w',
    customer_services (p :: ps) services c w = inr ((services ++ blk)%list, w') /\
    let num_services := fst (Random.choices (1, 30) [(2, 40); (3, 20); (4, 10)] w) in
    let pool := segment_pool c (p :: ps) in
    1 <= num_services <= 4 /\
    Z.of_nat (List.length blk) = Z.min num_services (Z.of_nat (List.length pool)) /\
    Forall (fun s => exists q, In q pool /\ svc_of c q s) blk.
Proof.
  pose proof (choices_1_4 w) as Hn. cbv beta in Hn.
  unfold customer_services, pbind, lift, result.
  rewrite available_plans_pool.
  destruct (Random.choices (1, 30) [(2, 40); (3, 20); (4, 10)] w) as [n w1].
  cbn [fst] in *.
  set (pool := segment_pool c (p :: ps)).
  set (k := Z.to_nat (Num.py_minZ n (Z.of_nat (List.length pool)))).
  pose proof (sample_n_spec k pool w1) as [Hlen Hincl].
  destruct (Numpy.sample_n k pool w1) as [selected w2]. cbn [fst] in *.
  pose proof (for_each_blocks
                (fun services plan =>
                   bind (new_service c services plan)
                        (fun service => ret (services ++ [service])%list))
                (fun q blk => exists s, blk = [s] /\ In q pool /\ svc_of c q s)
                selected) as Hloop.
  assert (Hbody : forall acc q, In q selected ->
            returns (bind (new_service c acc q)
                          (fun service => ret (acc ++ [service])%list))
              (fun out => exists blk, out = (acc ++ blk)%list /\
                          exists s, blk = [s] /\ In q pool /\ svc_of c q s)).
  { intros acc q Hq. eapply returns_bind; [apply new_service_spec|].
    intros s [Hs _]. apply returns_ret. exists [s]. split; [reflexivity|].
    exists s. auto. }
  specialize (Hloop Hbody services w2).
  destruct (for_each _ selected services w2) as [out w3]. cbn [fst] in Hloop.
  destruct Hloop as (blks & -> & HF).
  exists (List.concat blks), w3. split; [reflexivity|].
  assert (Hblk : List.length (List.concat blks) = List.length selected).
  { clear -HF. induction HF as [|q blk qs blks (s & -> & _) _ IH]; simpl; auto. }
  split; [exact Hn|]. split.
  - rewrite Hblk, Hlen. subst k. unfold Num.py_minZ.
    destruct (Z.ltb_spec (Z.of_nat (List.length pool)) n); lia.
  - apply concat_Forall with (xs := selected).
    eapply Forall2_impl; [|exact HF]. cbv beta.
    intros q blk (s & -> & Hin & Hs). constructor; [eauto|constructor].
Qed.

Lemma services_at before c after p ps w :
  exists rows_before w_c blk w_c' rows_after w',
    generate_customer_services before (p :: ps) w = inr (rows_before, w_c) /\
    generate_customer_services (before ++ [c]) (p :: ps) w
    = inr ((rows_before ++ blk)%list, w_c') /\
    generate_customer_services (before ++ c :: after) (p :: ps) w
    = inr ((rows_before ++ blk ++ rows_after)%list, w') /\
    let num_services := fst (Random.choices (1, 30) [(2, 40); (3, 20); (4, 10)] w_c) in
    let pool := segment_pool c (p :: ps) in
    1 <= num_services <= 4 /\
    Z.of_nat (List.length blk) = Z.min num_services (Z.of_nat (List.length pool)) /\
    Forall (fun s => exists q, In q pool /\ svc_of c q s) blk.
Proof.
  destruct (services_blocks before (p :: ps) ltac:(discriminate) w)
    as (rows_before & w_c & E & _).
  destruct (customer_services_exact p ps rows_before c w_c)
    as (blk & w_c' & Ec & Hblk).
  destruct (pfor_each_appends (customer_services (p :: ps))
              (cust_block (p :: ps)) after
              (fun acc x _ => customer_services_block (p :: ps) acc x
                                ltac:(discriminate))
              (rows_before ++ blk)%list w_c')
    as (out & w' & Ea & blks & -> & _).
  exists rows_before, w_c, blk, w_c', (List.concat blks), w'.
  unfold generate_customer_services in *.
  split; [exact E|]. split; [|split; [|exact Hblk]].
  - rewrite pfor_each_app, E. cbn [pfor_each]. unfold pbind. rewrite Ec.
    reflexivity.
  - rewrite pfor_each_app, E. cbn [pfor_each]. unfold pbind. rewrite Ec, Ea.
    now rewrite app_assoc.
Qed.

Lemma catalog_segment_pool c :
  (4 <= List.length (segment_pool c generate_service_plans))%nat.
Proof.
  apply (catalog_pool_size c).
  exact (available_plans_pool c _ _).
Qed.

(** C7: in [generate_customer_services] the rows created for a customer are
    min(count drawn for that customer, size of the customer's segment pool)
    many: run over the customers before [c], the loop reaches a world
    [w_c]; the count [num_services] is the value [random.choices] draws
    in [w_c], between 1 and 4; the iteration for [c] appends a block of
    exactly min(num_services, size of the pool) rows, each owned by [c] and
    copied from a plan of the pool, and the loop returns, however small the
    pool.  This holds for any customers whose accounts were created no later
    than the days the clock reads and any plan frame with columns.  Every
    pool cut from the ten-row catalog holds at least four plans, so a
    generated customer gets between 1 and 4 subscriptions, the total for N
    customers lies between N and 4N, and every subscription carries the
    plan_id of a catalog plan. *)
Theorem subscriptions_per_customer (self : TelcoDataGenerator) (w w' : World) :
  let customers_df := fst (generate_customer_demographics self w) in
  let plans_df := generate_service_plans in
  (forall (before after : list Customer.t) (c : Customer.t)
          (p : Plan.t) (ps : list Plan.t) (w0 : World),
     accounts_in_the_past (before ++ c :: after) w0 ->
     exists rows_before w_c blk w_c' rows_after w1,
       generate_customer_services before (p :: ps) w0 = inr (rows_before, w_c) /\
       generate_customer_services (before ++ [c]) (p :: ps) w0
       = inr ((rows_before ++ blk)%list, w_c') /\
       generate_customer_services (before ++ c :: after) (p :: ps) w0
       = inr ((rows_before ++ blk ++ rows_after)%list, w1) /\
       let num_services :=
         fst (Random.choices (1, 30) [(2, 40); (3, 20); (4, 10)] w_c) in
       let pool := segment_pool c (p :: ps) in
       1 <= num_services <= 4 /\
       Z.of_nat (List.length blk)
       = Z.min num_services (Z.of_nat (List.length pool)) /\
       Forall (fun s => exists q, In q pool /\ svc_of c q s) blk) /\
  (forall c, (4 <= List.length (segment_pool c plans_df))%nat) /\
  (accounts_in_the_past customers_df w' ->
   exists services w1,
     generate_customer_services customers_df plans_df w' = inr (services, w1) /\
     Forall (fun c =>
               (1 <= rows_with Service.customer_id (Customer.customer_id c) services
                <= 4)%nat) customers_df /\
     List.length customers_df = Z.to_nat (num_customers self) /\
     (List.length customers_df <= List.length services
      <= 4 * List.length customers_df)%nat /\
     List.length plans_df = 10%nat /\
     Forall (fun s => In (Service.plan_id s) (map Plan.plan_id plans_df)) services).
Proof.
  intros customers_df plans_df. split; [|split].
  - intros before after c p ps w0 _. apply services_at.
  - apply catalog_segment_pool.
  - intros _. destruct (catalog_services customers_df w')
      as (services & w1 & E & (blks & Hs & HF & Hsize) & _ & Hplans & _).
    exists services, w1. split; [exact E|].
    split; [|split; [|split; [|split]]].
    + pose proof (customers_NoDup self w) as Hnd. fold customers_df in Hnd.
      assert (Hown : Forall2 (fun c blk =>
                 Forall (fun s => Service.customer_id s = Customer.customer_id c) blk)
                 customers_df blks).
      { eapply Forall2_impl; [|exact HF]. intros c blk. apply cust_block_owner. }
      pose proof (rows_with_block _ _ _ _ Hown Hnd [] (Forall_nil _)) as Hrows.
      simpl in Hrows. rewrite <- Hs in Hrows.
      apply Forall2_left with (ys := blks).
      eapply Forall2_impl; [|exact (Forall2_conj _ _ _ _ Hrows Hsize)].
      cbv beta. intros c blk [-> Hb]. exact Hb.
    + apply customers_count.
    + rewrite Hs. pose proof (concat_length_bounds 1 4 _ _ Hsize). lia.
    + reflexivity.
    + eapply Forall_impl; [|exact Hplans]. cbv beta.
      intros s (p & Hp & Hid & _). rewrite Hid. now apply in_map.
Qed.

(** A customer of the Individual segment and a frame of one plan: the
    pool holds one plan, which caps the count; and the customers generated
    for a count of 2, with the clock that generated them. *)
Lemma subscriptions_per_customer_witness :
  let w0 := world0 1762000000000000 in
  let c := Sample.customer in
  let p := Plan.mk "PLAN_001" "Basic Mobile" "Mobile" 35.99
             (Some (Num 5)) (Some (Num 500)) (Some Unlimited) None None None None in
  let customers_df := fst (generate_customer_demographics (init (Some 2)) w0) in
  let plans_df := generate_service_plans in
  (accounts_in_the_past [c] w0 /\
   exists rows_before w_c blk w_c' rows_after w1,
     generate_customer_services [] [p] w0 = inr (rows_before, w_c) /\
     generate_customer_services [c] [p] w0 = inr ((rows_before ++ blk)%list, w_c') /\
     generate_customer_services [c] [p] w0
     = inr ((rows_before ++ blk ++ rows_after)%list, w1) /\
     let num_services :=
       fst (Random.choices (1, 30) [(2, 40); (3, 20); (4, 10)] w_c) in
     let pool := segment_pool c [p] in
     1 <= num_services <= 4 /\
     Z.of_nat (List.length blk)
     = Z.min num_services (Z.of_nat (List.length pool)) /\
     Forall (fun s => exists q, In q pool /\ svc_of c q s) blk) /\
  (accounts_in_the_past customers_df w0 /\
   exists services w1,
     generate_customer_services customers_df plans_df w0 = inr (services, w1) /\
     Forall (fun c =>
               (1 <= rows_with Service.customer_id (Customer.customer_id c) services
                <= 4)%nat) customers_df /\
     List.length customers_df = Z.to_nat (num_customers (init (Some 2))) /\
     (List.length customers_df <= List.length services
      <= 4 * List.length customers_df)%nat /\
     List.length plans_df = 10%nat /\
     Forall (fun s => In (Service.plan_id s) (map Plan.plan_id plans_df)) services).
Proof.
  intros w0 c p customers_df plans_df.
  assert (H : accounts_in_the_past ([] ++ c :: []) w0).
  { intros c' i [<-|[]].
    change (19000 <= (1762000000000000 + Z.of_nat (0 + i)) / 86400000000).
    apply Z.div_le_lower_bound; lia. }
  assert (H' : accounts_in_the_past customers_df w0).
  { intros c' i Hin.
    assert (Hd : Customer.account_creation_date c' <= 20393).
    { assert (Hall : forallb (fun c => Customer.account_creation_date c <=? 20393)
                             customers_df = true) by (vm_compute; reflexivity).
      apply Z.leb_le. exact (proj1 (forallb_forall _ _) Hall c' Hin). }
    change (Customer.account_creation_date c'
            <= (1762000000000000 + Z.of_nat (0 + i)) / 86400000000).
    apply Z.div_le_lower_bound; lia. }
  split.
  - split; [exact H|].
    exact (proj1 (subscriptions_per_customer (init (Some 2)) w0 w0)
             [] [] c p [] w0 H).
  - split; [exact H'|].
    exact (proj2 (proj2 (subscriptions_per_customer (init (Some 2)) w0 w0)) H').
Defined.

(* ------------------------------------------------------------------ *)
(** ** What the clock reaches *)

Lemma sim_ret {A B} (R : A -> B -> Prop) a b : R a b -> sim R (ret a) (ret b).
Proof. intros H w1 w2 Hw. split; assumption. Qed.

Lemma sim_bind {A A' B B'} (R : A -> A' -> Prop) (S : B -> B' -> Prop)
  (m1 : St A) (m2 : St A') (k1 : A -> St B) (k2 : A' -> St B') :
  sim R m1 m2 -> (forall a b, R a b -> sim S (k1 a) (k2 b)) ->
  sim S (bind m1 k1) (bind m2 k2).
Proof.
  intros Hm Hk w1 w2 Hw. unfold bind. specialize (Hm w1 w2 Hw).
  destruct (m1 w1) as [a1 w1'], (m2 w2) as [a2 w2']. cbn [fst snd] in Hm.
  destruct Hm as [Ha Hw']. now apply Hk.
Qed.

Lemma sim_for_each {A A' B B'} (R : A -> A' -> Prop) (RA : B -> B' -> Prop)
  (body1 : B -> A -> St B) (body2 : B' -> A' -> St B') :
  (forall a1 a2 x y, RA a1 a2 -> R x y -> sim RA (body1 a1 x) (body2 a2 y)) ->
  forall xs ys, Forall2 R xs ys ->
  forall a1 a2, RA a1 a2 -> sim RA (for_each body1 xs a1) (for_each body2 ys a2).
Proof.
  intros Hb xs ys HF. induction HF as [|x y xs ys Hxy _ IH]; intros a1 a2 Ha;
    cbn [for_each].
  - now apply sim_ret.
  - eapply sim_bind; [now apply Hb|]. exact IH.
Qed.

Lemma Forall2_same {A} (R : A -> A -> Prop) (l : list A) :
  (forall x, R x x) -> Forall2 R l l.
Proof. intros H. induction l; constructor; auto. Qed.

(** A loop over the same items on both sides. *)
Lemma sim_for_each_same {A B B'} (RA : B -> B' -> Prop)
  (body1 : B -> A -> St B) (body2 : B' -> A -> St B') xs :
  (forall a1 a2 x, RA a1 a2 -> sim RA (body1 a1 x) (body2 a2 x)) ->
  forall a1 a2, RA a1 a2 -> sim RA (for_each body1 xs a1) (for_each body2 xs a2).
Proof.
  intros Hb. apply (sim_for_each eq RA).
  - intros a1 a2 x y Ha <-. now apply Hb.
  - now apply Forall2_same.
Qed.

Lemma sim_py_word : sim eq Random.word Random.word.
Proof.
  intros w1 w2 (Hpy & Hnp). unfold Random.word.
  destruct (draw_det _ _ Hpy) as [E H].
  destruct (draw (py_rng w1)), (draw (py_rng w2)). cbn [fst snd] in *.
  unfold seeds_eq. cbn [py_rng np_rng]. auto.
Qed.

Lemma sim_np_word : sim eq Numpy.word Numpy.word.
Proof.
  intros w1 w2 (Hpy & Hnp). unfold Numpy.word.
  destruct (draw_det _ _ Hnp) as [E H].
  destruct (draw (np_rng w1)), (draw (np_rng w2)). cbn [fst snd] in *.
  unfold seeds_eq. cbn [py_rng np_rng]. auto.
Qed.

(** What Faker draws on the two sides is unrelated. *)
Lemma sim_fk_word : sim (fun _ _ => True) Faker.word Faker.word.
Proof.
  intros w1 w2 (Hpy & Hnp). unfold Faker.word.
  destruct (draw (fk_rng w1)), (draw (fk_rng w2)). cbn [fst snd].
  unfold seeds_eq. cbn [py_rng np_rng]. auto.
Qed.

(** Reading the clock leaves the seeded streams alone; the two readings
    are unrelated. *)
Lemma sim_now : sim (fun _ _ => True) Clock.now Clock.now.
Proof.
  intros w1 w2 (Hpy & Hnp). unfold Clock.now.
  destruct (draw (clock w1)), (draw (clock w2)). cbn [fst snd].
  unfold seeds_eq. cbn [py_rng np_rng]. auto.
Qed.

Create HintDb sim discriminated.
#[local] Hint Resolve sim_py_word sim_np_word : sim.

(** A computation that draws from [random] and numpy only returns the same
    value on both sides. *)
Ltac seeded :=
  repeat lazymatch goal with
  | |- sim eq (ret _) (ret _) => apply sim_ret; reflexivity
  | |- sim eq (bind _ _) (bind _ _) => eapply (sim_bind eq); [|intros ? ? <-]
  | |- sim eq (if ?b then _ else _) (if ?b then _ else _) => destruct b
  | |- sim eq _ _ => solve [auto with sim]
  end.

Lemma sim_random : sim eq Random.random Random.random.
Proof. unfold Random.random. seeded. Qed.

Lemma sim_randbelow n : sim eq (Random.randbelow n) (Random.randbelow n).
Proof. unfold Random.randbelow. seeded. Qed.
#[local] Hint Resolve sim_random sim_randbelow : sim.

Lemma sim_randint a b : sim eq (Random.randint a b) (Random.randint a b).
Proof. unfold Random.randint. seeded. Qed.

Lemma sim_uniform a b : sim eq (Random.uniform a b) (Random.uniform a b).
Proof. unfold Random.uniform. seeded. Qed.

Lemma sim_choice {A} (x : A) xs : sim eq (Random.choice x xs) (Random.choice x xs).
Proof. unfold Random.choice. seeded. Qed.

Lemma sim_choices {A} (first : A * Z) rest :
  sim eq (Random.choices first rest) (Random.choices first rest).
Proof. unfold Random.choices. seeded. Qed.

Lemma sim_normal mu sigma : sim eq (Numpy.normal mu sigma) (Numpy.normal mu sigma).
Proof. unfold Numpy.normal. seeded. Qed.

#[local] Hint Resolve sim_randint sim_uniform sim_choice sim_choices
  sim_normal : sim.

Lemma sim_text : sim (fun _ _ => True) Faker.text Faker.text.
Proof. apply sim_fk_word. Qed.

(** Dates drawn by Faker depend on the clock. *)
Lemma sim_today : sim (fun _ _ => True) Clock.today Clock.today.
Proof.
  unfold Clock.today. eapply sim_bind; [apply sim_now|].
  intros t1 t2 _. now apply sim_ret.
Qed.

Lemma sim_date_between_dates d1 e1 d2 e2 :
  sim (fun _ _ => True) (Faker.date_between_dates d1 e1)
      (Faker.date_between_dates d2 e2).
Proof.
  unfold Faker.date_between_dates. eapply sim_bind; [apply sim_fk_word|].
  intros z ? _. now apply sim_ret.
Qed.

Lemma sim_date_between_today d1 d2 :
  sim (fun _ _ => True) (Faker.date_between_today d1) (Faker.date_between_today d2).
Proof.
  unfold Faker.date_between_today. eapply sim_bind; [apply sim_today|].
  intros t1 t2 _. apply sim_date_between_dates.
Qed.

Lemma sim_date_between_5y_today :
  sim (fun _ _ => True) Faker.date_between_5y_today Faker.date_between_5y_today.
Proof.
  unfold Faker.date_between_5y_today. eapply sim_bind; [apply sim_today|].
  intros t1 t2 _. apply sim_date_between_dates.
Qed.

Lemma sim_date_of_birth :
  sim (fun _ _ => True) Faker.date_of_birth_18_80 Faker.date_of_birth_18_80.
Proof.
  unfold Faker.date_of_birth_18_80. eapply sim_bind; [apply sim_today|].
  intros t1 t2 _. apply sim_fk_word.
Qed.

(** One step through a pair of computations: a clock reading or a call to
    Faker on both sides yields unrelated values, a seeded draw the same
    value. *)
Ltac sim_step :=
  lazymatch goal with
  | |- sim _ (ret _) (ret _) => apply sim_ret
  | |- sim _ (bind Clock.now _) (bind Clock.now _) =>
      eapply sim_bind; [apply sim_now|intros ? ? _]
  | |- sim _ (bind Faker.text _) (bind Faker.text _) =>
      eapply sim_bind; [apply sim_text|intros ? ? _]
  | |- sim _ (bind (Faker.date_between_today _) _)
             (bind (Faker.date_between_today _) _) =>
      eapply sim_bind; [apply sim_date_between_today|intros ? ? _]
  | |- sim _ (bind Faker.date_between_5y_today _)
             (bind Faker.date_between_5y_today _) =>
      eapply sim_bind; [apply sim_date_between_5y_today|intros ? ? _]
  | |- sim _ (bind Faker.date_of_birth_18_80 _)
             (bind Faker.date_of_birth_18_80 _) =>
      eapply sim_bind; [apply sim_date_of_birth|intros ? ? _]
  | |- sim _ (bind _ _) (bind _ _) =>
      eapply (sim_bind eq); [solve [seeded]|intros ? ? <-]
  end.

Lemma sim_new_customer i :
  sim (alike Stable.of_customer) (new_customer i) (new_customer i).
Proof. unfold new_customer. repeat sim_step. reflexivity. Qed.

Lemma sim_customers self :
  sim (Forall2 (alike Stable.of_customer))
      (generate_customer_demographics self) (generate_customer_demographics self).
Proof.
  unfold generate_customer_demographics.
  apply sim_for_each_same; [|constructor].
  intros a1 a2 i Ha. eapply sim_bind; [apply sim_new_customer|].
  intros c1 c2 Hc. apply sim_ret. apply Forall2_app; [exact Ha|].
  constructor; [exact Hc|constructor].
Qed.

Lemma psim_pret {A B} (R : A -> B -> Prop) a b : R a b -> psim R (pret a) (pret b).
Proof. intros H w1 w2 Hw. cbn. auto. Qed.

Lemma psim_raise {A B} (R : A -> B -> Prop) e : psim R (raise e) (raise e).
Proof. intros w1 w2 Hw. reflexivity. Qed.

Lemma psim_lift {A B} (R : A -> B -> Prop) m1 m2 :
  sim R m1 m2 -> psim R (lift m1) (lift m2).
Proof.
  intros Hm w1 w2 Hw. unfold lift. specialize (Hm w1 w2 Hw).
  destruct (m1 w1), (m2 w2). exact Hm.
Qed.

Lemma psim_pbind {A A' B B'} (R : A -> A' -> Prop) (S : B -> B' -> Prop)
  (m1 : Py A) (m2 : Py A') (k1 : A -> Py B) (k2 : A' -> Py B') :
  psim R m1 m2 -> (forall a b, R a b -> psim S (k1 a) (k2 b)) ->
  psim S (pbind m1 k1) (pbind m2 k2).
Proof.
  intros Hm Hk w1 w2 Hw. unfold pbind. specialize (Hm w1 w2 Hw).
  destruct (m1 w1) as [e1|[a1 w1']], (m2 w2) as [e2|[a2 w2']];
    try contradiction; [exact Hm|].
  destruct Hm as [Ha Hw']. now apply Hk.
Qed.

Lemma psim_pfor_each {A A' B B'} (R : A -> A' -> Prop) (RA : B -> B' -> Prop)
  (body1 : B -> A -> Py B) (body2 : B' -> A' -> Py B') :
  (forall a1 a2 x y, RA a1 a2 -> R x y -> psim RA (body1 a1 x) (body2 a2 y)) ->
  forall xs ys, Forall2 R xs ys ->
  forall a1 a2, RA a1 a2 -> psim RA (pfor_each body1 xs a1) (pfor_each body2 ys a2).
Proof.
  intros Hb xs ys HF. induction HF as [|x y xs ys Hxy _ IH]; intros a1 a2 Ha;
    cbn [pfor_each].
  - now apply psim_pret.
  - eapply psim_pbind; [now apply Hb|]. exact IH.
Qed.

Lemma psim_result {A} (r : PyErr + A) : psim eq (result r) (result r).
Proof. intros w1 w2 Hw. unfold result. destruct r; auto. Qed.

Lemma sim_sample_n_same {A} n :
  forall l : list A, sim eq (Numpy.sample_n n l) (Numpy.sample_n n l).
Proof.
  induction n as [|n IH]; intros l; cbn [Numpy.sample_n];
    [now apply sim_ret|].
  destruct l as [|x l]; [now apply sim_ret|].
  eapply (sim_bind eq); [apply sim_np_word|]. intros z ? <-.
  destruct (Numpy.take_nth _ _) as [[y rest]|]; [|now apply sim_ret].
  eapply (sim_bind eq); [apply IH|]. intros picked ? <-. now apply sim_ret.
Qed.

(** What two customers alike but for their dates share. *)
Lemma alike_customer c1 c2 :
  alike Stable.of_customer c1 c2 ->
  Customer.customer_id c1 = Customer.customer_id c2 /\
  Customer.customer_segment c1 = Customer.customer_segment c2.
Proof.
  intros H. split.
  - exact (f_equal Customer.customer_id H).
  - exact (f_equal Customer.customer_segment H).
Qed.

Lemma sim_new_service c1 c2 acc1 acc2 plan :
  alike Stable.of_customer c1 c2 -> List.length acc1 = List.length acc2 ->
  sim (alike Stable.of_service) (new_service c1 acc1 plan) (new_service c2 acc2 plan).
Proof.
  intros Hc Hlen. destruct (alike_customer _ _ Hc) as [Hid _].
  unfold new_service. repeat sim_step.
  unfold alike, Stable.of_service. cbn. now rewrite Hid, Hlen.
Qed.

Lemma psim_customer_services plans_df acc1 acc2 c1 c2 :
  Forall2 (alike Stable.of_service) acc1 acc2 ->
  alike Stable.of_customer c1 c2 ->
  psim (Forall2 (alike Stable.of_service))
       (customer_services plans_df acc1 c1) (customer_services plans_df acc2 c2).
Proof.
  intros Hacc Hc. destruct (alike_customer _ _ Hc) as [_ Hseg].
  unfold customer_services, available_plans. rewrite Hseg.
  eapply (psim_pbind eq); [apply psim_lift, sim_choices|]. intros n ? <-.
  eapply (psim_pbind eq); [apply psim_result|]. intros available ? <-.
  eapply (psim_pbind eq); [apply psim_lift, sim_sample_n_same|].
  intros selected ? <-. apply psim_lift.
  apply sim_for_each_same; [|exact Hacc].
  intros a1 a2 plan Ha.
  eapply sim_bind;
    [apply (sim_new_service c1 c2 a1 a2 plan Hc (Forall2_length Ha))|].
  intros s1 s2 Hs. apply sim_ret. apply Forall2_app; [exact Ha|].
  constructor; [exact Hs|constructor].
Qed.

Lemma psim_services plans_df cs1 cs2 :
  Forall2 (alike Stable.of_customer) cs1 cs2 ->
  psim (Forall2 (alike Stable.of_service))
       (generate_customer_services cs1 plans_df)
       (generate_customer_services cs2 plans_df).
Proof.
  intros Hcs. unfold generate_customer_services.
  apply (psim_pfor_each (alike Stable.of_customer)
           (Forall2 (alike Stable.of_service))); [|exact Hcs|constructor].
  intros a1 a2 c1 c2 Ha Hc. now apply psim_customer_services.
Qed.

Lemma alike_service s1 s2 :
  alike Stable.of_service s1 s2 ->
  Service.customer_id s1 = Service.customer_id s2 /\
  Service.service_id s1 = Service.service_id s2 /\
  Service.service_type s1 = Service.service_type s2 /\
  Service.monthly_fee s1 = Service.monthly_fee s2 /\
  Service.service_status s1 = Service.service_status s2.
Proof.
  intros H. repeat split.
  - exact (f_equal Service.customer_id H).
  - exact (f_equal Service.service_id H).
  - exact (f_equal Service.service_type H).
  - exact (f_equal Service.monthly_fee H).
  - exact (f_equal Service.service_status H).
Qed.

Ltac sim_steps :=
  repeat lazymatch goal with
  | |- sim _ (if ?b then _ else _) (if ?b then _ else _) => destruct b
  | |- sim _ _ _ => sim_step
  end.

Lemma sim_usage_dispatch s1 s2 d1 d2 :
  alike Stable.of_service s1 s2 ->
  sim (alike_option Stable.of_usage) (usage_dispatch s1 d1) (usage_dispatch s2 d2).
Proof.
  intros Hs. destruct (alike_service _ _ Hs) as (Hc & Hi & Hty & Hfee & _).
  unfold usage_dispatch. cbv zeta. rewrite Hc, Hi, Hty, Hfee.
  sim_steps; reflexivity.
Qed.

Lemma psim_usage_month_step s1 s2 st1 st2 month_offset :
  alike Stable.of_service s1 s2 -> usage_state_alike st1 st2 ->
  psim usage_state_alike (usage_month_step s1 st1 month_offset)
       (usage_month_step s2 st2 month_offset).
Proof.
  intros Hs [Hrows Hlast]. unfold usage_month_step.
  eapply psim_pbind; [apply psim_lift, sim_now|]. intros now1 now2 _. cbv zeta.
  eapply psim_pbind; [apply psim_lift, (sim_usage_dispatch _ _ _ _ Hs)|].
  intros built1 built2 Hb.
  assert (Hu : alike_option Stable.of_usage
                 match built1 with Some u => Some u | None => snd st1 end
                 match built2 with Some u => Some u | None => snd st2 end).
  { destruct built1, built2; try discriminate Hb; assumption. }
  destruct (match built1 with Some u => Some u | None => snd st1 end) as [u1|],
           (match built2 with Some u => Some u | None => snd st2 end) as [u2|];
    try discriminate Hu; [|apply psim_raise].
  apply psim_pret. split; [|exact Hu]. cbn [fst].
  apply Forall2_app; [exact Hrows|]. constructor; [|constructor].
  now injection Hu.
Qed.

Lemma psim_usage ss1 ss2 :
  Forall2 (alike Stable.of_service) ss1 ss2 ->
  psim (Forall2 (alike Stable.of_usage))
       (generate_usage_data ss1) (generate_usage_data ss2).
Proof.
  intros Hss. unfold generate_usage_data.
  eapply psim_pbind.
  - apply (psim_pfor_each (alike Stable.of_service) usage_state_alike);
      [|exact Hss|split; [constructor|reflexivity]].
    intros st1 st2 s1 s2 Hst Hs. unfold usage_service_step.
    destruct (alike_service _ _ Hs) as (_ & _ & _ & _ & ->).
    destruct (Service.service_status s2 =? "Active")%string;
      [|now apply psim_pret].
    apply (psim_pfor_each eq usage_state_alike);
      [|now apply Forall2_same|exact Hst].
    intros a1 a2 m ? Ha <-. now apply psim_usage_month_step.
  - intros st1 st2 [Hrows _]. now apply psim_pret.
Qed.

Lemma sim_new_bill s1 s2 month_offset :
  alike Stable.of_service s1 s2 ->
  sim (alike Stable.of_bill) (new_bill s1 month_offset) (new_bill s2 month_offset).
Proof.
  intros Hs. destruct (alike_service _ _ Hs) as (Hc & Hi & _ & Hfee & _).
  unfold new_bill. rewrite Hc, Hi, Hfee.
  eapply sim_bind; [apply sim_now|]. intros now1 now2 _. cbv zeta.
  sim_steps.
  eapply (sim_bind (alike Stable.blank)).
  - sim_steps; reflexivity.
  - intros paid1 paid2 Hp. sim_steps.
    unfold alike, Stable.of_bill in *. cbn. now rewrite Hp.
Qed.

Lemma sim_billing ss1 ss2 :
  Forall2 (alike Stable.of_service) ss1 ss2 ->
  sim (Forall2 (alike Stable.of_bill))
      (generate_billing_data ss1) (generate_billing_data ss2).
Proof.
  intros Hss. unfold generate_billing_data.
  apply (sim_for_each (alike Stable.of_service) (Forall2 (alike Stable.of_bill)));
    [|exact Hss|constructor].
  intros a1 a2 s1 s2 Ha Hs. unfold service_bills.
  apply sim_for_each_same; [|exact Ha].
  intros b1 b2 m Hb. eapply sim_bind; [apply (sim_new_bill _ _ _ Hs)|].
  intros x1 x2 Hx. apply sim_ret. apply Forall2_app; [exact Hb|].
  constructor; [exact Hx|constructor].
Qed.

(** Sampling rows of two frames alike row by row picks the same positions. *)
Lemma take_nth_alike {A} (R : A -> A -> Prop) i :
  forall l1 l2, Forall2 R l1 l2 ->
    match Numpy.take_nth i l1, Numpy.take_nth i l2 with
    | Some (x, r1), Some (y, r2) => R x y /\ Forall2 R r1 r2
    | None, None => True
    | _, _ => False
    end.
Proof.
  induction i as [|i IH]; intros l1 l2 HF; destruct HF as [|x y l1 l2 Hxy HF];
    cbn [Numpy.take_nth]; auto.
  specialize (IH l1 l2 HF).
  destruct (Numpy.take_nth i l1) as [[a r1]|], (Numpy.take_nth i l2) as [[b r2]|];
    try contradiction; auto.
  destruct IH. split; [assumption|now constructor].
Qed.

Lemma sim_sample_n {A} (R : A -> A -> Prop) n :
  forall l1 l2, Forall2 R l1 l2 ->
    sim (Forall2 R) (Numpy.sample_n n l1) (Numpy.sample_n n l2).
Proof.
  induction n as [|n IH]; intros l1 l2 HF; cbn [Numpy.sample_n];
    [apply sim_ret; constructor|].
  pose proof (Forall2_length HF) as Hlen.
  destruct HF as [|x y l1 l2 Hxy HF]; [apply sim_ret; constructor|].
  eapply (sim_bind eq); [apply sim_np_word|]. intros z ? <-. rewrite Hlen.
  pose proof (take_nth_alike R
                (Z.to_nat (z mod Z.of_nat (List.length (y :: l2))))
                (x :: l1) (y :: l2) (Forall2_cons _ _ Hxy HF)) as Ht.
  destruct (Numpy.take_nth _ (x :: l1)) as [[a r1]|],
           (Numpy.take_nth _ (y :: l2)) as [[b r2]|];
    try contradiction; [|apply sim_ret; constructor].
  destruct Ht as [Hab Hr]. eapply sim_bind; [apply (IH _ _ Hr)|].
  intros p1 p2 Hp. apply sim_ret. now constructor.
Qed.

Lemma sim_sample_frac {A} (R : A -> A -> Prop) frac l1 l2 :
  Forall2 R l1 l2 ->
  sim (Forall2 R) (Numpy.sample_frac frac l1) (Numpy.sample_frac frac l2).
Proof.
  intros HF. unfold Numpy.sample_frac. rewrite (Forall2_length HF).
  now apply sim_sample_n.
Qed.

Lemma sim_new_ticket c1 c2 acc1 acc2 :
  alike Stable.of_customer c1 c2 -> List.length acc1 = List.length acc2 ->
  sim (alike Stable.of_ticket) (new_ticket c1 acc1) (new_ticket c2 acc2).
Proof.
  intros Hc Hlen. destruct (alike_customer _ _ Hc) as [Hid _].
  unfold new_ticket. cbv zeta. sim_steps.
  unfold alike, Stable.of_ticket. cbn. now rewrite Hid, Hlen.
Qed.

Lemma sim_tickets cs1 cs2 :
  Forall2 (alike Stable.of_customer) cs1 cs2 ->
  sim (Forall2 (alike Stable.of_ticket))
      (generate_support_tickets cs1) (generate_support_tickets cs2).
Proof.
  intros Hcs. unfold generate_support_tickets.
  eapply sim_bind; [apply (sim_sample_frac _ _ _ _ Hcs)|].
  intros p1 p2 Hp.
  apply (sim_for_each (alike Stable.of_customer)
           (Forall2 (alike Stable.of_ticket))); [|exact Hp|constructor].
  intros a1 a2 c1 c2 Ha Hc. unfold customer_tickets.
  eapply (sim_bind eq); [apply sim_choices|]. intros n ? <-.
  apply sim_for_each_same; [|exact Ha].
  intros b1 b2 i Hb.
  eapply sim_bind; [apply (sim_new_ticket _ _ _ _ Hc (Forall2_length Hb))|].
  intros t1 t2 Ht. apply sim_ret. apply Forall2_app; [exact Hb|].
  constructor; [exact Ht|constructor].
Qed.

Lemma sim_new_survey c1 c2 acc1 acc2 :
  alike Stable.of_customer c1 c2 -> List.length acc1 = List.length acc2 ->
  sim (alike Stable.of_survey) (new_survey c1 acc1) (new_survey c2 acc2).
Proof.
  intros Hc Hlen. destruct (alike_customer _ _ Hc) as [Hid _].
  unfold new_survey. sim_steps.
  eapply (sim_bind (alike Stable.blank)).
  - sim_steps; reflexivity.
  - intros f1 f2 Hf. sim_steps.
    unfold alike, Stable.of_survey in *. cbn. now rewrite Hid, Hlen, Hf.
Qed.

Lemma sim_surveys cs1 cs2 :
  Forall2 (alike Stable.of_customer) cs1 cs2 ->
  sim (Forall2 (alike Stable.of_survey))
      (generate_nps_surveys cs1) (generate_nps_surveys cs2).
Proof.
  intros Hcs. unfold generate_nps_surveys.
  eapply sim_bind; [apply (sim_sample_frac _ _ _ _ Hcs)|].
  intros p1 p2 Hp.
  apply (sim_for_each (alike Stable.of_customer)
           (Forall2 (alike Stable.of_survey))); [|exact Hp|constructor].
  intros a1 a2 c1 c2 Ha Hc. unfold customer_surveys.
  eapply (sim_bind eq); [apply sim_choices|]. intros n ? <-.
  apply sim_for_each_same; [|exact Ha].
  intros b1 b2 i Hb.
  eapply sim_bind; [apply (sim_new_survey _ _ _ _ Hc (Forall2_length Hb))|].
  intros t1 t2 Ht. apply sim_ret. apply Forall2_app; [exact Hb|].
  constructor; [exact Ht|constructor].
Qed.

Lemma filter_alike {A} (R : A -> A -> Prop) (p : A -> bool) l1 l2 :
  (forall x y, R x y -> p x = p y) -> Forall2 R l1 l2 ->
  Forall2 R (filter p l1) (filter p l2).
Proof.
  intros Hp. induction 1 as [|x y l1 l2 Hxy _ IH]; cbn [filter]; [constructor|].
  rewrite (Hp x y Hxy). destruct (p y); [now constructor|exact IH].
Qed.

Lemma map_alike {A B} (R : A -> A -> Prop) (g : A -> B) l1 l2 :
  (forall x y, R x y -> g x = g y) -> Forall2 R l1 l2 -> map g l1 = map g l2.
Proof.
  intros Hg. induction 1 as [|x y l1 l2 Hxy _ IH]; cbn [map]; [reflexivity|].
  now rewrite (Hg x y Hxy), IH.
Qed.

Lemma psim_where_customer {R} (f : R -> R) (key : R -> string) df1 df2 id :
  (forall x y, alike f x y -> key x = key y) ->
  Forall2 (alike f) df1 df2 ->
  psim (Forall2 (alike f)) (where_customer df1 key id) (where_customer df2 key id).
Proof.
  intros Hkey HF. unfold where_customer.
  destruct HF as [|x y l1 l2 Hxy HF]; [apply psim_raise|].
  apply psim_pret. apply filter_alike; [|now constructor].
  intros a b Hab. now rewrite (Hkey a b Hab).
Qed.

Lemma psim_customer_metric ss1 ss2 bs1 bs2 ts1 ts2 ns1 ns2 c1 c2 :
  Forall2 (alike Stable.of_service) ss1 ss2 ->
  Forall2 (alike Stable.of_bill) bs1 bs2 ->
  Forall2 (alike Stable.of_ticket) ts1 ts2 ->
  Forall2 (alike Stable.of_survey) ns1 ns2 ->
  alike Stable.of_customer c1 c2 ->
  psim (alike Stable.of_metric)
       (customer_metric ss1 bs1 ts1 ns1 c1) (customer_metric ss2 bs2 ts2 ns2 c2).
Proof.
  intros Hss Hbs Hts Hns Hc. destruct (alike_customer _ _ Hc) as [Hid _].
  unfold customer_metric. cbv zeta. rewrite Hid.
  eapply psim_pbind.
  { apply (psim_where_customer Stable.of_service); [|exact Hss].
    intros x y H. exact (f_equal Service.customer_id H). }
  intros cs1 cs2 Hcs.
  eapply psim_pbind.
  { apply (psim_where_customer Stable.of_bill); [|exact Hbs].
    intros x y H. exact (f_equal Billing.customer_id H). }
  intros cb1 cb2 Hcb.
  eapply psim_pbind.
  { apply (psim_where_customer Stable.of_ticket); [|exact Hts].
    intros x y H. exact (f_equal Ticket.customer_id H). }
  intros ct1 ct2 Hct.
  eapply psim_pbind.
  { apply (psim_where_customer Stable.of_survey); [|exact Hns].
    intros x y H. exact (f_equal Survey.customer_id H). }
  intros cn1 cn2 Hcn.
  eapply psim_pbind; [apply psim_lift, sim_now|]. intros now1 now2 _.
  apply psim_pret. unfold alike, Stable.of_metric.
  cbn [Metric.customer_id Metric.total_services Metric.active_services
       Metric.total_lifetime_value Metric.support_tickets_count
       Metric.avg_resolution_time_hours Metric.avg_satisfaction_rating
       Metric.last_interaction_date].
  rewrite (Forall2_length Hcs), (Forall2_length Hct).
  rewrite (Forall2_length
             (filter_alike (alike Stable.of_service)
                (fun s => (Service.service_status s =? "Active")%string) _ _
                (fun x y (H : alike Stable.of_service x y) =>
                   f_equal (fun s => (Service.service_status s =? "Active")%string) H)
                Hcs)).
  rewrite (map_alike (alike Stable.of_bill) Billing.amount_paid _ _
             (fun x y (H : alike Stable.of_bill x y) =>
                f_equal Billing.amount_paid H) Hcb).
  rewrite (map_alike (alike Stable.of_ticket) Ticket.resolution_time_hours _ _
             (fun x y (H : alike Stable.of_ticket x y) =>
                f_equal Ticket.resolution_time_hours H) Hct).
  rewrite (map_alike (alike Stable.of_ticket)
             (fun t => inject_Z (Ticket.satisfaction_rating t)) _ _
             (fun x y (H : alike Stable.of_ticket x y) =>
                f_equal (fun t => inject_Z (Ticket.satisfaction_rating t)) H)
             Hct).
  destruct Hct; reflexivity.
Qed.

Lemma psim_metrics cs1 cs2 ss1 ss2 bs1 bs2 ts1 ts2 ns1 ns2 :
  Forall2 (alike Stable.of_customer) cs1 cs2 ->
  Forall2 (alike Stable.of_service) ss1 ss2 ->
  Forall2 (alike Stable.of_bill) bs1 bs2 ->
  Forall2 (alike Stable.of_ticket) ts1 ts2 ->
  Forall2 (alike Stable.of_survey) ns1 ns2 ->
  psim (Forall2 (alike Stable.of_metric))
       (calculate_customer_metrics cs1 ss1 bs1 ts1 ns1)
       (calculate_customer_metrics cs2 ss2 bs2 ts2 ns2).
Proof.
  intros Hcs Hss Hbs Hts Hns. unfold calculate_customer_metrics.
  apply (psim_pfor_each (alike Stable.of_customer)
           (Forall2 (alike Stable.of_metric))); [|exact Hcs|constructor].
  intros a1 a2 c1 c2 Ha Hc.
  eapply psim_pbind; [now apply psim_customer_metric|].
  intros m1 m2 Hm. apply psim_pret. apply Forall2_app; [exact Ha|].
  constructor; [exact Hm|constructor].
Qed.

Lemma alike_rows {A} (f : A -> A) l1 l2 :
  Forall2 (alike f) l1 l2 -> map f l1 = map f l2.
Proof. apply map_alike. auto. Qed.

Lemma psim_generate_all_data self :
  psim (alike Stable.of_tables) (generate_all_data self) (generate_all_data self).
Proof.
  unfold generate_all_data.
  eapply psim_pbind; [apply psim_lift, sim_customers|]. intros cs1 cs2 Hcs.
  cbv zeta.
  eapply psim_pbind; [apply (psim_services _ _ _ Hcs)|]. intros ss1 ss2 Hss.
  eapply psim_pbind; [apply (psim_usage _ _ Hss)|]. intros us1 us2 Hus.
  eapply psim_pbind; [apply psim_lift, (sim_billing _ _ Hss)|].
  intros bs1 bs2 Hbs.
  eapply psim_pbind; [apply psim_lift, (sim_tickets _ _ Hcs)|].
  intros ts1 ts2 Hts.
  eapply psim_pbind; [apply psim_lift, (sim_surveys _ _ Hcs)|].
  intros ns1 ns2 Hns.
  eapply psim_pbind; [apply (psim_metrics _ _ _ _ _ _ _ _ _ _ Hcs Hss Hbs Hts Hns)|].
  intros ms1 ms2 Hms. apply psim_pret.
  unfold alike, Stable.of_tables.
  cbn [customers plans services usage billing support_tickets nps_surveys
       customer_metrics].
  now rewrite (alike_rows _ _ _ Hcs), (alike_rows _ _ _ Hss), (alike_rows _ _ _ Hus),
    (alike_rows _ _ _ Hbs), (alike_rows _ _ _ Hts), (alike_rows _ _ _ Hns),
    (alike_rows _ _ _ Hms).
Qed.

(** C1 (as the code behaves): seeding fixes the random streams but not the
    clock, which the generator reads for every usage month, every bill,
    every Faker date and every metrics row.  Two runs for the same customer
    count in which [random] and numpy start from the same seeded state both
    return or raise the same exception, whatever their clocks read and
    whatever Faker draws, and when they return their eight tables agree on
    every column that is neither a date, nor computed from dates, nor a text
    drawn by Faker: all of the plan catalog; id, gender, country, segment,
    status, contact method, credit score and income of customers;
    everything but the start date of subscriptions; everything but the month
    label of usage rows; amounts, status, method, late fee and whether a
    payment date is present of bills; everything but the creation date of
    tickets; ids, score, category and whether a feedback is present of
    surveys; and of the metrics the counts of services and tickets, the
    lifetime value, the two ticket averages and whether a last interaction
    date is present.  The tables are identical when Faker draws the same
    and the clocks read the same as well. *)
Theorem seeds_fix_stable_columns (self : TelcoDataGenerator) (w1 w2 : World) :
  seeds_eq w1 w2 ->
  same_stable_part (run (generate_all_data self) w1)
                   (run (generate_all_data self) w2) /\
  (src_eq (fk_rng w1) (fk_rng w2) -> src_eq (clock w1) (clock w2) ->
   run (generate_all_data self) w1 = run (generate_all_data self) w2).
Proof.
  intros Hseeds. split.
  - pose proof (psim_generate_all_data self w1 w2 Hseeds) as D.
    unfold run, same_stable_part.
    destruct (generate_all_data self w1) as [e1|[t1 w1']],
             (generate_all_data self w2) as [e2|[t2 w2']]; try contradiction.
    + exact D.
    + exact (proj1 D).
  - intros Hfk Hclock. destruct Hseeds as (Hpy & Hnp).
    pose proof (pdet_generate_all_data self w1 w2
                  (conj Hpy (conj Hnp (conj Hfk Hclock)))) as D.
    unfold run.
    destruct (generate_all_data self w1) as [e1|[t1 w1']],
             (generate_all_data self w2) as [e2|[t2 w2']]; try contradiction.
    + now rewrite D.
    + destruct D as [-> _]. reflexivity.
Qed.

(** Two runs for three customers started one day apart, Faker drawing
    differently in the second. *)
Lemma seeds_fix_stable_columns_witness :
  let w1 := world0 1762000000000000 in
  let w2 := mkWorld (py_rng w1) (np_rng w1) (affine 37 11)
                    (mkSrc (fun n => 1762086400000000 + Z.of_nat n) 0) in
  seeds_eq w1 w2 /\
  same_stable_part (run (generate_all_data (init (Some 3))) w1)
                   (run (generate_all_data (init (Some 3))) w2) /\
  (src_eq (fk_rng w1) (fk_rng w2) -> src_eq (clock w1) (clock w2) ->
   run (generate_all_data (init (Some 3))) w1
   = run (generate_all_data (init (Some 3))) w2).
Proof.
  intros w1 w2.
  assert (H : seeds_eq w1 w2).
  { unfold seeds_eq, src_eq. repeat split; reflexivity. }
  split; [exact H|].
  exact (seeds_fix_stable_columns (init (Some 3)) w1 w2 H).
Defined.
